(** * Opytimizer: the optimizer core and Evolutionary Programming

    A shallow embedding of
      - [opytimizer/core/optimizer.py]              (class [Optimizer]),
      - [opytimizer/optimizers/evolutionary/ep.py]  (class [EP]),
      - [opytimizer/optimizers/science/es.py]       (class [ES]),
    in two layers:

      - [Module Py]: Python objects as the constructors see them, an
        instance dictionary plus the properties of the class, with the
        exceptions the setters raise;
      - the section [Evolution]: agents, position arrays and Python lists
        as objects of a store, with the random generator threaded
        through, for [evaluate], [_mutate_parent], [_update_strategy],
        [update] and [run].

    Python floats are idealised as rationals ([Q]): a finite float is the
    rational it denotes, and the arithmetic on positions and strategies
    is exact. Two places need more, and have it: the setters of the
    hyperparameters compare whatever float they are given, so the floats
    nan, inf and -inf are values of [Py.PyVal]; and the number of bouts
    is [int] of a float product, whose rounding can move it across an
    integer, so this product is the interpreter's own ([py_mul]). *)

From Stdlib Require Import ZArith QArith Qabs Qminmax Qround String List Sorted Lia.
From stdpp Require Import base option gmap strings list.

Local Open Scope string_scope.
Local Open Scope list_scope.

(** ** Exceptions and results *)

(** [TypeError] and [ValueError] are the classes of
    [opytimizer.utils.exception] ([e.TypeError], [e.ValueError]) and carry
    their message; the [Py...] constructors are the interpreter's own
    exceptions. [BadRef] marks a reference to no object of the store; no
    Python program produces one, and the theorems exclude it through
    their well-formedness hypotheses. [Unmodelled] is no exception of
    Python either: it marks the accesses to the interpreter's own
    attributes of an instance ([__dict__], [__class__], [__doc__], ...)
    whose outcome this embedding does not describe; no theorem concludes
    it, and the theorems about mappings exclude the key [__dict__]. *)
Inductive exn : Type :=
| TypeError (msg : string)
| ValueError (msg : string)
| PyTypeError (msg : string)
| PyAttributeError (name : string)
| PyIndexError
| PyShapeError
| BadRef
| Unmodelled.

Inductive result (A : Type) : Type :=
| Ok (a : A)
| Raise (e : exn).

Arguments Ok {A} a.
Arguments Raise {A} e.

#[global] Instance result_ret : MRet result := fun _ a => Ok a.

#[global] Instance result_bind : MBind result := fun _ _ k m =>
  match m with
  | Ok a => k a
  | Raise e => Raise e
  end.

(** [for x in xs: acc = body(acc, x)], stopping at the first exception. *)
Fixpoint foldM {A B} (body : B → A → result B) (acc : B) (xs : list A)
  : result B :=
  match xs with
  | [] => Ok acc
  | x :: xs' =>
      match body acc x with
      | Ok acc' => foldM body acc' xs'
      | Raise e => Raise e
      end
  end.

(** [x < y] on floats. *)
Definition Qltb (x y : Q) : bool := negb (Qle_bool y x).

(** ** Python values and instances *)

Module Py.

(** The values a hyperparameter mapping carries: [None], booleans, ints,
    floats, strings, lists and dicts of these. [VFloat q] is a finite
    float, [VNaN] and [VInf] are the floats nan, inf and -inf. A [dict]
    keeps its items in insertion order. Instances of other classes are
    not represented. *)
#[local] Unset Elimination Schemes.
Inductive PyVal : Type :=
| VNone
| VBool (b : bool)
| VInt (z : Z)
| VFloat (q : Q)
| VStr (s : string)
| VList (l : list PyVal)
| VDict (d : list (PyVal * PyVal))
| VNaN
| VInf (negative : bool).
#[local] Set Elimination Schemes.

(** Truth value of an object, as [if params:] tests it. *)
Definition truthy (v : PyVal) : bool :=
  match v with
  | VNone => false
  | VBool b => b
  | VInt z => negb (Z.eqb z 0)
  | VFloat q => negb (Qeq_bool q 0)
  | VStr s => negb (String.eqb s "")
  | VList l => match l with [] => false | _ => true end
  | VDict d => match d with [] => false | _ => true end
  | VNaN | VInf _ => true
  end.

(** [isinstance(v, str)], [isinstance(v, bool)], [isinstance(v, dict)]. *)
Definition is_str (v : PyVal) : bool :=
  match v with VStr _ => true | _ => false end.
Definition is_bool (v : PyVal) : bool :=
  match v with VBool _ => true | _ => false end.
Definition is_dict (v : PyVal) : bool :=
  match v with VDict _ => true | _ => false end.

(** [isinstance(v, (float, int))]; [bool] is a subclass of [int]. *)
Definition is_number (v : PyVal) : bool :=
  match v with
  | VInt _ | VFloat _ | VBool _ | VNaN | VInf _ => true
  | _ => false
  end.

(** The number a finite int or float denotes in a comparison. *)
Definition as_number (v : PyVal) : option Q :=
  match v with
  | VInt z => Some (inject_Z z)
  | VFloat q => Some q
  | VBool b => Some (if b then 1%Q else 0%Q)
  | _ => None
  end.

(** [v < c] and [v > c] for a number [v] and an int [c]. Every
    comparison with nan is False; -inf is below and inf above every
    int. *)
Definition lt_const (v : PyVal) (c : Q) : bool :=
  match v with
  | VNaN => false
  | VInf negative => negative
  | _ => match as_number v with
         | Some q => Qltb q c
         | None => false
         end
  end.

Definition gt_const (v : PyVal) (c : Q) : bool :=
  match v with
  | VNaN => false
  | VInf negative => negb negative
  | _ => match as_number v with
         | Some q => Qltb c q
         | None => false
         end
  end.

Inductive Class : Type := Optimizer | EP | ES.

Definition class_name (c : Class) : string :=
  match c with
  | Optimizer => "Optimizer"
  | EP => "EP"
  | ES => "ES"
  end.

(** An instance: its class and its [__dict__]. *)
Record Obj : Type := mkObj {
  cls : Class;
  dict : gmap string PyVal
}.

Definition new_obj (c : Class) : Obj := mkObj c ∅.

Definition store (name : string) (v : PyVal) (o : Obj) : Obj :=
  mkObj (cls o) (<[name := v]> (dict o)).

(** *** Property setters *)

(** [Optimizer.algorithm] setter (optimizer.py 41-46). *)
Definition set_algorithm (algorithm : PyVal) (self : Obj) : result Obj :=
  if negb (is_str algorithm)
  then Raise (TypeError "`algorithm` should be a string")
  else Ok (store "_algorithm" algorithm self).

(** [Optimizer.built] setter (optimizer.py 56-61). *)
Definition set_built (built : PyVal) (self : Obj) : result Obj :=
  if negb (is_bool built)
  then Raise (TypeError "`built` should be a boolean")
  else Ok (store "_built" built self).

(** [Optimizer.params] setter (optimizer.py 71-76). *)
Definition set_params (params : PyVal) (self : Obj) : result Obj :=
  if negb (is_dict params)
  then Raise (TypeError "`params` should be a dictionary")
  else Ok (store "_params" params self).

(** [EP.bout_size] setter (ep.py 60-67). *)
Definition set_bout_size (bout_size : PyVal) (self : Obj) : result Obj :=
  if negb (is_number bout_size)
  then Raise (TypeError "`bout_size` should be a float or integer")
  else if lt_const bout_size 0 || gt_const bout_size 1
  then Raise (ValueError "`bout_size` should be between 0 and 1")
  else Ok (store "_bout_size" bout_size self).

(** [EP.clip_ratio] setter (ep.py 77-84). *)
Definition set_clip_ratio (clip_ratio : PyVal) (self : Obj) : result Obj :=
  if negb (is_number clip_ratio)
  then Raise (TypeError "`clip_ratio` should be a float or integer")
  else if lt_const clip_ratio 0 || gt_const clip_ratio 1
  then Raise (ValueError "`clip_ratio` should be between 0 and 1")
  else Ok (store "_clip_ratio" clip_ratio self).

(** The properties a class defines or inherits, with the attribute that
    backs each one. [ES] and [EP] inherit those of [Optimizer]. *)
Definition optimizer_property (name : string)
  : option (string * (PyVal → Obj → result Obj)) :=
  if String.eqb name "algorithm" then Some ("_algorithm", set_algorithm)
  else if String.eqb name "built" then Some ("_built", set_built)
  else if String.eqb name "params" then Some ("_params", set_params)
  else None.

Definition ep_property (name : string)
  : option (string * (PyVal → Obj → result Obj)) :=
  if String.eqb name "bout_size" then Some ("_bout_size", set_bout_size)
  else if String.eqb name "clip_ratio" then Some ("_clip_ratio", set_clip_ratio)
  else optimizer_property name.

Definition property (c : Class) (name : string)
  : option (string * (PyVal → Obj → result Obj)) :=
  match c with
  | EP => ep_property name
  | Optimizer | ES => optimizer_property name
  end.

(** The methods a class defines or inherits. *)
Definition optimizer_methods : list string :=
  ["__init__"; "build"; "compile"; "evaluate"; "update"].

Definition methods (c : Class) : list string :=
  match c with
  | Optimizer => optimizer_methods
  | EP => ["__init__"; "_mutate_parent"; "_update_strategy"; "update"; "run"]
            ++ optimizer_methods
  | ES => ["__init__"] ++ optimizer_methods
  end.

(** *** Attribute access *)

(** The attributes of an instance that the interpreter keeps itself:
    data descriptors of [object] ([__class__]) and of the first class of
    the hierarchy ([__dict__], [__weakref__]), which like the properties
    go before the instance dictionary. *)
Definition interpreter_attributes : list string :=
  ["__class__"; "__dict__"; "__weakref__"].

(** A name of the form [__x__]: besides the three above, the names of
    what every instance inherits from [object] and from its class
    ([__doc__], [__module__], [__eq__], [__repr__], ...). *)
Definition dunder (name : string) : bool :=
  String.prefix "__" name
  && String.eqb (String.substring (String.length name - 2) 2 name) "__".

(** [self.name = v]: a property of the class runs its setter, and any
    other name is bound in the instance dictionary, but for the three
    interpreter attributes. [__class__] takes a class, and no value of a
    mapping is one; [__weakref__] cannot be written; [__dict__] takes a
    dict, which becomes the instance dictionary itself, shared with the
    mapping it comes from: this the embedding does not describe. *)
Definition setattr_name (name : string) (v : PyVal) (self : Obj) : result Obj :=
  match property (cls self) name with
  | Some (_, setter) => setter v self
  | None =>
      if String.eqb name "__class__"
      then Raise (PyTypeError "__class__ must be set to a class")
      else if String.eqb name "__weakref__"
      then Raise (PyAttributeError "__weakref__")
      else if String.eqb name "__dict__"
      then (if is_dict v then Raise Unmodelled
            else Raise (PyTypeError "__dict__ must be set to a dictionary"))
      else Ok (store name v self)
  end.

(** [setattr(self, k, v)], where [k] is any object. *)
Definition setattr (k v : PyVal) (self : Obj) : result Obj :=
  match k with
  | VStr name => setattr_name name v self
  | _ => Raise (PyTypeError "attribute name must be string")
  end.

(** What [self.name] evaluates to: a value, or a method of the class
    bound to the instance. A property reads its backing attribute; any
    other name is looked up in the instance dictionary and then among
    the methods of the class. What the interpreter answers itself, for
    its three attributes and for the other inherited [__x__] names, is
    not described. *)
Inductive Attr : Type :=
| AValue (v : PyVal)
| AMethod (c : Class) (name : string).

Definition getattr (self : Obj) (name : string) : result Attr :=
  match property (cls self) name with
  | Some (backing, _) =>
      match dict self !! backing with
      | Some v => Ok (AValue v)
      | None => Raise (PyAttributeError backing)
      end
  | None =>
      if bool_decide (name ∈ interpreter_attributes) then Raise Unmodelled
      else
        match dict self !! name with
        | Some v => Ok (AValue v)
        | None =>
            if bool_decide (name ∈ methods (cls self))
            then Ok (AMethod (cls self) name)
            else if dunder name then Raise Unmodelled
            else Raise (PyAttributeError name)
        end
  end.

(** *** Optimizer *)

(** [Optimizer.__init__(self)] (optimizer.py 19-31), called with the
    positional arguments [args] after [self]: the signature accepts none. *)
Definition Optimizer_init (args : list PyVal) (self : Obj) : result Obj :=
  match args with
  | [] =>
      self ← setattr_name "algorithm" (VStr (class_name (cls self))) self;
      self ← setattr_name "params" (VDict []) self;
      setattr_name "built" (VBool false) self
  | _ :: _ =>
      Raise (PyTypeError "__init__() takes 1 positional argument")
  end.

(** [params.items()]; [build] reaches it only after the [params] setter
    has accepted [params]. *)
Definition items (params : PyVal) : result (list (PyVal * PyVal)) :=
  match params with
  | VDict d => Ok d
  | _ => Raise (PyAttributeError "items")
  end.

(** The body of [for k, v in params.items(): setattr(self, k, v)]. *)
Definition setattr_item (self : Obj) (kv : PyVal * PyVal) : result Obj :=
  setattr kv.1 kv.2 self.

(** The end of [build] (optimizer.py 93-98): [self.built = True], then
    the reads of [self.algorithm] and [self.built] for [logger.debug]. *)
Definition build_tail (self : Obj) : result Obj :=
  self ← setattr_name "built" (VBool true) self;
  _ ← getattr self "algorithm";
  _ ← getattr self "built";
  Ok self.

(** [Optimizer.build(self, params)] (optimizer.py 78-98). *)
Definition build (params : PyVal) (self : Obj) : result Obj :=
  self ←
    (if truthy params then
       self ← setattr_name "params" params self;
       kvs ← items params;
       foldM setattr_item self kvs
     else Ok self);
  build_tail self.

(** *** EP and ES constructors *)

(** [EP.__init__(self, params=None)] (ep.py 30-50). *)
Definition EP_init (params : PyVal) (self : Obj) : result Obj :=
  self ← Optimizer_init [] self;
  self ← setattr_name "bout_size" (VFloat 0.1) self;
  self ← setattr_name "clip_ratio" (VFloat 0.05) self;
  build params self.

(** The instance [EP.__init__] hands to [build]: the attributes of
    [Optimizer.__init__] and the two defaults. *)
Definition EP_defaults : Obj :=
  store "_clip_ratio" (VFloat 0.05)
    (store "_bout_size" (VFloat 0.1)
       (store "_built" (VBool false)
          (store "_params" (VDict [])
             (store "_algorithm" (VStr "EP") (new_obj EP))))).

(** [EP(params)]. *)
Definition EP_new (params : PyVal) : result Obj := EP_init params (new_obj EP).

(** [Optimizer()] followed by [build(params)], the way a plain optimizer
    is brought to its built state. *)
Definition Optimizer_new : result Obj := Optimizer_init [] (new_obj Optimizer).

(** Calling what [self.name] evaluated to, for the one method name [ES]
    looks up. A value of a hyperparameter mapping is plain data and is
    not callable. *)
Definition call_build (a : Attr) (params : PyVal) (self : Obj) : result Obj :=
  match a with
  | AMethod _ "build" => build params self
  | AMethod _ _ => Raise (PyTypeError "unexpected arguments")
  | AValue _ => Raise (PyTypeError "object is not callable")
  end.

(** [ES.__init__(self, algorithm='ES', hyperparams=None)] (es.py 31-48). *)
Definition ES_init (algorithm hyperparams : PyVal) (self : Obj) : result Obj :=
  self ← Optimizer_init [algorithm] self;
  m ← getattr self "_build";
  call_build m hyperparams self.

(** [ES(algorithm, hyperparams)]. *)
Definition ES_new (algorithm hyperparams : PyVal) : result Obj :=
  ES_init algorithm hyperparams (new_obj ES).

(** *** Vocabulary of the statements *)

(** The keys of a mapping. *)
Definition keys (params : PyVal) : list PyVal :=
  match params with
  | VDict d => d.*1
  | _ => []
  end.

(** [self.name] evaluates to the value [v]. *)
Definition reads (self : Obj) (name : string) (v : PyVal) : Prop :=
  getattr self name = Ok (AValue v).

(** The instance went through [Optimizer.__init__]. *)
Definition initialised (self : Obj) : Prop :=
  is_Some (dict self !! "_algorithm").

(** The entry of the instance dictionary in which [self.name] lives. *)
Definition slot (c : Class) (name : string) : string :=
  match property c name with
  | Some (backing, _) => backing
  | None => name
  end.

(** The attributes that back the properties. *)
Definition backing_names : list string :=
  ["_algorithm"; "_built"; "_params"; "_bout_size"; "_clip_ratio"].

(** A number of the closed unit interval, or the float nan, which is
    neither below 0 nor above 1. *)
Definition in_unit_interval (v : PyVal) : bool :=
  match v with
  | VNaN => true
  | _ => match as_number v with
         | Some q => Qle_bool 0 q && Qle_bool q 1
         | None => false
         end
  end.

Definition unit_or_nan (v : PyVal) : Prop :=
  v = VNaN ∨ ∃ q, as_number v = Some q ∧ (0 <= q ∧ q <= 1)%Q.

(** The items [setattr] takes on an instance of class [c], told by the
    documented types of the properties: a string key that is none of
    the interpreter's attributes, and for a property a value of its type
    and range. (Of the interpreter's attributes [__dict__] would take a
    dict; the statements leave this key out.) *)
Definition accepted (c : Class) (k v : PyVal) : bool :=
  match k with
  | VStr name =>
      if String.eqb name "algorithm" then is_str v
      else if String.eqb name "built" then is_bool v
      else if String.eqb name "params" then is_dict v
      else if bool_decide (name ∈ interpreter_attributes) then false
      else match c with
           | EP =>
               if String.eqb name "bout_size" || String.eqb name "clip_ratio"
               then in_unit_interval v
               else true
           | Optimizer | ES => true
           end
  | _ => false
  end.

(** The two hyperparameters of [EP], each with its backing attribute. *)
Definition unit_properties : list (string * string) :=
  [("bout_size", "_bout_size"); ("clip_ratio", "_clip_ratio")].

(** The attribute [backing] of an [EP] instance holds a number of the
    closed unit interval, or nan. *)
Definition unit_attribute (backing : string) (self : Obj) : Prop :=
  cls self = EP ∧ ∃ v, dict self !! backing = Some v ∧ unit_or_nan v.

End Py.

(** ** The store: arrays, agents and lists *)

(** A reference to an object. *)
Abbreviation loc := positive.

(** A two-dimensional numpy array, row by row: a position or a strategy
    has one row per decision variable and one column per dimension. *)
Abbreviation ndarray := (list (list Q)).

(** [int(x)] of a float: truncation towards zero. *)
Definition py_int (x : Q) : Z := Z.quot (Qnum x) (Zpos (Qden x)).

(** An [Agent] instance. Its position is a reference to an array, which
    [+=] and [clip_by_bound] change in place; the bounds are never
    written by the code under study and are kept by value. *)
Record Agent : Type := mkAgent {
  n_variables : nat;
  n_dimensions : nat;
  position : loc;
  fit : Q;
  lb : list Q;
  ub : list Q;
  ts : Z
}.

Definition with_position (l : loc) (a : Agent) : Agent :=
  mkAgent (n_variables a) (n_dimensions a) l (fit a) (lb a) (ub a) (ts a).
Definition with_fit (q : Q) (a : Agent) : Agent :=
  mkAgent (n_variables a) (n_dimensions a) (position a) q (lb a) (ub a) (ts a).
Definition with_ts (t : Z) (a : Agent) : Agent :=
  mkAgent (n_variables a) (n_dimensions a) (position a) (fit a) (lb a) (ub a) t.

(** A [Space]: [agents] refers to a Python list of agents, [best_agent]
    to an agent. *)
Record Space : Type := mkSpace {
  n_agents : Z;
  space_n_variables : nat;
  space_n_dimensions : nat;
  n_iterations : Z;
  agents : loc;
  best_agent : loc;
  space_lb : list Q;
  space_ub : list Q
}.

(** [opytimizer.math.random], of which the sources hold the calls only;
    its functions are parameters, each taking and returning the state of
    the process-wide generator. *)
Class Random : Type := {
  rng : Type;
  (** [r.generate_gaussian_random_number()], as [_mutate_parent] calls
      it: the call names no shape, and one number is drawn. *)
  generate_gaussian_random_number : rng → Q * rng;
  (** [r.generate_gaussian_random_number(size=(n, d))], as
      [_update_strategy] calls it: an array of draws. *)
  generate_gaussian_random_array : nat → nat → rng → ndarray * rng;
  (** [r.generate_integer_random_number(low, high)]. *)
  generate_integer_random_number : Z → Z → rng → Z * rng;
  (** [r.generate_uniform_random_number(low, high, size=n)]. *)
  generate_uniform_random_number : Q → Q → nat → rng → list Q * rng
}.

(** What the code relies on: integers are drawn from [low, high), and an
    array has the shape asked for. *)
Definition integer_in_range `{Random} : Prop :=
  ∀ low high g, (low < high)%Z →
    (low ≤ (generate_integer_random_number low high g).1 < high)%Z.

Definition gaussian_shape `{Random} : Prop :=
  ∀ n d g, length <$> (generate_gaussian_random_array n d g).1 = replicate n d.

(** The rest of the environment: [np.sqrt] on a float, the reading
    [time.time()] returns at the k-th call, and [n * x] for an int [n]
    and a float or int [x] as the interpreter computes it, a float
    product rounded to the nearest double when [x] is a float. *)
Class Environment : Type := {
  np_sqrt : Q → Q;
  time_time : nat → Q;
  py_mul : Z → Q → Q
}.

(** The hyperparameters of a built [EP] instance, as the numbers its
    setters accepted, when they are finite. *)
Record Hyper : Type := mkHyper {
  bout_size : Q;
  clip_ratio : Q
}.

(** The hyperparameters bound in an instance dictionary. *)
Definition hyper_of (self : Py.Obj) : option Hyper :=
  b ← Py.dict self !! "_bout_size";
  c ← Py.dict self !! "_clip_ratio";
  b ← Py.as_number b;
  c ← Py.as_number c;
  Some (mkHyper b c).

(** *** Arrays and lists *)

(** [f] applied to every element of an array. *)
Definition map_array (f : Q → Q) (x : ndarray) : ndarray :=
  (fun row : list Q => f <$> row) <$> x.

(** Arrays of one shape: row by row the same lengths. *)
Definition same_shape (x y : ndarray) : bool :=
  bool_decide (length <$> x = length <$> y).

(** [x * c] for a scalar [c]. *)
Definition scale (c : Q) (x : ndarray) : ndarray :=
  map_array (fun v => v * c)%Q x.

(** [x + y] and [x * y], element by element; arrays of different shapes
    are refused (broadcasting between unequal shapes is not modelled). *)
Definition add (x y : ndarray) : result ndarray :=
  if same_shape x y then Ok (zip_with (zip_with Qplus) x y)
  else Raise PyShapeError.

Definition mul (x y : ndarray) : result ndarray :=
  if same_shape x y then Ok (zip_with (zip_with Qmult) x y)
  else Raise PyShapeError.

(** [np.clip(v, lb, ub)], that is [minimum(maximum(v, lb), ub)]. *)
Definition np_clip (lb ub v : Q) : Q := Qmin (Qmax v lb) ub.

(** [xs[i]] on a Python list: a negative index counts from the end. *)
Definition py_index {A} (xs : list A) (i : Z) : result A :=
  let n := Z.of_nat (length xs) in
  let j := if (i <? 0)%Z then (n + i)%Z else i in
  if (j <? 0)%Z then Raise PyIndexError
  else match xs !! Z.to_nat j with
       | Some x => Ok x
       | None => Raise PyIndexError
       end.

(** [xs[:n]] on a Python list. *)
Definition slice_to {A} (n : Z) (xs : list A) : list A :=
  if (n <? 0)%Z then take (length xs - Z.to_nat (- n)) xs
  else take (Z.to_nat n) xs.

(** [sorted(pairs, key=lambda pair: pair[0], reverse=True)]: a stable
    sort, so pairs of equal key keep their order. *)
Fixpoint insert_desc {A} (x : nat * A) (l : list (nat * A)) : list (nat * A) :=
  match l with
  | [] => [x]
  | y :: l' =>
      if (y.1 <=? x.1)%nat then x :: y :: l'
      else y :: insert_desc x l'
  end.

Definition sorted_desc {A} (l : list (nat * A)) : list (nat * A) :=
  foldr insert_desc [] l.

(** Modelled from the spec: the clipping of [Agent.clip_by_bound] and
    [Space.clip_by_bound] (opytimizer/core/agent.py and
    opytimizer/core/space.py are not among the sources): every component
    of the position of variable j outside [lb_j, ub_j] is pulled to the
    nearest bound. *)
Definition clip_rows (lb ub : list Q) (x : ndarray) : ndarray :=
  imap (fun j row =>
          match lb !! j, ub !! j with
          | Some l, Some u => np_clip l u <$> row
          | _, _ => row
          end) x.

(** An array whose rows have one length, that of the first. *)
Definition rectangular (x : ndarray) : Prop :=
  length <$> x = replicate (length x) (length (hd [] x)).

(** The element of row [j] and column [k] of an array. *)
Definition entry (x : ndarray) (j k : nat) : option Q :=
  row ← x !! j; row !! k.

(** The clipping of a component of variable [j], when [j] has bounds. *)
Definition clip_component (lb ub : list Q) (j : nat) (v : Q) : Q :=
  match lb !! j, ub !! j with
  | Some l, Some u => np_clip l u v
  | _, _ => v
  end.

(** Modelled from the spec: [History] (opytimizer/utils/history.py is not
    among the sources), an append-only sequence of snapshots, each with
    the population (or nothing, when only the best is stored) and the
    best agent, as position and fitness. *)
Record Snapshot : Type := mkSnapshot {
  snapshot_agents : list (ndarray * Q);
  snapshot_best : ndarray * Q
}.

Record History : Type := mkHistory {
  store_best_only : bool;
  snapshots : list Snapshot
}.

Section Evolution.
Context `{Random} `{Environment}.

(** The state of the process: the three kinds of objects, the random
    generator and the number of clock readings so far. *)
Record World : Type := mkWorld {
  arrays : gmap loc ndarray;
  agent_objs : gmap loc Agent;
  list_objs : gmap loc (list loc);
  gen : rng;
  ticks : nat
}.

(** Computations: a state and exception monad over [World]. *)
Definition M (A : Type) : Type := World → result (A * World).

#[export] Instance M_ret : MRet M := fun _ a w => Ok (a, w).

#[export] Instance M_bind : MBind M := fun _ _ k m w =>
  match m w with
  | Ok (a, w') => k a w'
  | Raise e => Raise e
  end.

Definition raise {A} (e : exn) : M A := fun _ => Raise e.

Definition lift {A} (r : result A) : M A := fun w =>
  match r with
  | Ok a => Ok (a, w)
  | Raise e => Raise e
  end.

(** [for i, x in enumerate(xs, i): acc = body(i, acc, x)]. *)
Fixpoint foldS {A B} (body : nat → B → A → M B) (i : nat) (acc : B)
    (xs : list A) : M B :=
  match xs with
  | [] => mret acc
  | x :: xs' => acc' ← body i acc x; foldS body (S i) acc' xs'
  end.

(** [for x in xs: body(x)]. *)
Definition forS {A} (body : A → M unit) (xs : list A) : M unit :=
  foldS (fun _ _ x => body x) 0 tt xs.

(** *** Reading, writing and creating objects *)

Definition get_array (l : loc) : M ndarray := fun w =>
  match arrays w !! l with
  | Some a => Ok (a, w)
  | None => Raise BadRef
  end.

Definition set_array (l : loc) (a : ndarray) : M unit := fun w =>
  Ok (tt, mkWorld (<[l := a]> (arrays w)) (agent_objs w) (list_objs w)
            (gen w) (ticks w)).

Definition new_array (a : ndarray) : M loc := fun w =>
  let l := fresh (dom (arrays w)) in
  Ok (l, mkWorld (<[l := a]> (arrays w)) (agent_objs w) (list_objs w)
           (gen w) (ticks w)).

Definition get_agent (l : loc) : M Agent := fun w =>
  match agent_objs w !! l with
  | Some a => Ok (a, w)
  | None => Raise BadRef
  end.

Definition set_agent (l : loc) (a : Agent) : M unit := fun w =>
  Ok (tt, mkWorld (arrays w) (<[l := a]> (agent_objs w)) (list_objs w)
            (gen w) (ticks w)).

Definition new_agent (a : Agent) : M loc := fun w =>
  let l := fresh (dom (agent_objs w)) in
  Ok (l, mkWorld (arrays w) (<[l := a]> (agent_objs w)) (list_objs w)
           (gen w) (ticks w)).

Definition get_list (l : loc) : M (list loc) := fun w =>
  match list_objs w !! l with
  | Some a => Ok (a, w)
  | None => Raise BadRef
  end.

Definition set_list (l : loc) (a : list loc) : M unit := fun w =>
  Ok (tt, mkWorld (arrays w) (agent_objs w) (<[l := a]> (list_objs w))
            (gen w) (ticks w)).

Definition new_list (a : list loc) : M loc := fun w =>
  let l := fresh (dom (list_objs w)) in
  Ok (l, mkWorld (arrays w) (agent_objs w) (<[l := a]> (list_objs w))
           (gen w) (ticks w)).

(** A call of one of the functions of [Random]. *)
Definition draw {A} (f : rng → A * rng) : M A := fun w =>
  let (a, g) := f (gen w) in
  Ok (a, mkWorld (arrays w) (agent_objs w) (list_objs w) g (ticks w)).

(** [int(time.time())]. *)
Definition int_time : M Z := fun w =>
  Ok (py_int (time_time (ticks w)),
      mkWorld (arrays w) (agent_objs w) (list_objs w) (gen w) (S (ticks w))).

(** The contents of the position of an agent. *)
Definition value_at (w : World) (agent : loc) : option ndarray :=
  a ← agent_objs w !! agent; arrays w !! position a.

(** *** Optimizer.evaluate *)

(** The body of the loop of [evaluate] (optimizer.py 126-134) for the
    agent [agent], with [best] standing for [space.best_agent]. Every
    attribute is read from the store at the point where the code reads
    it; [copy.deepcopy] of the position allocates a new array, and of the
    fitness, a float, is that float. *)
Definition evaluate_agent (function : ndarray → Q) (best agent : loc)
  : M unit :=
  a ← get_agent agent;
  x ← get_array (position a);
  _ ← set_agent agent (with_fit (function x) a);
  a ← get_agent agent;
  b ← get_agent best;
  if Qltb (fit a) (fit b) then
    x ← get_array (position a);
    copy ← new_array x;
    b ← get_agent best;
    _ ← set_agent best (with_position copy b);
    a ← get_agent agent;
    b ← get_agent best;
    _ ← set_agent best (with_fit (fit a) b);
    t ← int_time;
    b ← get_agent best;
    set_agent best (with_ts t b)
  else mret tt.

(** [Optimizer.evaluate(self, space, function)] (optimizer.py 110-134).
    The objective function is a function of the contents of the position
    it is given, and writes nothing. *)
Definition evaluate (space : Space) (function : ndarray → Q) : M unit :=
  population ← get_list (agents space);
  forS (evaluate_agent function (best_agent space)) population.

(** A run as [space.best_agent] sees it, one step per iteration:
    whatever happens between two evaluations (the update of the
    population, its clipping) leaves the best agent [best] alone, in a
    world where the population of the space to evaluate is valid; the
    evaluation follows, and the fitness of the best agent is recorded. *)
Inductive run_trace (function : ndarray → Q) (best : loc)
  : World → list Q → Prop :=
| trace_done (w : World) :
    run_trace function best w []
| trace_iteration (w w1 w2 : World) (space : Space) (population : list loc)
    (b : Agent) (recorded : list Q) :
    agent_objs w1 !! best = agent_objs w !! best →
    best_agent space = best →
    list_objs w1 !! agents space = Some population →
    best ∉ population →
    (∀ agent, agent ∈ population → is_Some (value_at w1 agent)) →
    evaluate space function w1 = Ok (tt, w2) →
    agent_objs w2 !! best = Some b →
    run_trace function best w2 recorded →
    run_trace function best w (fit b :: recorded).

(** *** EP *)

(** Modelled from the spec: [Agent.clip_by_bound], see [clip_rows]; the
    position array is clipped in place. *)
Definition clip_by_bound (agent : loc) : M unit :=
  a ← get_agent agent;
  x ← get_array (position a);
  set_array (position a) (clip_rows (lb a) (ub a) x).

(** [copy.deepcopy(agent)]: a new agent with a new position array. *)
Definition deepcopy (agent : loc) : M loc :=
  a ← get_agent agent;
  x ← get_array (position a);
  copy ← new_array x;
  new_agent (with_position copy a).

(** The position [_mutate_parent] gives the child of an agent [p] at
    [x], for the draw [r1]. *)
Definition mutated (p : Agent) (x strategy : ndarray) (r1 : Q) : ndarray :=
  clip_rows (lb p) (ub p) (zip_with (zip_with Qplus) x (scale r1 strategy)).

(** A world in which the generator has moved on to [g]. *)
Definition with_gen (g : rng) (w : World) : World :=
  mkWorld (arrays w) (agent_objs w) (list_objs w) g (ticks w).

(** [EP._mutate_parent(self, agent, function, strategy)] (ep.py 86-114).
    [a.position += strategy * r1] writes the sum into the array of [a]. *)
Definition _mutate_parent (function : ndarray → Q) (agent : loc)
    (strategy : ndarray) : M loc :=
  a ← deepcopy agent;
  r1 ← draw generate_gaussian_random_number;
  child ← get_agent a;
  x ← get_array (position child);
  x ← lift (add x (scale r1 strategy));
  _ ← set_array (position child) x;
  _ ← clip_by_bound a;
  child ← get_agent a;
  x ← get_array (position child);
  _ ← set_agent a (with_fit (function x) child);
  mret a.

(** The mutation as C7 words it, to compare with [_mutate_parent]: one
    Gaussian draw for each element of the strategy, as
    [r.generate_gaussian_random_number(size=strategy.shape)] makes them. *)
Definition mutate_parent_per_element (function : ndarray → Q) (agent : loc)
    (strategy : ndarray) : M loc :=
  a ← deepcopy agent;
  r1 ← draw (generate_gaussian_random_array (length strategy)
               (length (hd [] strategy)));
  noise ← lift (mul strategy r1);
  child ← get_agent a;
  x ← get_array (position child);
  x ← lift (add x noise);
  _ ← set_array (position child) x;
  _ ← clip_by_bound a;
  child ← get_agent a;
  x ← get_array (position child);
  _ ← set_agent a (with_fit (function x) child);
  mret a.

(** [new_strategy[j] = np.clip(new_strategy[j], lb, ub) * self.clip_ratio]. *)
Definition clip_strategy_row (self : Hyper) (j : nat) (new_strategy : ndarray)
    (bounds : Q * Q) : M ndarray :=
  match new_strategy !! j with
  | Some row =>
      mret (<[j := (fun v => np_clip bounds.1 bounds.2 v * clip_ratio self)%Q
                     <$> row]> new_strategy)
  | None => raise PyIndexError
  end.

(** [EP._update_strategy(self, strategy, lower_bound, upper_bound)]
    (ep.py 116-143). An array without rows has no columns here. *)
Definition _update_strategy (self : Hyper) (strategy : ndarray)
    (lower_bound upper_bound : list Q) : M ndarray :=
  let n_variables := length strategy in
  let n_dimensions := length (hd [] strategy) in
  r1 ← draw (generate_gaussian_random_array n_variables n_dimensions);
  noise ← lift (mul r1 (map_array (fun v => np_sqrt (Qabs v)) strategy));
  new_strategy ← lift (add strategy noise);
  foldS (clip_strategy_row self) 0 new_strategy (zip lower_bound upper_bound).

(** The body of the first loop of [update] (ep.py 163-171). *)
Definition reproduce_one (self : Hyper) (function : ndarray → Q) (i : nat)
    (acc : list loc * list ndarray) (agent : loc)
  : M (list loc * list ndarray) :=
  let '(children, strategy) := acc in
  s ← lift (py_index strategy (Z.of_nat i));
  a ← _mutate_parent function agent s;
  s ← lift (py_index strategy (Z.of_nat i));
  parent ← get_agent agent;
  s ← _update_strategy self s (lb parent) (ub parent);
  mret (children ++ [a], <[i := s]> strategy).

(** The first loop of [update] (ep.py 159-171): the children and the
    updated strategies. *)
Definition reproduce (self : Hyper) (function : ndarray → Q)
    (parents : list loc) (strategy : list ndarray)
  : M (list loc * list ndarray) :=
  foldS (reproduce_one self function) 0 ([], strategy) parents.

(** [for _ in range(n): acc = body(acc)]. *)
Fixpoint repeatS {B} (n : nat) (body : B → M B) (acc : B) : M B :=
  match n with
  | O => mret acc
  | S n' => acc' ← body acc; repeatS n' body acc'
  end.

(** The body of the inner loop of the tournament (ep.py 186-192). *)
Definition bout (pool : list loc) (i : nat) (agent : loc) (wins : list nat)
  : M (list nat) :=
  index ← draw (generate_integer_random_number 0 (Z.of_nat (length pool)));
  a ← get_agent agent;
  opponent ← lift (py_index pool index);
  o ← get_agent opponent;
  if Qltb (fit a) (fit o) then mret (alter S i wins) else mret wins.

(** The tournament (ep.py 179-192): the array of wins. *)
Definition tournament (n_individuals : Z) (pool : list loc) : M (list nat) :=
  foldS (fun i wins agent =>
           repeatS (Z.to_nat n_individuals) (bout pool i agent) wins)
        0 (replicate (length pool) 0%nat) pool.

(** The selection (ep.py 194-198). *)
Definition select (wins : list nat) (pool : list loc) (n_agents : Z)
  : list loc :=
  slice_to n_agents (sorted_desc (zip wins pool)).*2.

(** [EP.update(self, agents, n_agents, function, strategy)] (ep.py
    145-198). [agents] refers to the list of the caller, which
    [agents += children] extends in place; the function returns a new
    list, and the strategies it has written into [strategy]. *)
Definition update (self : Hyper) (agents : loc) (n_agents : Z)
    (function : ndarray → Q) (strategy : list ndarray)
  : M (loc * list ndarray) :=
  parents ← get_list agents;
  '(children, strategy) ← reproduce self function parents strategy;
  current ← get_list agents;
  _ ← set_list agents (current ++ children);
  let n_individuals := py_int (py_mul n_agents (bout_size self)) in
  pool ← get_list agents;
  wins ← tournament n_individuals pool;
  pool ← get_list agents;
  next ← new_list (select wins pool n_agents);
  mret (next, strategy).

(** The fitness of an agent of the store. *)
Definition fitness_at (w : World) (agent : loc) : option Q :=
  fit <$> agent_objs w !! agent.

(** What [update] asks of its arguments: every agent of the population
    is an object of the store with its position array, and the strategy
    holds for it, at its index, a rectangular array of the shape of the
    position with a row for every bounded variable. *)
Definition strategy_ok (w : World) (parents : list loc)
    (strategy : list ndarray) : Prop :=
  ∀ i agent, parents !! i = Some agent →
    ∃ p x s,
      agent_objs w !! agent = Some p
      ∧ arrays w !! position p = Some x
      ∧ strategy !! i = Some s
      ∧ same_shape x s = true
      ∧ rectangular s
      ∧ (length (zip (lb p) (ub p)) ≤ length s)%nat.

(** The tournament as the spec words it. The opponents of one member:
    [n] indices drawn one after the other, each from the whole pool. *)
Fixpoint draw_opponents (n : nat) (size : Z) (g : rng) : list Z * rng :=
  match n with
  | O => ([], g)
  | S n' =>
      let (o, g1) := generate_integer_random_number 0 size g in
      let (os, g2) := draw_opponents n' size g1 in
      (o :: os, g2)
  end.

(** Whether a member of fitness [q] wins against the opponent at index
    [o] of the pool: its fitness is strictly lower. *)
Definition beats (fits : list Q) (q : Q) (o : Z) : bool :=
  match fits !! Z.to_nat o with
  | Some q' => Qltb q q'
  | None => false
  end.

(** The wins of a member of fitness [q] against its opponents. *)
Definition count_wins (fits : list Q) (q : Q) (opponents : list Z) : nat :=
  length (List.filter (beats fits q) opponents).

(** The wins of the members [members], in order, against the pool of
    fitnesses [fits]. *)
Fixpoint tournament_wins (n : nat) (fits members : list Q) (g : rng)
  : list nat * rng :=
  match members with
  | [] => ([], g)
  | q :: rest =>
      let (os, g1) := draw_opponents n (Z.of_nat (length fits)) g in
      let (ws, g2) := tournament_wins n fits rest g1 in
      (count_wins fits q os :: ws, g2)
  end.

(** *** EP.run *)

(** [strategy[i][j] = 0.05 * r.generate_uniform_random_number(0, ub - lb,
    size=space.agents[i].n_dimensions)] (ep.py 222-223); a row of one
    element is broadcast. *)
Definition init_strategy_row (space : Space) (i : nat) (j : nat)
    (strategy : list ndarray) (bounds : Q * Q) : M (list ndarray) :=
  population ← get_list (agents space);
  agent ← lift (py_index population (Z.of_nat i));
  a ← get_agent agent;
  u ← draw (generate_uniform_random_number 0 (bounds.2 - bounds.1)
              (n_dimensions a));
  let row := (fun v => 0.05 * v)%Q <$> u in
  s ← lift (py_index strategy (Z.of_nat i));
  match s !! j with
  | None => raise PyIndexError
  | Some _ =>
      if bool_decide (length row = space_n_dimensions space)
      then mret (<[i := <[j := row]> s]> strategy)
      else match row with
           | [v] => mret (<[i := <[j := replicate (space_n_dimensions space) v]> s]>
                            strategy)
           | _ => raise PyShapeError
           end
  end.

(** The initialisation of the strategies (ep.py 214-223). *)
Definition init_strategy (space : Space) : M (list ndarray) :=
  let zeros :=
    replicate (Z.to_nat (n_agents space))
      (replicate (space_n_variables space)
         (replicate (space_n_dimensions space) 0%Q)) in
  foldS (fun _ strategy i =>
           foldS (init_strategy_row space i) 0 strategy
             (zip (space_lb space) (space_ub space)))
        0 zeros (seq 0 (Z.to_nat (n_agents space))).

(** Calling what [self._evaluate] or [self._update] evaluated to.
    Neither name is a method of [EP] or of [Optimizer], so the lookup can
    only return a value bound in the instance dictionary, and the values
    of a hyperparameter mapping are plain data. *)
Definition call {A} (f : Py.Attr) : M A :=
  match f with
  | Py.AValue _ => raise (PyTypeError "object is not callable")
  | Py.AMethod _ _ => raise (PyTypeError "unexpected arguments")
  end.

(** Modelled from the spec: [Space.clip_by_bound], see [clip_rows]:
    every agent of the space is clipped to the bounds of the space. *)
Definition space_clip_by_bound (space : Space) : M unit :=
  population ← get_list (agents space);
  forS (fun agent =>
          a ← get_agent agent;
          x ← get_array (position a);
          set_array (position a) (clip_rows (space_lb space) (space_ub space) x))
       population.

(** What a snapshot keeps of an agent. *)
Definition snapshot_of (agent : loc) : M (ndarray * Q) :=
  a ← get_agent agent;
  x ← get_array (position a);
  mret (x, fit a).

(** Modelled from the spec: [History.dump(agents=..., best_agent=...)],
    which appends one snapshot. *)
Definition dump (history : History) (space : Space) : M History :=
  population ← get_list (agents space);
  members ← foldS (fun _ acc agent => m ← snapshot_of agent; mret (acc ++ [m]))
              0 [] population;
  best ← snapshot_of (best_agent space);
  mret (mkHistory (store_best_only history)
          (snapshots history
             ++ [mkSnapshot (if store_best_only history then [] else members)
                   best])).

Definition with_agents (l : loc) (space : Space) : Space :=
  mkSpace (n_agents space) (space_n_variables space) (space_n_dimensions space)
    (n_iterations space) l (best_agent space) (space_lb space) (space_ub space).

(** The body of the loop of [run] (ep.py 234-254). *)
Definition iteration (self : Py.Obj) (function : ndarray → Q) (t : nat)
    (acc : Space * list ndarray * History) (_ : nat)
  : M (Space * list ndarray * History) :=
  let '(space, strategy, history) := acc in
  _update ← lift (Py.getattr self "_update");
  next ← call _update;
  let space := with_agents next space in
  _ ← space_clip_by_bound space;
  _evaluate ← lift (Py.getattr self "_evaluate");
  _ ← call (A := unit) _evaluate;
  history ← dump history space;
  mret (space, strategy, history).

(** [EP.run(self, space, function, store_best_only, pre_evaluate)]
    (ep.py 200-256). *)
Definition run (self : Py.Obj) (space : Space) (function : ndarray → Q)
    (store_best_only : bool) : M History :=
  strategy ← init_strategy space;
  _evaluate ← lift (Py.getattr self "_evaluate");
  _ ← call (A := unit) _evaluate;
  let history := mkHistory store_best_only [] in
  '(_, _, history) ← foldS (iteration self function) 0
                       (space, strategy, history)
                       (seq 0 (Z.to_nat (n_iterations space)));
  mret history.

End Evolution.

(** ** Further vocabulary: what [build] writes *)

Module Assign.
Import Py.

(** The entries of the instance dictionary to which [setattr] binds the
    items of a mapping, in order. *)
Definition assignments (c : Class) (d : list (PyVal * PyVal))
  : list (string * PyVal) :=
  omap (fun kv => match kv.1 with
                  | VStr name => Some (slot c name, kv.2)
                  | _ => None
                  end) d.

(** The entries [build(params)] writes on an instance of class [c]. *)
Definition build_assignments (c : Class) (params : PyVal)
  : list (string * PyVal) :=
  (if truthy params
   then match params with
        | VDict d => ("_params", params) :: assignments c d
        | _ => []
        end
   else [])
  ++ [("_built", VBool true)].

(** A dictionary after a sequence of bindings. *)
Definition assign (m : gmap string PyVal) (l : list (string * PyVal))
  : gmap string PyVal :=
  foldl (fun m kv => <[kv.1 := kv.2]> m) m l.

End Assign.

(** ** Further vocabulary: strategies *)

(** The strategy after the clipping loop of [_update_strategy]: a row
    with bounds is clipped to them and scaled by [clip_ratio], a row
    without is left as it is. *)
Definition clip_strategy (self : Hyper) (bounds : list (Q * Q)) (x : ndarray)
  : ndarray :=
  imap (fun j row =>
          match bounds !! j with
          | Some b => (fun v => np_clip b.1 b.2 v * clip_ratio self)%Q <$> row
          | None => row
          end) x.

(** The strategy [_update_strategy] computes before the clipping, from
    the draw [r] for an element [v]. *)
Definition perturbed `{Environment} (v r : Q) : Q :=
  (v + r * np_sqrt (Qabs v))%Q.

(** ** Further vocabulary: populations of one shape *)

Section Uniform.
Context `{Random}.


(** Every strategy has [n] rows of [d] columns. *)
Definition uniform_strategy (n d : nat) (strategy : list ndarray) : Prop :=
  Forall (fun s : ndarray => length <$> s = replicate n d) strategy.

(** What relates a parent to the child [update] makes of it: a new agent
    with a new position array of the shape of the parent's, the bounds
    of the parent, and the fitness of its own position. *)
Definition child_of (function : ndarray → Q) (w w' : World)
    (parent child : loc) : Prop :=
  (child ∉ dom (agent_objs w))
  ∧ ∃ p x c x',
      agent_objs w !! parent = Some p
      ∧ arrays w !! position p = Some x
      ∧ agent_objs w' !! child = Some c
      ∧ arrays w' !! position c = Some x'
      ∧ (position c ∉ dom (arrays w))
      ∧ lb c = lb p ∧ ub c = ub p
      ∧ length <$> x' = length <$> x
      ∧ fit c = function x'.

(** What [run] relies on from the uniform generator: it returns as many
    numbers as asked for, between its bounds. *)
Definition uniform_size : Prop :=
  ∀ low high n g, length (generate_uniform_random_number low high n g).1 = n.

Definition uniform_in_range : Prop :=
  ∀ low high n g, (low <= high)%Q →
    Forall (fun v => (low <= v ∧ v <= high)%Q)
      (generate_uniform_random_number low high n g).1.

(** What the first loop of [run] asks of the space: at least [n_agents]
    agents, each an object of the store of as many dimensions as the
    space, or of one, and no more bounds than variables. *)
Definition space_ok (w : World) (space : Space) : Prop :=
  (0 ≤ n_agents space)%Z
  ∧ (length (zip (space_lb space) (space_ub space))
     ≤ space_n_variables space)%nat
  ∧ ∃ population,
      list_objs w !! agents space = Some population
      ∧ (Z.to_nat (n_agents space) ≤ length population)%nat
      ∧ ∀ i agent, population !! i = Some agent →
          ∃ a, agent_objs w !! agent = Some a
               ∧ (n_dimensions a = space_n_dimensions space
                  ∨ n_dimensions a = 1%nat).

(** Every element of every strategy satisfies [P]. *)
Definition all_entries (P : Q → Prop) (strategy : list ndarray) : Prop :=
  Forall (Forall (Forall P)) strategy.

End Uniform.

(** ** A small instance

    A generator that counts, a clock, the sphere function, and a world
    with two agents of two variables and one dimension, on which the
    statements below are exercised. *)

Module Example.

Definition counter : Random := {|
  rng := Z;
  generate_gaussian_random_number := fun g => (inject_Z g, (g + 1)%Z);
  generate_gaussian_random_array := fun n d g =>
    ((fun i => (fun j => inject_Z (g + Z.of_nat (i * d + j))) <$> seq 0 d)
       <$> seq 0 n,
     (g + Z.of_nat (n * d))%Z);
  generate_integer_random_number := fun low high g =>
    ((low + g `mod` (high - low))%Z, (g + 1)%Z);
  generate_uniform_random_number := fun low high n g =>
    (replicate n low, g)
|}.

(** Stand-ins for the arithmetic of the interpreter: the identity for
    the square root, and the exact product, which is the float product
    where that product is a double, as 2 × 0.5 is. *)
Definition environment : Environment := {|
  np_sqrt := fun q => q;
  time_time := fun k => inject_Z (1000 + Z.of_nat k);
  py_mul := fun n x => (inject_Z n * x)%Q
|}.

(** The sphere function: the sum of the squares. *)
Definition sphere (x : ndarray) : Q :=
  foldr Qplus 0%Q ((fun v => v * v)%Q <$> concat x).

Definition agent_at (p : loc) (f : Q) : Agent :=
  mkAgent 2 1 p f [-10%Q; -10%Q] [10%Q; 10%Q] 0.

(** Agents 1 and 2 at (3, 4) and (1, 2); the best agent 3 at (0, 0) with
    the fitness 100 on record; the list 1 holds the population. *)
Definition world : @World counter :=
  @mkWorld counter
    (<[1%positive := [[3%Q]; [4%Q]]]>
       (<[2%positive := [[1%Q]; [2%Q]]]>
          (<[3%positive := [[0%Q]; [0%Q]]]> ∅)))
    (<[1%positive := agent_at 1 25%Q]>
       (<[2%positive := agent_at 2 5%Q]>
          (<[3%positive := agent_at 3 100%Q]> ∅)))
    (<[1%positive := [1%positive; 2%positive]]> ∅)
    1%Z 0.

Definition space : Space :=
  mkSpace 2 2 1 10 1 3 [-10%Q; -10%Q] [10%Q; 10%Q].

Definition strategy : list ndarray :=
  [ [[1%Q]; [1%Q]]; [[2%Q]; [2%Q]] ].

Definition hyper : Hyper := mkHyper 0.5 0.05.

End Example.

(** * Properties of the constructors and setters *)

Section FoldM.
Context {A B : Type} (body : B → A → result B).

(** An invariant of the loop body holds when the loop ends normally. *)
Lemma foldM_invariant (P : B → Prop) (xs : list A) :
  ∀ acc r,
    P acc →
    (∀ x b b', x ∈ xs → P b → body b x = Ok b' → P b') →
    foldM body acc xs = Ok r → P r.
Proof.
  induction xs as [|x xs IH]; intros acc r Hacc Hstep Hrun; simpl in Hrun.
  - by inversion Hrun; subst.
  - destruct (body acc x) as [acc'|e] eqn:Hb; [|discriminate].
    apply (IH acc'); [| |done].
    + apply (Hstep x acc); [left|done|done].
    + intros y b b' Hy. apply Hstep. by right.
Qed.

(** The loop ends normally when the body does at every element. *)
Lemma foldM_total (P : B → Prop) (xs : list A) :
  ∀ acc,
    P acc →
    (∀ x b, x ∈ xs → P b → ∃ b', body b x = Ok b' ∧ P b') →
    ∃ r, foldM body acc xs = Ok r ∧ P r.
Proof.
  induction xs as [|x xs IH]; intros acc Hacc Hstep; simpl.
  - by exists acc.
  - destruct (Hstep x acc) as (acc' & -> & Hacc'); [left|done|].
    apply IH; [done|]. intros y b Hy. apply Hstep. by right.
Qed.
End FoldM.

Module PyFacts.
Import Py.

Lemma Qltb_lt (x y : Q) : Qltb x y = true ↔ (x < y)%Q.
Proof.
  unfold Qltb. rewrite negb_true_iff. split.
  - intros H. apply Qnot_le_lt. intros Hle.
    apply Qle_bool_iff in Hle. congruence.
  - intros H. destruct (Qle_bool y x) eqn:E; [|done].
    apply Qle_bool_iff in E. by apply Qlt_not_le in H.
Qed.

Lemma Qltb_ge (x y : Q) : Qltb x y = false ↔ (y <= x)%Q.
Proof.
  unfold Qltb. rewrite negb_false_iff. apply Qle_bool_iff.
Qed.

Lemma out_of_unit (q : Q) :
  Qltb q 0 || Qltb 1 q = true ↔ (q < 0 ∨ 1 < q)%Q.
Proof. rewrite orb_true_iff, !Qltb_lt. tauto. Qed.

Lemma in_unit (q : Q) :
  Qltb q 0 || Qltb 1 q = false ↔ (0 <= q ∧ q <= 1)%Q.
Proof. rewrite orb_false_iff, !Qltb_ge. tauto. Qed.

(** The two comparisons of a range check, on a finite number. *)
Lemma compare_finite (v : PyVal) (q : Q) :
  as_number v = Some q →
  is_number v = true
  ∧ lt_const v 0 || gt_const v 1 = Qltb q 0 || Qltb 1 q.
Proof.
  destruct v; try discriminate; simpl; intros [= <-]; done.
Qed.

(** A value that is a number is finite, nan or an infinity. *)
Lemma number_cases (v : PyVal) :
  is_number v = true →
  (∃ q, as_number v = Some q) ∨ v = VNaN ∨ ∃ negative, v = VInf negative.
Proof.
  destruct v; try discriminate; intros _; eauto.
Qed.

Lemma not_number (v : PyVal) : is_number v = false → as_number v = None.
Proof. by destruct v. Qed.

End PyFacts.

Module PyLemmas.
Import Py PyFacts.

(** Case analysis on the attribute name an [if name == ...] chain tests. *)
Ltac case_name :=
  repeat match goal with
    | |- context [String.eqb ?a ?b] =>
        destruct (String.eqb_spec a b) as [->|?]; simpl
    end.

Lemma setattr_name_store (name : string) (v : PyVal) (self self' : Obj) :
  setattr_name name v self = Ok self' →
  self' = store (slot (cls self) name) v self.
Proof.
  unfold setattr_name, slot, property, ep_property, optimizer_property.
  unfold set_algorithm, set_built, set_params, set_bout_size, set_clip_ratio.
  destruct (cls self); case_name;
    repeat case_match; intros; simplify_eq; done.
Qed.

Lemma in_unit_interval_spec (v : PyVal) :
  in_unit_interval v = true ↔ unit_or_nan v.
Proof.
  unfold in_unit_interval, unit_or_nan.
  destruct v as [|b|z|q|s|l|d| |negative]; simpl;
    try (split; [done|]; by intros [?|(? & ? & ?)]);
    try (by split; [left|]);
    rewrite andb_true_iff, !Qle_bool_iff;
    (split; [intros ?; right; by eexists
            |intros [?|(? & [= <-] & ?)]; done]).
Qed.

(** The range check of the two setters accepts exactly these values. *)
Lemma unit_interval_setter (v : PyVal) :
  in_unit_interval v
  = is_number v && negb (lt_const v 0 || gt_const v 1).
Proof.
  unfold in_unit_interval, lt_const, gt_const, Qltb.
  destruct v as [|b|z|q|s|l|d| |[|]]; simpl; try done;
    by rewrite negb_orb, !negb_involutive.
Qed.

Lemma interpreter_attribute_eqb (name : string) :
  bool_decide (name ∈ interpreter_attributes)
  = String.eqb name "__class__" || String.eqb name "__weakref__"
    || String.eqb name "__dict__".
Proof.
  unfold interpreter_attributes. case_name; try done.
  apply bool_decide_eq_false_2. intros Hin.
  repeat (apply elem_of_cons in Hin as [->|Hin]); try done.
  by apply elem_of_nil in Hin.
Qed.

Lemma setattr_name_accepted (name : string) (v : PyVal) (self : Obj) :
  (∃ self', setattr_name name v self = Ok self') ↔
  accepted (cls self) (VStr name) v = true.
Proof.
  unfold setattr_name, accepted, property, ep_property, optimizer_property.
  unfold set_algorithm, set_built, set_params, set_bout_size, set_clip_ratio.
  rewrite interpreter_attribute_eqb, unit_interval_setter.
  destruct (cls self); case_name;
    try (destruct (is_number v); simpl;
         [destruct (lt_const v 0 || gt_const v 1)|]);
    try (destruct (is_str v)); try (destruct (is_bool v));
    try (destruct (is_dict v)); simpl;
    split; intros Hx; try done; try (by eexists); try (by destruct Hx).
Qed.

(** An assignment that returns is none to an interpreter attribute. *)
Lemma setattr_name_ordinary (name : string) (v : PyVal) (self self' : Obj) :
  setattr_name name v self = Ok self' → name ∉ interpreter_attributes.
Proof.
  unfold setattr_name, interpreter_attributes. intros Hset Hin.
  repeat (apply elem_of_cons in Hin as [->|Hin]);
    [..|by apply elem_of_nil in Hin];
    destruct (cls self); simpl in Hset; by destruct (is_dict v).
Qed.

Lemma getattr_slot (self : Obj) (name : string) (v : PyVal) :
  name ∉ interpreter_attributes →
  dict self !! slot (cls self) name = Some v → reads self name v.
Proof.
  unfold reads, getattr, slot. intros Hname.
  destruct (property (cls self) name) as [[backing setter]|]; intros ->;
    [done|]. by rewrite bool_decide_eq_false_2.
Qed.

Lemma slot_backing (c : Class) (name : string) :
  slot c name = name ∨ slot c name ∈ backing_names.
Proof.
  unfold slot, property, ep_property, optimizer_property, backing_names.
  destruct c; case_name; auto; right; set_solver.
Qed.

Lemma slot_inj (c : Class) (k1 k2 : string) :
  k1 ∉ backing_names → k2 ∉ backing_names →
  slot c k1 = slot c k2 → k1 = k2.
Proof.
  unfold slot, property, ep_property, optimizer_property, backing_names.
  intros H1 H2.
  destruct c; case_name; intros E; try done; subst; set_solver.
Qed.

Lemma slot_built (c : Class) (k : string) :
  k ∉ backing_names → k ≠ "built" → slot c k ≠ "_built".
Proof.
  unfold slot, property, ep_property, optimizer_property, backing_names.
  intros H1 H2.
  destruct c; case_name; intros E; try done; subst; set_solver.
Qed.

(** What the loop of [build] leaves in the instance dictionary. *)
Lemma foldM_setattr_spec (d : list (PyVal * PyVal)) :
  ∀ self self',
    foldM setattr_item self d = Ok self' →
    cls self' = cls self
    ∧ (∀ s, (∀ k, VStr k ∈ d.*1 → slot (cls self) k ≠ s) →
            dict self' !! s = dict self !! s)
    ∧ (NoDup d.*1 →
       (∀ b, b ∈ backing_names → VStr b ∉ d.*1) →
       ∀ k v, (VStr k, v) ∈ d → dict self' !! slot (cls self) k = Some v).
Proof.
  induction d as [|[k0 v0] d IH]; intros self self' Hrun; simpl in Hrun.
  - inversion Hrun; subst. split_and!; [done|done|]. intros _ _ k v Hin.
    by apply elem_of_nil in Hin.
  - destruct (setattr_item self (k0, v0)) as [self1|] eqn:H0; [|done].
    unfold setattr_item, setattr in H0; simpl in H0.
    destruct k0 as [| | | |name0| | | |]; try done.
    apply setattr_name_store in H0.
    destruct (IH _ _ Hrun) as (Hcls & Hframe & Hitems).
    assert (cls self1 = cls self) as Hc1 by (by subst self1).
    rewrite Hc1 in *.
    split_and!.
    + done.
    + intros s Hs. rewrite Hframe.
      * subst self1; simpl. rewrite lookup_insert_ne; [done|].
        apply Hs. simpl. left.
      * intros k Hk. apply Hs. simpl. by right.
    + intros Hnd Hback k v Hin. simpl in Hnd.
      apply NoDup_cons in Hnd as [Hfresh Hnd].
      apply elem_of_cons in Hin as [Heq|Hin].
      * inversion Heq; subst k v. rewrite Hframe.
        { subst self1; simpl. by rewrite lookup_insert_eq. }
        intros k Hk Hslot. apply slot_inj in Hslot.
        -- by subst k.
        -- intros Hb. apply (Hback k Hb). simpl. by right.
        -- intros Hb. apply (Hback name0 Hb). simpl. left.
      * apply Hitems; [done| |done].
        intros b Hb Hin'. apply (Hback b Hb). simpl. by right.
Qed.

(** The loop of [build] ends normally exactly on accepted items. *)
Lemma foldM_setattr_accepted (d : list (PyVal * PyVal)) :
  ∀ self,
    (∃ self', foldM setattr_item self d = Ok self') ↔
    forallb (λ kv, accepted (cls self) kv.1 kv.2) d = true.
Proof.
  induction d as [|[k0 v0] d IH]; intros self; simpl.
  - split; [done|]. by exists self.
  - rewrite andb_true_iff.
    destruct (setattr_item self (k0, v0)) as [self1|e] eqn:H0.
    + unfold setattr_item, setattr in H0; simpl in H0.
      destruct k0 as [| | | |name0| | | |]; try done.
      assert (accepted (cls self) (VStr name0) v0 = true) as Hacc
        by (apply setattr_name_accepted; by exists self1).
      apply setattr_name_store in H0.
      assert (cls self1 = cls self) as Hc1 by (by subst self1).
      rewrite IH, Hc1. tauto.
    + split; [by intros [? ?]|]. intros [Hacc _].
      unfold setattr_item, setattr in H0; simpl in H0.
      destruct k0 as [| | | |name0| | | |]; try done.
      apply setattr_name_accepted in Hacc as [self1 Hacc]. congruence.
Qed.

Lemma accepted_ordinary (c : Class) (name : string) (v : PyVal) :
  accepted c (VStr name) v = true → name ∉ interpreter_attributes.
Proof.
  intros Hacc Hin. revert Hacc. unfold interpreter_attributes in Hin.
  repeat (apply elem_of_cons in Hin as [->|Hin]);
    [..|by apply elem_of_nil in Hin]; by destruct c.
Qed.

(** The keys of a loop of [build] that ends normally are ordinary. *)
Lemma foldM_setattr_ordinary (d : list (PyVal * PyVal)) (self self' : Obj)
    (k : string) (v : PyVal) :
  foldM setattr_item self d = Ok self' →
  (VStr k, v) ∈ d → k ∉ interpreter_attributes.
Proof.
  intros Hrun Hin.
  assert (forallb (λ kv, accepted (cls self) kv.1 kv.2) d = true) as Hall
    by (apply foldM_setattr_accepted; by exists self').
  rewrite forallb_forall in Hall.
  apply (accepted_ordinary (cls self) k v).
  apply (Hall (VStr k, v)). by apply list_elem_of_In.
Qed.

(** The loop of [build] binds attributes and removes none. *)
Lemma foldM_setattr_dom (d : list (PyVal * PyVal)) (s : string) :
  ∀ self self',
    foldM setattr_item self d = Ok self' →
    is_Some (dict self !! s) → is_Some (dict self' !! s).
Proof.
  intros self self' Hrun Hs.
  apply (foldM_invariant setattr_item (λ o, is_Some (dict o !! s)) d self self');
    [done| |done].
  intros [k v] b b' _ Hb Hstep. unfold setattr_item, setattr in Hstep; simpl in Hstep.
  destruct k; try done. apply setattr_name_store in Hstep. subst b'. simpl.
  rewrite lookup_insert. case_decide; [by eexists|done].
Qed.

Lemma setattr_params (v : PyVal) (self : Obj) :
  setattr_name "params" v self = set_params v self.
Proof. unfold setattr_name. by destruct (cls self). Qed.

Lemma setattr_built (v : PyVal) (self : Obj) :
  setattr_name "built" v self = set_built v self.
Proof. unfold setattr_name. by destruct (cls self). Qed.

Lemma getattr_algorithm (self : Obj) (v : PyVal) :
  dict self !! "_algorithm" = Some v → getattr self "algorithm" = Ok (AValue v).
Proof. intros H. unfold getattr. destruct (cls self); simpl; by rewrite H. Qed.

Lemma getattr_built (self : Obj) (v : PyVal) :
  dict self !! "_built" = Some v → getattr self "built" = Ok (AValue v).
Proof. intros H. unfold getattr. destruct (cls self); simpl; by rewrite H. Qed.

Lemma build_tail_ok (self : Obj) :
  initialised self → build_tail self = Ok (store "_built" (VBool true) self).
Proof.
  intros [a Ha]. unfold build_tail. rewrite setattr_built. simpl.
  unfold mbind, result_bind.
  rewrite (getattr_algorithm _ a), (getattr_built _ (VBool true)); [done| |].
  - simpl. by rewrite lookup_insert_eq.
  - simpl. by rewrite lookup_insert_ne.
Qed.

Lemma build_falsy (params : PyVal) (self : Obj) :
  truthy params = false → build params self = build_tail self.
Proof. intros H. unfold build. by rewrite H. Qed.

Lemma build_truthy_dict (d : list (PyVal * PyVal)) (self : Obj) :
  d ≠ [] →
  build (VDict d) self =
  (self1 ← foldM setattr_item (store "_params" (VDict d) self) d; build_tail self1).
Proof.
  intros Hd. unfold build. rewrite setattr_params.
  destruct d; [done|]. reflexivity.
Qed.

Lemma build_tail_inv (self self' : Obj) :
  build_tail self = Ok self' → self' = store "_built" (VBool true) self.
Proof.
  unfold build_tail. rewrite setattr_built. simpl. unfold mbind, result_bind.
  repeat case_match; congruence.
Qed.

Lemma EP_new_build (params : PyVal) :
  EP_new params = build params EP_defaults.
Proof. reflexivity. Qed.

Lemma EP_defaults_initialised : initialised EP_defaults.
Proof. exists (VStr "EP"). reflexivity. Qed.

Lemma setattr_unit_attribute (prop backing name : string) (v : PyVal)
    (self self' : Obj) :
  (prop, backing) ∈ unit_properties →
  name ≠ backing →
  unit_attribute backing self →
  setattr_name name v self = Ok self' →
  unit_attribute backing self'.
Proof.
  intros Hpb Hname [Hcls (v0 & Hv0 & Hr0)] Hset.
  assert (accepted (cls self) (VStr name) v = true) as Hacc
    by (apply setattr_name_accepted; by exists self').
  apply setattr_name_store in Hset. subst self'.
  split; [done|]. simpl. rewrite Hcls in *.
  destruct (decide (slot EP name = backing)) as [Hs|Hs].
  - rewrite Hs, lookup_insert_eq.
    assert (name = prop) as ->.
    { revert Hs. unfold unit_properties in Hpb.
      repeat (apply elem_of_cons in Hpb as [Hpb|Hpb]; [simplify_eq|]);
        [..|by apply elem_of_nil in Hpb];
        unfold slot, property, ep_property, optimizer_property;
        case_name; intros; by simplify_eq. }
    assert (in_unit_interval v = true) as Hin.
    { revert Hacc. unfold unit_properties in Hpb.
      repeat (apply elem_of_cons in Hpb as [Hpb|Hpb]; [by simplify_eq|]).
      by apply elem_of_nil in Hpb. }
    apply in_unit_interval_spec in Hin. by exists v.
  - rewrite lookup_insert_ne by done. by exists v0.
Qed.

(** [build] keeps a hyperparameter in range when the mapping does not
    name its backing attribute. *)
Lemma build_unit_attribute (prop backing : string) (params : PyVal)
    (self self' : Obj) :
  (prop, backing) ∈ unit_properties →
  VStr backing ∉ keys params →
  unit_attribute backing self →
  build params self = Ok self' →
  unit_attribute backing self'.
Proof.
  intros Hpb Hkey Hself Hbuild.
  assert (backing ≠ "_params" ∧ backing ≠ "_built") as [Hp Hb].
  { unfold unit_properties in Hpb.
    repeat (apply elem_of_cons in Hpb as [Hpb|Hpb]; [by simplify_eq|]).
    by apply elem_of_nil in Hpb. }
  assert (∀ o, unit_attribute backing o →
               unit_attribute backing (store "_built" (VBool true) o)) as Htail.
  { intros o [Hc (v & Hv & Hr)]. split; [done|].
    exists v. simpl. by rewrite lookup_insert_ne. }
  unfold build in Hbuild. destruct (truthy params) eqn:Ht.
  - rewrite setattr_params in Hbuild. unfold set_params in Hbuild.
    destruct params as [| | | | | |d| |]; try done. simpl in Hbuild, Hkey.
    unfold mbind, result_bind in Hbuild.
    destruct (foldM _ _ _) as [self1|] eqn:Hloop; [|done].
    apply build_tail_inv in Hbuild. subst self'. apply Htail.
    apply (foldM_invariant setattr_item (unit_attribute backing) d
             (store "_params" (VDict d) self) self1); [| |done].
    + destruct Hself as [Hc (v & Hv & Hr)]. split; [done|].
      exists v. simpl. by rewrite lookup_insert_ne.
    + intros [k w] b b' Hin Hb0 Hstep.
      unfold setattr_item, setattr in Hstep. simpl in Hstep.
      destruct k as [| | | |name| | | |]; try done.
      apply (setattr_unit_attribute prop backing name w b); try done.
      intros ->. apply Hkey. apply list_elem_of_fmap.
      by exists (VStr backing, w).
  - simpl in Hbuild. apply build_tail_inv in Hbuild. subst self'.
    by apply Htail.
Qed.

Lemma EP_defaults_unit_attribute (prop backing : string) :
  (prop, backing) ∈ unit_properties → unit_attribute backing EP_defaults.
Proof.
  intros Hpb. unfold unit_properties in Hpb. split; [done|].
  repeat (apply elem_of_cons in Hpb as [Hpb|Hpb]; [simplify_eq|]);
    [..|by apply elem_of_nil in Hpb].
  - exists (VFloat 0.1). split; [done|]. right. by exists 0.1%Q.
  - exists (VFloat 0.05). split; [done|]. right. by exists 0.05%Q.
Qed.

(** The hyperparameters of every [EP] instance constructed from a
    mapping that does not name their backing attributes and gives no
    nan: numbers of the closed unit interval. *)
Lemma EP_new_hyper (params : PyVal) (self : Obj) :
  VStr "_bout_size" ∉ keys params →
  VStr "_clip_ratio" ∉ keys params →
  EP_new params = Ok self →
  dict self !! "_bout_size" ≠ Some VNaN →
  dict self !! "_clip_ratio" ≠ Some VNaN →
  ∃ h, hyper_of self = Some h
       ∧ (0 <= bout_size h ∧ bout_size h <= 1)%Q
       ∧ (0 <= clip_ratio h ∧ clip_ratio h <= 1)%Q.
Proof.
  intros Hb Hc Hnew Hnb Hnc. rewrite EP_new_build in Hnew.
  destruct (build_unit_attribute "bout_size" "_bout_size" params EP_defaults self)
    as [_ (vb & Hvb & [->|(qb & Hqb & Hrb)])]; try done.
  { unfold unit_properties. apply elem_of_cons. by left. }
  { apply (EP_defaults_unit_attribute "bout_size").
    unfold unit_properties. apply elem_of_cons. by left. }
  destruct (build_unit_attribute "clip_ratio" "_clip_ratio" params EP_defaults self)
    as [_ (vc & Hvc & [->|(qc & Hqc & Hrc)])]; try done.
  { unfold unit_properties. apply elem_of_cons. right. apply elem_of_cons. by left. }
  { apply (EP_defaults_unit_attribute "clip_ratio").
    unfold unit_properties. apply elem_of_cons. right. apply elem_of_cons. by left. }
  exists (mkHyper qb qc). unfold hyper_of. rewrite Hvb, Hvc. simpl.
  rewrite Hqb, Hqc. by simpl.
Qed.

(** An instance built without the key [name], which is neither a
    property, nor the backing attribute of one, nor a method, has no
    attribute [name]. *)
Lemma EP_new_no_attribute (name : string) (params : PyVal) (self : Obj) :
  property EP name = None →
  name ∉ backing_names →
  name ∉ methods EP →
  dunder name = false →
  VStr name ∉ keys params →
  EP_new params = Ok self →
  getattr self name = Raise (PyAttributeError name).
Proof.
  intros Hprop Hback Hmeth Hdunder Hkey Hnew. rewrite EP_new_build in Hnew.
  assert (cls self = EP ∧ dict self !! name = None) as [Hcls Hnone].
  { assert (∀ o, cls o = EP ∧ dict o !! name = None →
              cls (store "_built" (VBool true) o) = EP
              ∧ dict (store "_built" (VBool true) o) !! name = None) as Htail.
    { intros o [Hc Hn]. split; [done|]. simpl. rewrite lookup_insert_ne; [done|].
      intros <-. apply Hback. apply (bool_decide_unpack _). by vm_compute. }
    assert (dict EP_defaults !! name = None) as Hdef.
    { unfold EP_defaults. simpl.
      rewrite !lookup_insert_ne; [done|..]; intros <-; apply Hback;
        apply (bool_decide_unpack _); by vm_compute. }
    unfold build in Hnew. destruct (truthy params) eqn:Ht.
    - rewrite setattr_params in Hnew. unfold set_params in Hnew.
      destruct params as [| | | | | |d| |]; try done. simpl in Hnew, Hkey.
      unfold mbind, result_bind in Hnew.
      destruct (foldM _ _ _) as [self1|] eqn:Hloop; [|done].
      apply build_tail_inv in Hnew. subst self. apply Htail.
      apply foldM_setattr_spec in Hloop as (Hc & Hframe & _). simpl in Hc.
      split; [done|]. rewrite Hframe.
      + simpl. rewrite lookup_insert_ne; [done|].
        intros <-. apply Hback. apply (bool_decide_unpack _). by vm_compute.
      + simpl. intros k Hk Hs.
        destruct (slot_backing EP k) as [E|E]; rewrite Hs in E.
        * subst k. done.
        * done.
    - simpl in Hnew. apply build_tail_inv in Hnew. subst self.
      by apply Htail. }
  unfold getattr. rewrite Hcls, Hprop, Hnone.
  rewrite bool_decide_eq_false_2.
  - rewrite bool_decide_eq_false_2 by done. by rewrite Hdunder.
  - unfold interpreter_attributes. intros Hin.
    repeat (apply elem_of_cons in Hin as [->|Hin]); try done.
    by apply elem_of_nil in Hin.
Qed.

End PyLemmas.

Module PyTheorems.
Import Py PyFacts PyLemmas.

(** C5 (as amended). [Optimizer.build(params)] on an initialised
    instance: (1) a truthy [params] that is not a dict fails with the
    setter's [TypeError]; (2) a falsy [params] (None, an empty mapping,
    zero, ...) attaches nothing and only sets [built] to true; (3) for a
    dict of plain data without the key [__dict__] (and which is not the
    dictionary of the instance itself), [build] returns normally exactly
    when every item is accepted by [setattr]: a string key other than
    [__class__] and [__weakref__], and for a property a value of the
    right type and range; (4) when it returns, [built] reads true and,
    for distinct keys that do not name a backing attribute, every pair
    other than [built] reads back as it was given. *)
Theorem build_spec (self : Obj) (Hinit : initialised self) :
  (∀ params, truthy params = true → is_dict params = false →
     build params self = Raise (TypeError "`params` should be a dictionary"))
  ∧ (∀ params, truthy params = false →
     build params self = Ok (store "_built" (VBool true) self))
  ∧ (∀ d, VStr "__dict__" ∉ d.*1 →
       ((∃ self', build (VDict d) self = Ok self') ↔
        forallb (λ kv, accepted (cls self) kv.1 kv.2) d = true))
  ∧ (∀ d self', VStr "__dict__" ∉ d.*1 →
       build (VDict d) self = Ok self' →
       reads self' "built" (VBool true)
       ∧ (NoDup d.*1 →
          (∀ b, b ∈ backing_names → VStr b ∉ d.*1) →
          ∀ k v, (VStr k, v) ∈ d → k ≠ "built" → reads self' k v)).
Proof.
  split_and!.
  - intros params Ht Hd. unfold build. rewrite Ht, setattr_params.
    unfold set_params. by rewrite Hd.
  - intros params Hf. rewrite build_falsy by done. by apply build_tail_ok.
  - intros d _. destruct d as [|kv d].
    + rewrite build_falsy by done. rewrite build_tail_ok by done.
      split; [done|]. by eexists.
    + rewrite build_truthy_dict by done.
      rewrite <- (foldM_setattr_accepted (kv :: d) (store "_params" (VDict (kv :: d)) self)).
      split.
      * intros [self' H]. unfold mbind, result_bind in H.
        destruct (foldM _ _ _) as [self1|]; [by eexists|done].
      * intros [self1 H]. rewrite H. simpl. unfold mbind, result_bind.
        rewrite build_tail_ok; [by eexists|].
        eapply foldM_setattr_dom; [done|].
        destruct Hinit as [a Ha]. exists a. simpl. by rewrite lookup_insert_ne.
  - intros d self' _ Hb. destruct d as [|kv d].
    + rewrite build_falsy in Hb by done. apply build_tail_inv in Hb. subst self'.
      split.
      * apply getattr_built. simpl. by rewrite lookup_insert_eq.
      * intros _ _ k v Hin. by apply elem_of_nil in Hin.
    + rewrite build_truthy_dict in Hb by done.
      unfold mbind, result_bind in Hb.
      destruct (foldM _ _ _) as [self1|] eqn:Hloop; [|done].
      apply build_tail_inv in Hb. subst self'.
      pose proof (fun k v => foldM_setattr_ordinary _ _ _ k v Hloop) as Hord.
      apply foldM_setattr_spec in Hloop as (Hcls & _ & Hitems). simpl in Hcls.
      split.
      * apply getattr_built. simpl. by rewrite lookup_insert_eq.
      * intros Hnd Hback k v Hin Hk. apply getattr_slot; [by eapply Hord|].
        simpl.
        assert (k ∉ backing_names) as Hkb.
        { intros Hb. apply (Hback k Hb). apply list_elem_of_fmap.
          by exists (VStr k, v). }
        rewrite lookup_insert_ne by (apply not_eq_sym; by apply slot_built).
        rewrite Hcls. by apply Hitems.
Qed.

(** Witness for C5: a freshly initialised [Optimizer]. *)
Lemma build_spec_witness :
  build (VInt 5) (store "_algorithm" (VStr "Optimizer") (new_obj Optimizer))
  = Raise (TypeError "`params` should be a dictionary")
  ∧ build VNone (store "_algorithm" (VStr "Optimizer") (new_obj Optimizer))
    = Ok (store "_built" (VBool true)
            (store "_algorithm" (VStr "Optimizer") (new_obj Optimizer))).
Proof.
  assert (initialised (store "_algorithm" (VStr "Optimizer") (new_obj Optimizer)))
    as Hinit by (exists (VStr "Optimizer"); reflexivity).
  destruct (build_spec _ Hinit) as (H1 & H2 & _).
  split; [apply H1 | apply H2]; reflexivity.
Defined.

(** C5 as stated fails: [None] is not a mapping and [build(None)]
    returns normally, leaving [built] true; and the mappings
    [{"built": 0}] and [{1: 2}] are refused, the first by the [built]
    setter and the second by [setattr]. *)
Lemma build_counterexample :
  is_dict VNone = false
  ∧ (∃ self self', Optimizer_new = Ok self ∧ build VNone self = Ok self'
                   ∧ reads self' "built" (VBool true))
  ∧ (∃ self, Optimizer_new = Ok self
             ∧ build (VDict [(VStr "built", VInt 0)]) self
               = Raise (TypeError "`built` should be a boolean"))
  ∧ (∃ self, Optimizer_new = Ok self
             ∧ build (VDict [(VInt 1, VInt 2)]) self
               = Raise (PyTypeError "attribute name must be string")).
Proof.
  split_and!; [reflexivity|..].
  - eexists _, _. split_and!; reflexivity.
  - eexists. split; reflexivity.
  - eexists. split; reflexivity.
Qed.




(** C9 (the code at the failing input). Constructing [ES] raises for
    every [algorithm] and [hyperparams]: [Optimizer.__init__] takes no
    argument after [self]. An [ES] instance initialised without that
    argument has no [_build] to call either. Constructing [EP] with the
    default hyperparameters yields a built optimizer. *)
Theorem ES_new_raises :
  (∀ algorithm hyperparams,
     ES_new algorithm hyperparams
     = Raise (PyTypeError "__init__() takes 1 positional argument"))
  ∧ (∃ self, Optimizer_init [] (new_obj ES) = Ok self
             ∧ getattr self "_build" = Raise (PyAttributeError "_build"))
  ∧ (∃ self, EP_new VNone = Ok self ∧ reads self "built" (VBool true)).
Proof.
  split_and!.
  - reflexivity.
  - eexists. split; reflexivity.
  - eexists. split; reflexivity.
Qed.

(** The interpreter's attributes under [build]: a plain value is no
    class, [__weakref__] cannot be written, and [__dict__] takes nothing
    but a dict. *)
Example build_interpreter_attributes :
  ∃ self, Optimizer_new = Ok self
    ∧ build (VDict [(VStr "__class__", VInt 5)]) self
      = Raise (PyTypeError "__class__ must be set to a class")
    ∧ build (VDict [(VStr "__weakref__", VNone)]) self
      = Raise (PyAttributeError "__weakref__")
    ∧ build (VDict [(VStr "__dict__", VInt 5)]) self
      = Raise (PyTypeError "__dict__ must be set to a dictionary").
Proof. eexists. split_and!; reflexivity. Qed.

(** The range check on the floats that are no rationals. *)
Example set_bout_size_special_floats :
  set_bout_size VNaN EP_defaults = Ok (store "_bout_size" VNaN EP_defaults)
  ∧ set_bout_size (VInf false) EP_defaults
    = Raise (ValueError "`bout_size` should be between 0 and 1")
  ∧ set_bout_size (VInf true) EP_defaults
    = Raise (ValueError "`bout_size` should be between 0 and 1").
Proof. split_and!; reflexivity. Qed.

End PyTheorems.

(** * Properties of evaluation and of Evolutionary Programming *)

(** Reduction of the fields of a written world and of a written agent. *)
Ltac fields :=
  cbn [arrays agent_objs list_objs gen ticks with_gen
       position fit lb ub ts n_variables n_dimensions
       with_fit with_position with_ts] in *.

Section StoreFacts.
Context `{Random} `{Environment}.
Import PyFacts.

Lemma bind_Ok {A B} (m : M A) (k : A → M B) (w w' : World) (a : A) :
  m w = Ok (a, w') → (m ≫= k) w = k a w'.
Proof. intros E. unfold mbind, M_bind. by rewrite E. Qed.

Lemma fresh_array (w : World) : arrays w !! fresh (dom (arrays w)) = None.
Proof. apply not_elem_of_dom, is_fresh. Qed.

Lemma fresh_agent (w : World) : agent_objs w !! fresh (dom (agent_objs w)) = None.
Proof. apply not_elem_of_dom, is_fresh. Qed.

Lemma fresh_list (w : World) : list_objs w !! fresh (dom (list_objs w)) = None.
Proof. apply not_elem_of_dom, is_fresh. Qed.

(** *** Equations of the primitives under a bind *)

Lemma bind_get_agent {B} (l : loc) (k : Agent → M B) (w : World) (a : Agent) :
  agent_objs w !! l = Some a → (get_agent l ≫= k) w = k a w.
Proof. intros E. unfold mbind, M_bind, get_agent. by rewrite E. Qed.

Lemma bind_get_array {B} (l : loc) (k : ndarray → M B) (w : World) (x : ndarray) :
  arrays w !! l = Some x → (get_array l ≫= k) w = k x w.
Proof. intros E. unfold mbind, M_bind, get_array. by rewrite E. Qed.

Lemma bind_get_list {B} (l : loc) (k : list loc → M B) (w : World) (xs : list loc) :
  list_objs w !! l = Some xs → (get_list l ≫= k) w = k xs w.
Proof. intros E. unfold mbind, M_bind, get_list. by rewrite E. Qed.

Lemma bind_set_agent {B} (l : loc) (a : Agent) (k : unit → M B) (w : World) :
  (set_agent l a ≫= k) w =
  k tt (mkWorld (arrays w) (<[l := a]> (agent_objs w)) (list_objs w) (gen w) (ticks w)).
Proof. reflexivity. Qed.

Lemma bind_set_array {B} (l : loc) (x : ndarray) (k : unit → M B) (w : World) :
  (set_array l x ≫= k) w =
  k tt (mkWorld (<[l := x]> (arrays w)) (agent_objs w) (list_objs w) (gen w) (ticks w)).
Proof. reflexivity. Qed.

Lemma bind_set_list {B} (l : loc) (xs : list loc) (k : unit → M B) (w : World) :
  (set_list l xs ≫= k) w =
  k tt (mkWorld (arrays w) (agent_objs w) (<[l := xs]> (list_objs w)) (gen w) (ticks w)).
Proof. reflexivity. Qed.

Lemma bind_new_array {B} (x : ndarray) (k : loc → M B) (w : World) :
  (new_array x ≫= k) w =
  k (fresh (dom (arrays w)))
    (mkWorld (<[fresh (dom (arrays w)) := x]> (arrays w)) (agent_objs w)
       (list_objs w) (gen w) (ticks w)).
Proof. reflexivity. Qed.

Lemma bind_new_agent {B} (a : Agent) (k : loc → M B) (w : World) :
  (new_agent a ≫= k) w =
  k (fresh (dom (agent_objs w)))
    (mkWorld (arrays w) (<[fresh (dom (agent_objs w)) := a]> (agent_objs w))
       (list_objs w) (gen w) (ticks w)).
Proof. reflexivity. Qed.

Lemma bind_new_list {B} (xs : list loc) (k : loc → M B) (w : World) :
  (new_list xs ≫= k) w =
  k (fresh (dom (list_objs w)))
    (mkWorld (arrays w) (agent_objs w)
       (<[fresh (dom (list_objs w)) := xs]> (list_objs w)) (gen w) (ticks w)).
Proof. reflexivity. Qed.

Lemma bind_int_time {B} (k : Z → M B) (w : World) :
  (int_time ≫= k) w =
  k (py_int (time_time (ticks w)))
    (mkWorld (arrays w) (agent_objs w) (list_objs w) (gen w) (S (ticks w))).
Proof. reflexivity. Qed.

Lemma bind_draw {A B} (f : rng → A * rng) (k : A → M B) (w : World) :
  (draw f ≫= k) w =
  k (f (gen w)).1
    (mkWorld (arrays w) (agent_objs w) (list_objs w) (f (gen w)).2 (ticks w)).
Proof. unfold mbind, M_bind, draw. by destruct (f (gen w)). Qed.

Lemma bind_lift_Ok {A B} (r : result A) (a : A) (k : A → M B) (w : World) :
  r = Ok a → (lift r ≫= k) w = k a w.
Proof. by intros ->. Qed.

Lemma bind_ret {A B} (a : A) (k : A → M B) (w : World) :
  (mret a ≫= k) w = k a w.
Proof. reflexivity. Qed.

(** One agent of the loop of [evaluate], when the agent is not the best
    agent itself. *)
Lemma evaluate_agent_step (function : ndarray → Q) (best agent : loc)
    (w : World) (a b : Agent) (x : ndarray) :
  agent ≠ best →
  agent_objs w !! agent = Some a →
  arrays w !! position a = Some x →
  agent_objs w !! best = Some b →
  evaluate_agent function best agent w =
  Ok (tt,
      if Qltb (function x) (fit b) then
        let copy := fresh (dom (arrays w)) in
        mkWorld (<[copy := x]> (arrays w))
          (<[best := with_ts (py_int (time_time (ticks w)))
                       (with_fit (function x) (with_position copy b))]>
             (<[agent := with_fit (function x) a]> (agent_objs w)))
          (list_objs w) (gen w) (S (ticks w))
      else
        mkWorld (arrays w) (<[agent := with_fit (function x) a]> (agent_objs w))
          (list_objs w) (gen w) (ticks w)).
Proof.
  intros Hne Ha Hx Hb. unfold evaluate_agent.
  rewrite (bind_get_agent _ _ _ a) by done.
  rewrite (bind_get_array _ _ _ x) by done.
  rewrite bind_set_agent.
  rewrite (bind_get_agent _ _ _ (with_fit (function x) a))
    by (fields; by rewrite lookup_insert_eq).
  rewrite (bind_get_agent _ _ _ b)
    by (fields; by rewrite lookup_insert_ne).
  fields. destruct (Qltb (function x) (fit b)); [|done].
  rewrite (bind_get_array _ _ _ x) by done.
  rewrite bind_new_array.
  rewrite (bind_get_agent _ _ _ b) by (fields; by rewrite lookup_insert_ne).
  rewrite bind_set_agent.
  rewrite (bind_get_agent _ _ _ (with_fit (function x) a))
    by (fields; by rewrite lookup_insert_ne, lookup_insert_eq).
  erewrite bind_get_agent by (fields; by rewrite lookup_insert_eq).
  rewrite bind_set_agent, bind_int_time.
  erewrite bind_get_agent by (fields; by rewrite lookup_insert_eq).
  unfold set_agent. fields. by rewrite !insert_insert_eq.
Qed.

Lemma foldS_index {A} (body : A → M unit) (xs : list A) (i j : nat) (w : World) :
  foldS (fun _ _ x => body x) i tt xs w = foldS (fun _ _ x => body x) j tt xs w.
Proof.
  revert i j w. induction xs as [|x xs IH]; intros i j w; [done|].
  simpl. unfold mbind, M_bind. destruct (body x w) as [[[] w1]|]; [|done].
  apply IH.
Qed.

Lemma forS_cons {A} (body : A → M unit) (x : A) (xs : list A) (w : World) :
  forS body (x :: xs) w = (body x ≫= (fun _ => forS body xs)) w.
Proof.
  unfold forS. simpl. unfold mbind, M_bind.
  destruct (body x w) as [[[] w1]|]; [|done]. apply foldS_index.
Qed.

Lemma value_at_Some (w : World) (agent : loc) (x : ndarray) :
  value_at w agent = Some x ↔
  ∃ a, agent_objs w !! agent = Some a ∧ arrays w !! position a = Some x.
Proof.
  unfold value_at. destruct (agent_objs w !! agent) as [a|]; simpl.
  - split; [by exists a|]. by intros (? & [= <-] & ?).
  - split; [done|]. by intros (? & ? & ?).
Qed.

(** One agent of the loop of [evaluate], in terms of what changes. *)
Lemma evaluate_agent_spec (function : ndarray → Q) (best agent : loc)
    (w : World) (a b : Agent) (x : ndarray) :
  agent ≠ best →
  agent_objs w !! agent = Some a →
  arrays w !! position a = Some x →
  agent_objs w !! best = Some b →
  ∃ w1 b1,
    evaluate_agent function best agent w = Ok (tt, w1)
    ∧ agent_objs w1 = <[best := b1]> (<[agent := with_fit (function x) a]> (agent_objs w))
    ∧ arrays w ⊆ arrays w1
    ∧ list_objs w1 = list_objs w
    ∧ gen w1 = gen w
    ∧ ((Qltb (function x) (fit b) = false ∧ b1 = b ∧ arrays w1 = arrays w)
       ∨ (Qltb (function x) (fit b) = true
          ∧ b1 = with_ts (py_int (time_time (ticks w)))
                   (with_fit (function x) (with_position (position b1) b))
          ∧ (position b1 ∉ dom (arrays w))
          ∧ arrays w1 = <[position b1 := x]> (arrays w))).
Proof.
  intros Hne Ha Hx Hb.
  rewrite (evaluate_agent_step function best agent w a b x) by done.
  destruct (Qltb (function x) (fit b)) eqn:Hlt.
  - eexists _, _. split; [done|]. fields. split_and!; try done.
    + apply insert_subseteq, fresh_array.
    + right. split_and!; try done. fields. apply is_fresh.
  - exists (mkWorld (arrays w) (<[agent := with_fit (function x) a]> (agent_objs w))
              (list_objs w) (gen w) (ticks w)), b.
    split; [done|]. fields. split_and!; try done.
    + symmetry. apply insert_id. by rewrite lookup_insert_ne.
    + left. done.
Qed.

Lemma value_at_frame (w w1 : World) (agent : loc) (x : ndarray) :
  agent_objs w1 !! agent = agent_objs w !! agent →
  arrays w ⊆ arrays w1 →
  value_at w agent = Some x → value_at w1 agent = Some x.
Proof.
  intros Ha Hsub. rewrite !value_at_Some. intros (a & Hl & Hx).
  exists a. split; [congruence|]. by eapply lookup_weaken.
Qed.

(** The loop of [evaluate] over the agents [l], none of which is the
    best agent. *)
Lemma evaluate_loop (function : ndarray → Q) (best : loc) (l : list loc) :
  ∀ (w : World) (b : Agent),
    agent_objs w !! best = Some b →
    best ∉ l →
    (∀ agent, agent ∈ l → is_Some (value_at w agent)) →
    ∃ w' b',
      forS (evaluate_agent function best) l w = Ok (tt, w')
      ∧ agent_objs w' !! best = Some b'
      ∧ arrays w ⊆ arrays w'
      ∧ list_objs w' = list_objs w
      ∧ gen w' = gen w
      ∧ (∀ agent, agent ≠ best → agent ∉ l →
           agent_objs w' !! agent = agent_objs w !! agent)
      ∧ (∀ agent, agent ∈ l →
           ∃ a x, agent_objs w !! agent = Some a
                  ∧ arrays w !! position a = Some x
                  ∧ agent_objs w' !! agent = Some (with_fit (function x) a))
      ∧ (fit b' <= fit b)%Q
      ∧ (∀ agent x, agent ∈ l → value_at w agent = Some x →
           (fit b' <= function x)%Q)
      ∧ (b' = b
         ∨ ∃ agent x,
             agent ∈ l ∧ value_at w agent = Some x
             ∧ (function x < fit b)%Q
             ∧ fit b' = function x
             ∧ (position b' ∉ dom (arrays w))
             ∧ arrays w' !! position b' = Some x).
Proof.
  induction l as [|agent l IH]; intros w b Hb Hbest Hvalid.
  - exists w, b. split_and!; try done.
    + intros agent Hin. by apply elem_of_nil in Hin.
    + apply Qle_refl.
    + intros agent x Hin. by apply elem_of_nil in Hin.
    + by left.
  - apply not_elem_of_cons in Hbest as [Hne Hbest].
    destruct (Hvalid agent) as [x Hx]; [left|].
    pose proof Hx as Hx'. apply value_at_Some in Hx' as (a & Ha & Hxa).
    destruct (evaluate_agent_spec function best agent w a b x)
      as (w1 & b1 & Hstep & Hobjs & Hsub & Hlists & Hgen & Hcase); try done.
    assert (agent_objs w1 !! best = Some b1) as Hb1
      by (by rewrite Hobjs, lookup_insert_eq).
    assert (∀ agent', agent' ≠ best → agent' ≠ agent →
              agent_objs w1 !! agent' = agent_objs w !! agent') as Hframe1.
    { intros agent' H1 H2. by rewrite Hobjs, !lookup_insert_ne. }
    assert (agent_objs w1 !! agent = Some (with_fit (function x) a)) as Ha1.
    { by rewrite Hobjs, lookup_insert_ne, lookup_insert_eq. }
    assert (∀ agent' y, agent' ≠ best → value_at w agent' = Some y →
              value_at w1 agent' = Some y) as Hvalue1.
    { intros agent' y H1. destruct (decide (agent' = agent)) as [->|H2].
      - rewrite !value_at_Some. intros (a' & Ha' & Hy). simplify_eq.
        eexists. split; [exact Ha1|]. fields.
        by eapply lookup_weaken.
      - apply value_at_frame; [by apply Hframe1|done]. }
    assert (fit b1 <= fit b ∧ fit b1 <= function x)%Q as [Hle1 Hle2].
    { destruct Hcase as [(Hlt & -> & _)|(Hlt & -> & _)]; fields.
      - split; [apply Qle_refl|]. by apply Qltb_ge.
      - split; [|apply Qle_refl]. by apply Qlt_le_weak, Qltb_lt. }
    destruct (IH w1 b1) as (w' & b' & Hrun & Hb' & Hsub' & Hlists' & Hgen'
                            & Hframe' & Hfits' & Hle' & Hmin' & Hwhich'); try done.
    { intros agent' Hin. destruct (Hvalid agent') as [y Hy]; [by right|].
      exists y. apply Hvalue1; [|done]. intros ->. done. }
    exists w', b'. split_and!.
    + rewrite forS_cons. by rewrite (bind_Ok _ _ _ w1 tt).
    + done.
    + by trans (arrays w1).
    + congruence.
    + congruence.
    + intros agent' H1 H2. apply not_elem_of_cons in H2 as [H2 H3].
      rewrite Hframe' by done. by apply Hframe1.
    + intros agent' Hin.
      destruct (decide (agent' ∈ l)) as [Hl|Hl].
      * destruct (Hfits' agent' Hl) as (a1 & x1 & Ha1' & Hx1 & Hres).
        assert (agent' ≠ best) as H1 by (by intros ->).
        destruct (decide (agent' = agent)) as [->|H2].
        -- simplify_eq. exists a, x. split_and!; try done. fields.
           assert (arrays w1 !! position a = Some x) as Hx1'
             by (by eapply lookup_weaken).
           rewrite Hx1' in Hx1. simplify_eq. rewrite Hres.
           by destruct a.
        -- rewrite Hframe1 in Ha1' by done.
           destruct (Hvalid agent') as [y Hy]; [by right|].
           apply value_at_Some in Hy as (a2 & Ha2 & Hy). simplify_eq.
           exists a1, y. split_and!; try done.
           assert (arrays w1 !! position a1 = Some y) as Hy1
             by (by eapply lookup_weaken).
           congruence.
      * apply elem_of_cons in Hin as [->|Hin]; [|done].
        exists a, x. split_and!; try done.
        rewrite Hframe' by done. done.
    + by apply Qle_trans with (fit b1).
    + intros agent' y Hin Hy. apply elem_of_cons in Hin as [->|Hin].
      * rewrite Hx in Hy. simplify_eq. by apply Qle_trans with (fit b1).
      * apply (Hmin' agent' y Hin). apply Hvalue1; [|done]. by intros ->.
    + destruct Hwhich' as [->|(agent' & y & Hin & Hy & Hlt & Hfit & Hfresh & Hcopy)].
      * destruct Hcase as [(Hlt & -> & _)|(Hlt & Hb1eq & Hfresh & Harr)];
          [by left|].
        right. exists agent, x. split_and!; try done.
        -- left.
        -- by apply Qltb_lt.
        -- rewrite Hb1eq. done.
        -- eapply lookup_weaken; [|done]. rewrite Harr.
           by rewrite lookup_insert_eq.
      * right. exists agent', y.
        assert (agent' ≠ best) as H1 by (by intros ->).
        destruct (Hvalid agent') as [y0 Hy0]; [by right|].
        pose proof (Hvalue1 agent' y0 H1 Hy0) as Hy1. simplify_eq.
        split_and!; try done.
        -- by right.
        -- by apply Qlt_le_trans with (fit b1).
        -- intros Hd. apply Hfresh. apply elem_of_dom.
           apply elem_of_dom in Hd as [z Hz]. exists z.
           by eapply lookup_weaken.
Qed.

(** C1. [Optimizer.evaluate] on a space whose population and best agent
    are objects of the store, the best agent not being a member of the
    population. First part, one agent of the loop: its fitness becomes
    [function(position)]; when that is strictly below the fitness of the
    best agent at that moment, the best agent takes the fitness and a
    new array holding a copy of the position, and otherwise the best
    agent and the arrays are left as they were. Second part, the whole
    call: it returns; every agent has the fitness of its position; the
    fitness of the best agent is the minimum of its previous value and
    of the new fitnesses; and the best agent has changed exactly when
    some new fitness is strictly below the previous best, in which case
    its position is an array that did not exist before and that holds
    the position of an agent of that fitness. *)
Theorem evaluate_spec (function : ndarray → Q) :
  (∀ (best agent : loc) (w : World) (a b : Agent) (x : ndarray),
     agent ≠ best →
     agent_objs w !! agent = Some a →
     arrays w !! position a = Some x →
     agent_objs w !! best = Some b →
     ∃ w1 b1,
       evaluate_agent function best agent w = Ok (tt, w1)
       ∧ agent_objs w1 !! agent = Some (with_fit (function x) a)
       ∧ agent_objs w1 !! best = Some b1
       ∧ ((function x < fit b)%Q →
            fit b1 = function x
            ∧ (position b1 ∉ dom (arrays w))
            ∧ arrays w1 = <[position b1 := x]> (arrays w))
       ∧ (¬ (function x < fit b)%Q → b1 = b ∧ arrays w1 = arrays w))
  ∧ (∀ (space : Space) (w : World) (population : list loc) (b : Agent),
       list_objs w !! agents space = Some population →
       agent_objs w !! best_agent space = Some b →
       best_agent space ∉ population →
       (∀ agent, agent ∈ population → is_Some (value_at w agent)) →
       ∃ w' b',
         evaluate space function w = Ok (tt, w')
         ∧ agent_objs w' !! best_agent space = Some b'
         ∧ (∀ agent, agent ∈ population →
              ∃ a x, agent_objs w !! agent = Some a
                     ∧ arrays w !! position a = Some x
                     ∧ agent_objs w' !! agent = Some (with_fit (function x) a)
                     ∧ arrays w' !! position a = Some x)
         ∧ (fit b' <= fit b)%Q
         ∧ (∀ agent x, agent ∈ population → value_at w agent = Some x →
              (fit b' <= function x)%Q)
         ∧ (fit b' = fit b
            ∨ ∃ agent x, agent ∈ population ∧ value_at w agent = Some x
                         ∧ fit b' = function x)
         ∧ (b' ≠ b ↔
            ∃ agent x, agent ∈ population ∧ value_at w agent = Some x
                       ∧ (function x < fit b)%Q)
         ∧ (b' ≠ b →
            (position b' ∉ dom (arrays w))
            ∧ ∃ agent x, agent ∈ population ∧ value_at w agent = Some x
                         ∧ fit b' = function x
                         ∧ arrays w' !! position b' = Some x)).
Proof.
  split.
  - intros best agent w a b x Hne Ha Hx Hb.
    destruct (evaluate_agent_spec function best agent w a b x)
      as (w1 & b1 & Hstep & Hobjs & Hsub & _ & _ & Hcase); try done.
    exists w1, b1. split_and!.
    + done.
    + by rewrite Hobjs, lookup_insert_ne, lookup_insert_eq.
    + by rewrite Hobjs, lookup_insert_eq.
    + intros Hlt. apply Qltb_lt in Hlt.
      destruct Hcase as [(Hge & _)|(_ & Hb1 & Hfresh & Harr)]; [congruence|].
      split_and!; try done. by rewrite Hb1.
    + intros Hge. destruct Hcase as [(_ & ? & ?)|(Hlt & _)]; [done|].
      by apply Qltb_lt in Hlt.
  - intros space w population b Hlist Hb Hbest Hvalid.
    destruct (evaluate_loop function (best_agent space) population w b)
      as (w' & b' & Hrun & Hb' & Hsub & _ & _ & _ & Hfits & Hle & Hmin & Hwhich);
      try done.
    exists w', b'. split_and!.
    + unfold evaluate. by rewrite (bind_get_list _ _ _ population).
    + done.
    + intros agent Hin. destruct (Hfits agent Hin) as (a & x & Ha & Hx & Ha').
      exists a, x. split_and!; try done. by eapply lookup_weaken.
    + done.
    + done.
    + destruct Hwhich as [->|(agent & x & Hin & Hx & _ & Hfit & _)]; [by left|].
      right. by exists agent, x.
    + split.
      * intros Hne. destruct Hwhich as [->|(agent & x & Hin & Hx & Hlt & _)];
          [done|]. by exists agent, x.
      * intros (agent & x & Hin & Hx & Hlt) ->.
        apply (Qlt_not_le _ _ Hlt). by apply (Hmin agent).
    + intros Hne.
      destruct Hwhich as [->|(agent & x & Hin & Hx & _ & Hfit & Hfresh & Hcopy)];
        [done|].
      split; [done|]. by exists agent, x.
Qed.

(** C2. The fitness of the best agent never increases. First part, one
    call: [evaluate] returns, and the fitness of the best agent after
    the call is at most its value before. Second part, a run: the
    fitnesses recorded after the successive evaluations are each at most
    the one before, and at most the initial one. *)
Theorem best_fit_never_increases (function : ndarray → Q) :
  (∀ (space : Space) (w : World) (population : list loc) (b : Agent),
     list_objs w !! agents space = Some population →
     agent_objs w !! best_agent space = Some b →
     best_agent space ∉ population →
     (∀ agent, agent ∈ population → is_Some (value_at w agent)) →
     ∃ w' b',
       evaluate space function w = Ok (tt, w')
       ∧ agent_objs w' !! best_agent space = Some b'
       ∧ (fit b' <= fit b)%Q)
  ∧ (∀ (best : loc) (w : World) (b : Agent) (recorded : list Q),
       agent_objs w !! best = Some b →
       run_trace function best w recorded →
       Sorted (fun q q' => (q' <= q)%Q) recorded
       ∧ Forall (fun q => (q <= fit b)%Q) recorded).
Proof.
  split.
  - intros space w population b Hlist Hb Hbest Hvalid.
    destruct (evaluate_loop function (best_agent space) population w b)
      as (w' & b' & Hrun & Hb' & _ & _ & _ & _ & _ & Hle & _); try done.
    exists w', b'. split_and!; try done.
    unfold evaluate. by rewrite (bind_get_list _ _ _ population).
  - intros best w b recorded Hb Htrace. revert b Hb.
    induction Htrace as [w|w w1 w2 space population b2 recorded
                           Hkeep Hspace Hlist Hbest Hvalid Heval Hb2 Htrace IH];
      intros b Hb.
    + split; constructor.
    + subst best. rewrite <- Hkeep in Hb.
      destruct (evaluate_loop function (best_agent space) population w1 b)
        as (w' & b' & Hrun & Hb' & _ & _ & _ & _ & _ & Hle & _); try done.
      unfold evaluate in Heval.
      rewrite (bind_get_list _ _ _ population) in Heval by done.
      rewrite Hrun in Heval. simplify_eq.
      destruct (IH b2 Hb2) as [Hsorted Hbound].
      split.
      * constructor; [done|]. destruct Hbound; constructor. done.
      * constructor; [done|].
        eapply Forall_impl; [exact Hbound|]. intros q Hq. simpl in Hq.
        by apply Qle_trans with (fit b2).
Qed.

End StoreFacts.

Section MutationFacts.
Context `{Random} `{Environment}.

Lemma same_shape_spec (x y : ndarray) :
  same_shape x y = true ↔ length <$> x = length <$> y.
Proof. unfold same_shape. apply bool_decide_eq_true. Qed.

Lemma shape_map_array (f : Q → Q) (x : ndarray) :
  length <$> map_array f x = length <$> x.
Proof.
  unfold map_array. rewrite <- list_fmap_compose. apply list_fmap_ext.
  intros i row _. simpl. apply length_fmap.
Qed.

Lemma shape_zip_with (f : Q → Q → Q) (x y : ndarray) :
  length <$> x = length <$> y →
  length <$> zip_with (zip_with f) x y = length <$> x.
Proof.
  revert y. induction x as [|r x IH]; intros [|r' y] Hs; simplify_eq/=; [done|].
  f_equal; [|by apply IH]. rewrite length_zip_with. lia.
Qed.

Lemma shape_clip_rows (lb ub : list Q) (x : ndarray) :
  length <$> clip_rows lb ub x = length <$> x.
Proof.
  unfold clip_rows. apply list_eq. intros j.
  rewrite !list_lookup_fmap, list_lookup_imap.
  destruct (x !! j) as [row|]; [|done]. simpl.
  destruct (lb !! j), (ub !! j); simpl; by rewrite ?length_fmap.
Qed.

Lemma add_Ok (x y : ndarray) :
  same_shape x y = true → add x y = Ok (zip_with (zip_with Qplus) x y).
Proof. intros E. unfold add. by rewrite E. Qed.

Lemma mul_Ok (x y : ndarray) :
  same_shape x y = true → mul x y = Ok (zip_with (zip_with Qmult) x y).
Proof. intros E. unfold mul. by rewrite E. Qed.

(** [copy.deepcopy(agent)] creates an agent and an array. *)
Lemma deepcopy_step (agent : loc) (w : World) (p : Agent) (x : ndarray) :
  agent_objs w !! agent = Some p →
  arrays w !! position p = Some x →
  deepcopy agent w =
  Ok (fresh (dom (agent_objs w)),
      mkWorld (<[fresh (dom (arrays w)) := x]> (arrays w))
        (<[fresh (dom (agent_objs w)) := with_position (fresh (dom (arrays w))) p]>
           (agent_objs w))
        (list_objs w) (gen w) (ticks w)).
Proof.
  intros Hp Hx. unfold deepcopy.
  rewrite (bind_get_agent _ _ _ p) by done.
  rewrite (bind_get_array _ _ _ x) by done.
  rewrite bind_new_array. unfold new_agent. by fields.
Qed.

Lemma mutate_parent_step (function : ndarray → Q) (agent : loc)
    (strategy : ndarray) (w : World) (p : Agent) (x : ndarray) :
  agent_objs w !! agent = Some p →
  arrays w !! position p = Some x →
  same_shape x strategy = true →
  let r1 := (generate_gaussian_random_number (gen w)).1 in
  let copy := fresh (dom (arrays w)) in
  let a := fresh (dom (agent_objs w)) in
  let x' := mutated p x strategy r1 in
  _mutate_parent function agent strategy w =
  Ok (a,
      mkWorld (<[copy := x']> (arrays w))
        (<[a := with_fit (function x') (with_position copy p)]> (agent_objs w))
        (list_objs w) (generate_gaussian_random_number (gen w)).2 (ticks w)).
Proof.
  intros Hp Hx Hshape r1 copy a x'. unfold _mutate_parent.
  erewrite bind_Ok by (by apply (deepcopy_step agent w p x)).
  rewrite bind_draw. fields.
  erewrite bind_get_agent by (fields; by rewrite lookup_insert_eq).
  erewrite bind_get_array by (fields; by rewrite lookup_insert_eq).
  erewrite bind_lift_Ok; last first.
  { apply add_Ok. apply same_shape_spec. unfold scale.
    rewrite shape_map_array. by apply same_shape_spec. }
  rewrite bind_set_array. fields.
  erewrite bind_Ok; last first.
  { unfold clip_by_bound.
    erewrite bind_get_agent by (fields; by rewrite lookup_insert_eq).
    erewrite bind_get_array by (fields; by rewrite lookup_insert_eq).
    unfold set_array. fields. reflexivity. }
  erewrite bind_get_agent by (fields; by rewrite lookup_insert_eq).
  erewrite bind_get_array by (fields; by rewrite lookup_insert_eq).
  rewrite bind_set_agent. fields.
  unfold mret, M_ret. by rewrite !insert_insert_eq.
Qed.

Lemma entry_mutated (p : Agent) (x strategy : ndarray) (r1 : Q)
    (j k : nat) (v s : Q) :
  entry x j k = Some v →
  entry strategy j k = Some s →
  entry (mutated p x strategy r1) j k
  = Some (clip_component (lb p) (ub p) j (v + s * r1)%Q).
Proof.
  unfold entry, mutated, clip_rows, clip_component, scale, map_array.
  intros Hv Hs. rewrite list_lookup_imap, lookup_zip_with, list_lookup_fmap.
  destruct (x !! j) as [rx|]; [|done].
  destruct (strategy !! j) as [rs|]; [|done]. simpl in *.
  assert (zip_with Qplus rx ((fun v0 : Q => (v0 * r1)%Q) <$> rs) !! k
          = Some (v + s * r1)%Q) as Hsum.
  { rewrite lookup_zip_with, list_lookup_fmap, Hv, Hs. done. }
  destruct (lb p !! j), (ub p !! j); simpl; try done.
  by rewrite list_lookup_fmap, Hsum.
Qed.

(** C7 (as amended). [EP._mutate_parent] on a parent [p] at position [x]
    with a strategy of the shape of [x] returns a new agent with a new
    position array: a copy of the parent whose position is, element by
    element, the parent's plus the strategy times ONE Gaussian draw, the
    same for every element, clipped to the bounds of its variable, and
    whose fitness is the function at that position. One draw is taken
    from the generator. The parent, its position array and every other
    object are as before. *)
Theorem mutate_parent_spec (function : ndarray → Q) (agent : loc)
    (strategy : ndarray) (w : World) (p : Agent) (x : ndarray) :
  agent_objs w !! agent = Some p →
  arrays w !! position p = Some x →
  same_shape x strategy = true →
  ∃ (a : loc) (w' : World) (c : Agent) (x' : ndarray),
    _mutate_parent function agent strategy w = Ok (a, w')
    ∧ (a ∉ dom (agent_objs w))
    ∧ agent_objs w' !! a = Some c
    ∧ (position c ∉ dom (arrays w))
    ∧ arrays w' !! position c = Some x'
    ∧ c = with_fit (function x') (with_position (position c) p)
    ∧ (∀ j k v s,
         entry x j k = Some v → entry strategy j k = Some s →
         entry x' j k
         = Some (clip_component (lb p) (ub p) j
                   (v + s * (generate_gaussian_random_number (gen w)).1)%Q))
    ∧ length <$> x' = length <$> x
    ∧ gen w' = (generate_gaussian_random_number (gen w)).2
    ∧ agent_objs w' !! agent = Some p
    ∧ arrays w' !! position p = Some x
    ∧ (∀ l, l ≠ a → agent_objs w' !! l = agent_objs w !! l)
    ∧ (∀ l, l ≠ position c → arrays w' !! l = arrays w !! l)
    ∧ list_objs w' = list_objs w.
Proof.
  intros Hp Hx Hshape.
  pose proof (mutate_parent_step function agent strategy w p x Hp Hx Hshape)
    as Hstep. simpl in Hstep.
  eexists _, _, _, _. split; [exact Hstep|]. fields.
  assert (agent ≠ fresh (dom (agent_objs w))) as Hagent.
  { intros E. pose proof (fresh_agent w) as Hf. rewrite <- E in Hf. congruence. }
  assert (position p ≠ fresh (dom (arrays w))) as Hpos.
  { intros E. pose proof (fresh_array w) as Hf. rewrite <- E in Hf. congruence. }
  split_and!.
  - apply is_fresh.
  - by rewrite lookup_insert_eq.
  - apply is_fresh.
  - by rewrite lookup_insert_eq.
  - done.
  - intros j k v s. apply entry_mutated.
  - unfold mutated. rewrite shape_clip_rows, shape_zip_with; [done|].
    unfold scale. rewrite shape_map_array. by apply same_shape_spec.
  - done.
  - by rewrite lookup_insert_ne.
  - by rewrite lookup_insert_ne.
  - intros l Hl. by rewrite lookup_insert_ne.
  - intros l Hl. by rewrite lookup_insert_ne.
  - done.
Qed.

End MutationFacts.

Section UpdateFacts.
Context `{Random} `{Environment}.
Hypothesis Hshape : gaussian_shape.
Hypothesis Hrange : integer_in_range.

Lemma shape_length (x y : ndarray) :
  length <$> x = length <$> y → length x = length y.
Proof. intros E. by rewrite <- (length_fmap length x), E, length_fmap. Qed.

(** The clipping loop of [_update_strategy] returns when every pair of
    bounds has its row. *)
Lemma clip_strategy_loop (self : Hyper) (bounds : list (Q * Q)) :
  ∀ (j : nat) (ns : ndarray) (w : World),
    (j + length bounds ≤ length ns)%nat →
    ∃ ns', foldS (clip_strategy_row self) j ns bounds w = Ok (ns', w)
           ∧ length <$> ns' = length <$> ns.
Proof.
  induction bounds as [|b bounds IH]; intros j ns w Hlen; cbn [foldS length] in *.
  - by exists ns.
  - destruct (lookup_lt_is_Some_2 ns j) as [row Hrow]; [lia|].
    erewrite bind_Ok; last first.
    { unfold clip_strategy_row. rewrite Hrow. reflexivity. }
    destruct (IH (S j)
                (<[j := (fun v => np_clip b.1 b.2 v * clip_ratio self)%Q <$> row]> ns) w)
      as (ns' & Hrun & Hs); [rewrite length_insert; lia|].
    exists ns'. split; [done|]. rewrite Hs.
    rewrite list_fmap_insert, length_fmap.
    apply list_insert_id. by rewrite list_lookup_fmap, Hrow.
Qed.

Lemma update_strategy_step (self : Hyper) (s : ndarray) (lb ub : list Q)
    (w : World) :
  rectangular s →
  (length (zip lb ub) ≤ length s)%nat →
  ∃ s',
    _update_strategy self s lb ub w =
    Ok (s', with_gen (generate_gaussian_random_array (length s)
                        (length (hd [] s)) (gen w)).2 w)
    ∧ length <$> s' = length <$> s.
Proof.
  intros Hrect Hlen. unfold _update_strategy. rewrite bind_draw.
  set (r1 := (generate_gaussian_random_array _ _ _).1).
  assert (length <$> r1 = length <$> s) as Hr1.
  { unfold r1. rewrite Hshape. by rewrite Hrect. }
  erewrite bind_lift_Ok; last first.
  { apply mul_Ok, same_shape_spec. by rewrite shape_map_array. }
  set (noise := zip_with _ r1 _).
  assert (length <$> noise = length <$> s) as Hnoise.
  { unfold noise. rewrite shape_zip_with; [done|]. by rewrite shape_map_array. }
  erewrite bind_lift_Ok; last first.
  { apply add_Ok, same_shape_spec. by rewrite Hnoise. }
  edestruct (clip_strategy_loop self (zip lb ub) 0) as (s' & Hrun & Hs');
    last first.
  { exists s'. split; [exact Hrun|]. rewrite Hs'. by apply shape_zip_with. }
  simpl. erewrite shape_length; [exact Hlen|]. by apply shape_zip_with.
Qed.

Lemma py_index_nat {A} (xs : list A) (i : nat) (x : A) :
  xs !! i = Some x → py_index xs (Z.of_nat i) = Ok x.
Proof.
  intros Hx. unfold py_index.
  destruct (Z.of_nat i <? 0)%Z eqn:E; [apply Z.ltb_lt in E; lia|].
  rewrite E, Nat2Z.id, Hx. done.
Qed.



Lemma with_gen_id (w : World) : with_gen (gen w) w = w.
Proof. by destruct w. Qed.

Lemma with_gen_with_gen (g g' : rng) (w : World) :
  with_gen g (with_gen g' w) = with_gen g w.
Proof. done. Qed.

Lemma alter_S_insert (wins : list nat) (i c : nat) :
  wins !! i = Some c → alter S i wins = <[i := S c]> wins.
Proof.
  intros Hc. apply list_eq. intros j.
  destruct (decide (i = j)) as [<-|Hne].
  - rewrite list_lookup_alter_eq, Hc, list_lookup_insert_eq; [done|].
    by eapply lookup_lt_Some.
  - by rewrite list_lookup_alter_ne, list_lookup_insert_ne.
Qed.

Lemma count_wins_cons (fits : list Q) (q : Q) (o : Z) (os : list Z) :
  count_wins fits q (o :: os)
  = ((if beats fits q o then 1 else 0) + count_wins fits q os)%nat.
Proof.
  unfold count_wins. simpl. by destruct (beats fits q o).
Qed.

Section Tournament.
Variables (pool : list loc) (fits : list Q) (agents0 : gmap loc Agent).
Hypothesis Hfits :
  Forall2 (fun l q => fit <$> agents0 !! l = Some q) pool fits.

(** One opponent. *)
Lemma bout_step (i : nat) (agent : loc) (wins : list nat) (w : World)
    (a : Agent) (c : nat) :
  agent_objs w = agents0 →
  agent ∈ pool →
  agents0 !! agent = Some a →
  wins !! i = Some c →
  let draw1 :=
    generate_integer_random_number 0 (Z.of_nat (length pool)) (gen w) in
  bout pool i agent wins w
  = Ok (<[i := (c + (if beats fits (fit a) draw1.1 then 1 else 0))%nat]> wins,
        with_gen draw1.2 w).
Proof.
  intros Hw Hin Ha Hc draw1. unfold bout. rewrite bind_draw. fold draw1.
  assert (0 < Z.of_nat (length pool))%Z as Hpos.
  { destruct pool; [by apply elem_of_nil in Hin|simpl; lia]. }
  destruct (Hrange 0%Z (Z.of_nat (length pool)) (gen w) Hpos) as [Hlo Hhi].
  fold draw1 in Hlo, Hhi.
  destruct (lookup_lt_is_Some_2 pool (Z.to_nat draw1.1)) as [opponent Hopp];
    [lia|].
  destruct (Forall2_lookup_l _ _ _ _ _ Hfits Hopp) as (q' & Hq' & Hfit).
  destruct (agents0 !! opponent) as [o|] eqn:Ho; [|done]. simpl in Hfit.
  erewrite bind_get_agent by (fields; by rewrite Hw).
  erewrite bind_lift_Ok; last first.
  { unfold py_index. destruct (draw1.1 <? 0)%Z eqn:E;
      [apply Z.ltb_lt in E; lia|]. rewrite E, Hopp. done. }
  erewrite bind_get_agent by (fields; by rewrite Hw).
  unfold beats. rewrite Hq'. simplify_eq.
  destruct (Qltb (fit a) (fit o)).
  - unfold mret, M_ret. rewrite (alter_S_insert _ _ c) by done.
    do 3 f_equal. lia.
  - unfold mret, M_ret. rewrite Nat.add_0_r.
    by rewrite list_insert_id.
Qed.

(** The opponents of one member. *)
Lemma repeat_bout (i : nat) (agent : loc) (a : Agent) (n : nat) :
  agent ∈ pool →
  agents0 !! agent = Some a →
  ∀ (wins : list nat) (w : World) (c : nat),
    agent_objs w = agents0 →
    wins !! i = Some c →
    let draws := draw_opponents n (Z.of_nat (length pool)) (gen w) in
    repeatS n (bout pool i agent) wins w
    = Ok (<[i := (c + count_wins fits (fit a) draws.1)%nat]> wins,
          with_gen draws.2 w).
Proof.
  intros Hin Ha. induction n as [|n IH]; intros wins w c Hw Hc; simpl.
  - unfold mret, M_ret. rewrite with_gen_id. unfold count_wins. simpl.
    rewrite Nat.add_0_r. by rewrite list_insert_id.
  - erewrite bind_Ok by (by apply (bout_step i agent wins w a c)).
    destruct (generate_integer_random_number 0 (Z.of_nat (length pool)) (gen w))
      as [o g1] eqn:Hdraw. simpl.
    rewrite (IH _ _ (c + (if beats fits (fit a) o then 1 else 0))%nat);
      [|done|apply list_lookup_insert_eq; by eapply lookup_lt_Some].
    fields.
    destruct (draw_opponents n (Z.of_nat (length pool)) g1) as [os g2] eqn:Hos.
    simpl. rewrite list_insert_insert_eq, count_wins_cons.
    do 3 f_equal. lia.
Qed.

(** The members [members], the wins of those before them being [done]. *)
Lemma tournament_loop (n : nat) (members : list loc) :
  ∀ (done : list nat) (member_fits : list Q) (w : World),
    agent_objs w = agents0 →
    (∀ agent, agent ∈ members → agent ∈ pool) →
    Forall2 (fun l q => fit <$> agents0 !! l = Some q) members member_fits →
    foldS (fun i wins agent => repeatS n (bout pool i agent) wins)
      (length done) (done ++ replicate (length members) 0%nat) members w
    = Ok (done ++ (tournament_wins n fits member_fits (gen w)).1,
          with_gen (tournament_wins n fits member_fits (gen w)).2 w).
Proof.
  induction members as [|agent members IH];
    intros done member_fits w Hw Hsub Hmf.
  - apply Forall2_nil_inv_l in Hmf as ->. simpl.
    unfold mret, M_ret. by rewrite with_gen_id.
  - apply Forall2_cons_inv_l in Hmf as (q & rest & Hq & Hrest & ->).
    destruct (agents0 !! agent) as [a|] eqn:Ha; [|done]. simpl in Hq.
    injection Hq as <-. cbn [foldS length replicate].
    erewrite bind_Ok; last first.
    { apply (repeat_bout (length done) agent a n); try done.
      - apply Hsub. left.
      - by rewrite lookup_app_r, Nat.sub_diag. }
    cbn [tournament_wins].
    destruct (draw_opponents n (Z.of_nat (length pool)) (gen w))
      as [os g1] eqn:Hos. simpl.
    assert (Z.of_nat (length fits) = Z.of_nat (length pool)) as Hlen
      by (by rewrite (Forall2_length _ _ _ Hfits)).
    rewrite Hlen, Hos.
    replace (<[length done := count_wins fits (fit a) os]>
               (done ++ 0%nat :: replicate (length members) 0%nat))
      with ((done ++ [count_wins fits (fit a) os])
              ++ replicate (length members) 0%nat); last first.
    { rewrite insert_app_r_alt, Nat.sub_diag by lia. simpl.
      by rewrite <- app_assoc. }
    replace (S (length done))
      with (length (done ++ [count_wins fits (fit a) os]))
      by (rewrite length_app; simpl; lia).
    rewrite (IH _ rest); try done.
    + fields.
      destruct (tournament_wins n fits rest g1) as [ws g2]. simpl.
      by rewrite <- app_assoc.
    + intros agent' Hin. apply Hsub. by right.
Qed.

(** The tournament over the whole pool. *)
Lemma tournament_step (n_individuals : Z) (w : World) :
  agent_objs w = agents0 →
  tournament n_individuals pool w
  = Ok ((tournament_wins (Z.to_nat n_individuals) fits fits (gen w)).1,
        with_gen (tournament_wins (Z.to_nat n_individuals) fits fits (gen w)).2 w).
Proof.
  intros Hw. unfold tournament.
  apply (tournament_loop (Z.to_nat n_individuals) pool [] fits w); done.
Qed.
End Tournament.

(** *** The sort of the selection *)






Lemma length_tournament_wins (n : nat) (fits members : list Q) (g : rng) :
  length (tournament_wins n fits members g).1 = length members.
Proof.
  revert g. induction members as [|q members IH]; intros g; simpl; [done|].
  destruct (draw_opponents n (Z.of_nat (length fits)) g) as [os g1].
  specialize (IH g1). destruct (tournament_wins n fits members g1) as [ws g2].
  simpl in *. by rewrite IH.
Qed.


(** *** The whole of [update] *)


Lemma draw_opponents_spec (n : nat) (size : Z) (g : rng) :
  (0 < size)%Z →
  length (draw_opponents n size g).1 = n
  ∧ Forall (fun o => (0 ≤ o < size)%Z) (draw_opponents n size g).1.
Proof.
  intros Hsize. revert g. induction n as [|n IH]; intros g; simpl.
  - split; [done|constructor].
  - pose proof (Hrange 0%Z size g Hsize) as Ho.
    destruct (generate_integer_random_number 0 size g) as [o g1]. simpl in Ho.
    destruct (IH g1) as [Hlen Hall].
    destruct (draw_opponents n size g1) as [os g2]. simpl in *.
    split; [by rewrite Hlen|by constructor].
Qed.

(** The wins of a member are counted over its own opponents, [n] indices
    of the pool. *)
Lemma tournament_wins_lookup (n : nat) (fits members : list Q) :
  (0 < length fits)%nat →
  ∀ (g : rng) (i : nat) (q : Q),
    members !! i = Some q →
    ∃ opponents,
      length opponents = n
      ∧ Forall (fun o => (0 ≤ o < Z.of_nat (length fits))%Z) opponents
      ∧ (tournament_wins n fits members g).1 !! i
        = Some (count_wins fits q opponents).
Proof.
  intros Hpos. induction members as [|q0 members IH]; intros g i q Hi; [done|].
  simpl.
  destruct (draw_opponents_spec n (Z.of_nat (length fits)) g) as [Hlen Hall];
    [lia|].
  destruct (draw_opponents n (Z.of_nat (length fits)) g) as [os g1].
  simpl in Hlen, Hall.
  destruct i as [|i]; simpl in Hi.
  - injection Hi as ->. exists os.
    destruct (tournament_wins n fits members g1). by split_and!.
  - destruct (IH g1 i q Hi) as (opponents & ? & ? & Hw).
    exists opponents. destruct (tournament_wins n fits members g1).
    by split_and!.
Qed.







End UpdateFacts.

Section RunFacts.
Context `{Random}.

(** C6 (the code at the failing input). [EP.run] does not reach its
    first evaluation: once the strategies are initialised it looks up
    [self._evaluate], which no class defines. First part: on an instance
    whose dictionary does not bind [_evaluate] the run raises and returns
    no History. Second part: for an [EP] instance built from
    hyperparameters without the key [_evaluate], on a space whose
    strategies can be initialised, the exception is the [AttributeError]
    of that lookup, whatever the number of iterations. *)
Theorem run_raises :
  (∀ (self : Py.Obj) (space : Space) (function : ndarray → Q)
     (store_best_only : bool) (w : World),
     Py.dict self !! "_evaluate" = None →
     ∃ e, run self space function store_best_only w = Raise e)
  ∧ (∀ (params : Py.PyVal) (self : Py.Obj) (space : Space)
       (function : ndarray → Q) (store_best_only : bool) (w w1 : World)
       (strategy : list ndarray),
       Py.VStr "_evaluate" ∉ Py.keys params →
       Py.EP_new params = Ok self →
       init_strategy space w = Ok (strategy, w1) →
       run self space function store_best_only w
       = Raise (PyAttributeError "_evaluate")).
Proof.
  split.
  - intros self space function sbo w Hnone. unfold run, mbind, M_bind at 1.
    destruct (init_strategy space w) as [[strategy w1]|e]; [|by exists e].
    assert (Py.getattr self "_evaluate" = Raise (PyAttributeError "_evaluate"))
      as Hget.
    { unfold Py.getattr. rewrite Hnone. by destruct (Py.cls self). }
    rewrite Hget. by eexists.
  - intros params self space function sbo w w1 strategy Hkey Hnew Hinit.
    unfold run. erewrite bind_Ok by exact Hinit.
    rewrite (PyLemmas.EP_new_no_attribute "_evaluate" params self); try done.
    + apply (bool_decide_unpack _). by vm_compute.
    + apply (bool_decide_unpack _). by vm_compute.
Qed.

End RunFacts.

Module ExampleFacts.
Import Example.

Lemma world_population_valid (agent : loc) :
  agent ∈ [1%positive; 2%positive] → is_Some (@value_at counter world agent).
Proof.
  intros Hin. repeat (apply elem_of_cons in Hin as [->|Hin]).
  - by exists [[3%Q]; [4%Q]].
  - by exists [[1%Q]; [2%Q]].
  - by apply elem_of_nil in Hin.
Qed.

Lemma world_best_apart : 3%positive ∉ [1%positive; 2%positive].
Proof. apply (bool_decide_unpack _). by vm_compute. Qed.

Lemma counter_integer_in_range : @integer_in_range counter.
Proof.
  intros low high g Hlt. simpl.
  pose proof (Z.mod_pos_bound g (high - low)). lia.
Qed.

Lemma fmap_const_length {A} (c : nat) (f : A → list Q) (l : list A) :
  (∀ a, length (f a) = c) →
  length <$> (f <$> l) = replicate (length l) c.
Proof.
  intros Hf. induction l as [|a l IH]; [done|].
  rewrite !fmap_cons. cbn [length replicate]. by rewrite Hf, IH.
Qed.

Lemma counter_gaussian_shape : @gaussian_shape counter.
Proof.
  intros n d g. simpl.
  rewrite (fmap_const_length d).
  - by rewrite length_seq.
  - intros i. by rewrite length_fmap, length_seq.
Qed.

Lemma world_strategy_ok :
  @strategy_ok counter world [1%positive; 2%positive] strategy.
Proof.
  intros i agent Hi. destruct i as [|[|i]]; simpl in Hi; simplify_eq.
  - exists (agent_at 1 25%Q), [[3%Q]; [4%Q]], [[1%Q]; [1%Q]].
    split_and!; first [reflexivity | simpl; lia].
  - exists (agent_at 2 5%Q), [[1%Q]; [2%Q]], [[2%Q]; [2%Q]].
    split_and!; first [reflexivity | simpl; lia].
Qed.

End ExampleFacts.

(** Witness for C1: the two agents of [Example.world] are
    evaluated on the sphere function, and the best agent ends with a
    fitness at most the 100 it had. *)
Lemma evaluate_spec_witness :
  ∃ w' b',
    @evaluate Example.counter Example.environment Example.space Example.sphere
      Example.world = Ok (tt, w')
    ∧ agent_objs w' !! 3%positive = Some b'
    ∧ (fit b' <= 100)%Q.
Proof.
  destruct (@evaluate_spec Example.counter Example.environment Example.sphere)
    as [_ Hloop].
  destruct (Hloop Example.space Example.world [1%positive; 2%positive]
              (Example.agent_at 3 100%Q))
    as (w' & b' & Hrun & Hb' & _ & Hle & _).
  - reflexivity.
  - reflexivity.
  - exact ExampleFacts.world_best_apart.
  - exact ExampleFacts.world_population_valid.
  - exists w', b'. split_and!; assumption.
Defined.

(** Witness for C2: one call on [Example.world], and the run of two
    iterations that evaluates it twice. *)
Lemma best_fit_never_increases_witness :
  (∃ w' b',
     @evaluate Example.counter Example.environment Example.space Example.sphere
       Example.world = Ok (tt, w')
     ∧ agent_objs w' !! 3%positive = Some b'
     ∧ (fit b' <= 100)%Q)
  ∧ (∃ q1 q2,
       @run_trace Example.counter Example.environment Example.sphere 3%positive
         Example.world [q1; q2]
       ∧ (q2 <= q1)%Q ∧ (q1 <= 100)%Q).
Proof.
  destruct (@best_fit_never_increases Example.counter Example.environment
              Example.sphere) as [Hcall Hrun].
  split.
  - apply (Hcall Example.space Example.world [1%positive; 2%positive]
             (Example.agent_at 3 100%Q)).
    + reflexivity.
    + reflexivity.
    + exact ExampleFacts.world_best_apart.
    + exact ExampleFacts.world_population_valid.
  - assert (∃ q1 q2,
              @run_trace Example.counter Example.environment Example.sphere
                3%positive Example.world [q1; q2]) as (q1 & q2 & Htrace).
    { eexists _, _.
      eapply (trace_iteration _ _ _ Example.world _ Example.space
                [1%positive; 2%positive]);
        [reflexivity | reflexivity | reflexivity
        | exact ExampleFacts.world_best_apart
        | exact ExampleFacts.world_population_valid
        | vm_compute; reflexivity
        | vm_compute; reflexivity
        | ].
      eapply (trace_iteration _ _ _ _ _ Example.space
                [1%positive; 2%positive]);
        [reflexivity | reflexivity | reflexivity
        | exact ExampleFacts.world_best_apart
        | 
        | vm_compute; reflexivity
        | vm_compute; reflexivity
        | apply trace_done ].
      intros agent Hin. repeat (apply elem_of_cons in Hin as [->|Hin]).
      - by exists [[3%Q]; [4%Q]].
      - by exists [[1%Q]; [2%Q]].
      - by apply elem_of_nil in Hin. }
    exists q1, q2. split; [exact Htrace|].
    destruct (Hrun 3%positive Example.world (Example.agent_at 3 100%Q) [q1; q2])
      as [Hsorted Hbound]; [reflexivity|exact Htrace|].
    split.
    + apply Sorted_inv in Hsorted as [_ Hhd]. by apply HdRel_inv in Hhd.
    + by apply Forall_inv in Hbound.
Defined.

(** Witness for C7: agent 1 of [Example.world] with the
    strategy (1, 1). *)
Lemma mutate_parent_spec_witness :
  ∃ a w',
    @_mutate_parent Example.counter Example.sphere 1%positive [[1%Q]; [1%Q]]
      Example.world = Ok (a, w')
    ∧ agent_objs w' !! 1%positive = Some (Example.agent_at 1 25%Q).
Proof.
  destruct (@mutate_parent_spec Example.counter Example.sphere 1%positive
              [[1%Q]; [1%Q]] Example.world (Example.agent_at 1 25%Q)
              [[3%Q]; [4%Q]])
    as (a & w' & c & x' & Hrun & _ & _ & _ & _ & _ & _ & _ & _ & Hparent & _).
  - reflexivity.
  - reflexivity.
  - reflexivity.
  - exists a, w'. split; assumption.
Defined.

(** C7 as stated fails. With the strategy (1, 1) and the generator that
    counts from 1, [_mutate_parent] moves the parent at (3, 4) by the one
    draw 1 in both variables, to (4, 5); a draw per element, 1 and 2,
    would move it to (4, 6). *)
Lemma mutate_parent_counterexample :
  (∃ a w',
     @_mutate_parent Example.counter Example.sphere 1%positive [[1%Q]; [1%Q]]
       Example.world = Ok (a, w')
     ∧ value_at w' a = Some [[4%Q]; [5%Q]])
  ∧ (∃ a w',
       @mutate_parent_per_element Example.counter Example.sphere 1%positive
         [[1%Q]; [1%Q]] Example.world = Ok (a, w')
       ∧ value_at w' a = Some [[4%Q]; [6%Q]]).
Proof.
  split; eexists _, _; split; vm_compute; reflexivity.
Qed.




(** Witness for C6: [EP()] run on [Example.space]. *)
Lemma run_raises_witness :
  ∃ self,
    Py.EP_new Py.VNone = Ok self
    ∧ @run Example.counter self Example.space Example.sphere true Example.world
      = Raise (PyAttributeError "_evaluate").
Proof.
  destruct (@run_raises Example.counter) as [_ Hraise].
  eexists. split; [reflexivity|].
  eapply (Hraise Py.VNone).
  - simpl. apply not_elem_of_nil.
  - reflexivity.
  - vm_compute. reflexivity.
Defined.

(** ** The small instance, run *)

(** [int] truncates towards zero, a slice stops at the end of the list
    and counts a negative bound from the end, and the sort keeps members
    of equal wins in their order. *)
Example py_int_truncates :
  py_int (-1.5)%Q = (-1)%Z ∧ py_int 1.5%Q = 1%Z ∧ Qfloor (-1.5)%Q = (-2)%Z.
Proof. by vm_compute. Qed.

Example slice_to_examples :
  slice_to 2 [1; 2; 3]%nat = [1; 2]%nat
  ∧ slice_to 5 [1; 2; 3]%nat = [1; 2; 3]%nat
  ∧ slice_to (-1) [1; 2; 3]%nat = [1; 2]%nat.
Proof. by vm_compute. Qed.

Example sorted_desc_is_stable :
  sorted_desc [(1, "a"); (2, "b"); (1, "c"); (2, "d")]%nat
  = [(2, "b"); (2, "d"); (1, "a"); (1, "c")]%nat.
Proof. reflexivity. Qed.

(** [update] on [Example.world] with bout size 0.5: the children 4 and 5
    join the list 1 of the caller, each member meets one opponent, and
    the new list 2 holds the two parents. *)
Example update_example :
  ∃ strategy' w',
    @update Example.counter Example.environment Example.hyper 1%positive 2
      Example.sphere Example.strategy Example.world
    = Ok ((2%positive, strategy'), w')
    ∧ list_objs w' !! 1%positive
      = Some [1%positive; 2%positive; 4%positive; 5%positive]
    ∧ list_objs w' !! 2%positive = Some [1%positive; 2%positive]
    ∧ fitness_at w' <$> [1%positive; 2%positive; 4%positive; 5%positive]
      = [Some 25%Q; Some 5%Q; Some 41%Q; Some 181%Q].
Proof. eexists _, _. split_and!; vm_compute; reflexivity. Qed.

(** The default construction [EP()] and its hyperparameters. *)
Example EP_default_hyper :
  ∃ self, Py.EP_new Py.VNone = Ok self
          ∧ hyper_of self = Some (mkHyper 0.1 0.05).
Proof. eexists. split; reflexivity. Qed.

(** * Further properties *)

(** ** Properties, attributes and [build] *)

Module PyMore.
Import Py PyFacts PyLemmas Assign.

(** A key that a given mapping does not hold. *)
Ltac not_key :=
  let Hin := fresh "Hin" in
  simpl; intros Hin;
  repeat (apply elem_of_cons in Hin as [Hin|Hin]; [by inversion Hin|]);
  by apply elem_of_nil in Hin.

(** X1. A property or attribute that is assigned reads back: when
    [self.name = v] returns, for a name other than [__dict__] (it is
    then accepted by the setter, for a property, and is no attribute of
    the interpreter), [self.name] evaluates to [v], the class is
    unchanged, and every other attribute but [__dict__] that lives in
    another entry of the instance dictionary, in particular every name
    that is not a backing attribute when [name] is none, reads as
    before. *)
Theorem setattr_getattr (name : string) (v : PyVal) (self self' : Obj) :
  name ≠ "__dict__" →
  setattr_name name v self = Ok self' →
  reads self' name v
  ∧ cls self' = cls self
  ∧ (name ∉ interpreter_attributes)
  ∧ (∀ other, other ≠ "__dict__" →
       slot (cls self) other ≠ slot (cls self) name →
       getattr self' other = getattr self other)
  ∧ (∀ other, other ≠ "__dict__" → other ≠ name →
       other ∉ backing_names → name ∉ backing_names →
       getattr self' other = getattr self other).
Proof.
  intros _ Hset. pose proof (setattr_name_ordinary _ _ _ _ Hset) as Hord.
  apply setattr_name_store in Hset. subst self'.
  assert (∀ other, slot (cls self) other ≠ slot (cls self) name →
            getattr (store (slot (cls self) name) v self) other
            = getattr self other) as Hframe.
  { intros other Hne. unfold getattr, slot in *. simpl.
    destruct (property (cls self) other) as [[backing setter]|];
      by rewrite lookup_insert_ne. }
  split_and!.
  - apply getattr_slot; [done|]. simpl. by rewrite lookup_insert_eq.
  - done.
  - done.
  - intros other _. apply Hframe.
  - intros other _ Hne Ho Hn. apply Hframe. intros E.
    by apply slot_inj in E.
Qed.

(** Witness for X1: [self.bout_size = 0.3] on the instance [EP.__init__]
    hands to [build]. *)
Lemma setattr_getattr_witness :
  reads (store "_bout_size" (VFloat 0.3) EP_defaults) "bout_size" (VFloat 0.3).
Proof.
  apply (setattr_getattr "bout_size" (VFloat 0.3) EP_defaults);
    [discriminate|reflexivity].
Defined.

(** X2. The backing attribute of a property is an ordinary attribute:
    for every property of a class, assigning its backing attribute is
    never refused, whatever the value, and the property then reads that
    value. *)
Theorem backing_attribute_unvalidated (c : Class) (name backing : string)
    (setter : PyVal → Obj → result Obj) (v : PyVal) (self : Obj) :
  cls self = c →
  property c name = Some (backing, setter) →
  setattr_name backing v self = Ok (store backing v self)
  ∧ reads (store backing v self) name v.
Proof.
  intros <- Hprop.
  assert (setattr_name backing v self = Ok (store backing v self)) as Hset.
  { revert Hprop. unfold setattr_name, property, ep_property, optimizer_property.
    destruct (cls self); case_name; intros; by simplify_eq. }
  split; [exact Hset|].
  unfold reads, getattr. simpl. rewrite Hprop. simpl.
  by rewrite lookup_insert_eq.
Qed.

(** Witness for X2: [self._clip_ratio = "x"] on an [EP] instance. *)
Lemma backing_attribute_unvalidated_witness :
  setattr_name "_clip_ratio" (VStr "x") EP_defaults
  = Ok (store "_clip_ratio" (VStr "x") EP_defaults)
  ∧ reads (store "_clip_ratio" (VStr "x") EP_defaults) "clip_ratio" (VStr "x").
Proof.
  apply (backing_attribute_unvalidated EP "clip_ratio" "_clip_ratio"
           set_clip_ratio); reflexivity.
Defined.

(** X3. The [clip_ratio] setter raises [ValueError] on every int or
    float below 0 or above 1, the infinities included, raises
    [TypeError] on every value that is neither int nor float, and binds
    every number of [0,1] and also the float nan, which is neither below
    0 nor above 1; every [EP] instance constructed from hyperparameters
    that name neither the backing attribute [_clip_ratio] nor [__dict__]
    has a [clip_ratio] that is a number of [0,1] or nan. *)
Theorem clip_ratio_validated :
  (∀ v q self, as_number v = Some q → (q < 0 ∨ 1 < q)%Q →
     set_clip_ratio v self
     = Raise (ValueError "`clip_ratio` should be between 0 and 1"))
  ∧ (∀ negative self,
     set_clip_ratio (VInf negative) self
     = Raise (ValueError "`clip_ratio` should be between 0 and 1"))
  ∧ (∀ v self, is_number v = false →
     set_clip_ratio v self
     = Raise (TypeError "`clip_ratio` should be a float or integer"))
  ∧ (∀ v self, unit_or_nan v →
     set_clip_ratio v self = Ok (store "_clip_ratio" v self))
  ∧ (∀ params self,
     VStr "_clip_ratio" ∉ keys params → VStr "__dict__" ∉ keys params →
     EP_new params = Ok self →
     ∃ v, reads self "clip_ratio" v ∧ unit_or_nan v).
Proof.
  split_and!.
  - intros v q self Hq Hout. unfold set_clip_ratio.
    destruct (compare_finite v q Hq) as [-> ->].
    apply out_of_unit in Hout. by rewrite Hout.
  - by intros [|] self.
  - intros v self Hv. unfold set_clip_ratio. by rewrite Hv.
  - intros v self [->|(q & Hq & Hin)]; [done|]. unfold set_clip_ratio.
    destruct (compare_finite v q Hq) as [-> ->].
    apply in_unit in Hin. by rewrite Hin.
  - intros params self Hkey _ Hnew. rewrite EP_new_build in Hnew.
    assert (("clip_ratio", "_clip_ratio") ∈ unit_properties) as Hpb.
    { unfold unit_properties. apply elem_of_cons. right.
      apply elem_of_cons. by left. }
    destruct (build_unit_attribute "clip_ratio" "_clip_ratio" params
                EP_defaults self) as [Hcls (v & Hv & Hr)]; try done.
    { by apply (EP_defaults_unit_attribute "clip_ratio"). }
    exists v. split; [|done].
    apply getattr_slot; [|by rewrite Hcls].
    apply (bool_decide_unpack _). by vm_compute.
Qed.

(** Witness for X3: 2 and [None] at the setter, and [EP({"clip_ratio":
    0.5})]. *)
Lemma clip_ratio_validated_witness :
  set_clip_ratio (VInt 2) EP_defaults
  = Raise (ValueError "`clip_ratio` should be between 0 and 1")
  ∧ set_clip_ratio VNone EP_defaults
    = Raise (TypeError "`clip_ratio` should be a float or integer")
  ∧ ∃ self v,
      EP_new (VDict [(VStr "clip_ratio", VFloat 0.5)]) = Ok self
      ∧ reads self "clip_ratio" v ∧ unit_or_nan v.
Proof.
  destruct clip_ratio_validated as (H1 & _ & H2 & _ & H4).
  split_and!.
  - apply (H1 _ 2%Q); [reflexivity|]. right. reflexivity.
  - apply H2. reflexivity.
  - destruct (H4 (VDict [(VStr "clip_ratio", VFloat 0.5)])
                (store "_built" (VBool true)
                   (store "_clip_ratio" (VFloat 0.5)
                      (store "_params" (VDict [(VStr "clip_ratio", VFloat 0.5)])
                         EP_defaults))))
      as (v & Hv & Hr).
    + not_key.
    + not_key.
    + reflexivity.
    + eexists _, v. split; [reflexivity|]. tauto.
Defined.

(** What the loop of [build] leaves in an entry no key is bound to. *)
Lemma build_keeps_entry (s : string) (params : PyVal) (self self' : Obj) :
  s ≠ "_params" → s ≠ "_built" →
  (∀ k, VStr k ∈ keys params → slot (cls self) k ≠ s) →
  build params self = Ok self' →
  cls self' = cls self ∧ dict self' !! s = dict self !! s.
Proof.
  intros Hp Hb Hkeys Hbuild. unfold build in Hbuild.
  destruct (truthy params) eqn:Ht.
  - rewrite setattr_params in Hbuild. unfold set_params in Hbuild.
    destruct params as [| | | | | |d| |]; try done. simpl in Hbuild, Hkeys.
    unfold mbind, result_bind in Hbuild.
    destruct (foldM _ _ _) as [self1|] eqn:Hloop; [|done].
    apply build_tail_inv in Hbuild. subst self'.
    apply foldM_setattr_spec in Hloop as (Hc & Hframe & _). simpl in Hc.
    split; [done|]. simpl. rewrite lookup_insert_ne by done.
    rewrite Hframe by done. simpl. by rewrite lookup_insert_ne.
  - simpl in Hbuild. apply build_tail_inv in Hbuild. subst self'.
    split; [done|]. simpl. by rewrite lookup_insert_ne.
Qed.

Lemma slot_EP_cases (k s : string) :
  slot EP k = s → k = s ∨ ∃ setter, property EP k = Some (s, setter).
Proof.
  unfold slot. destruct (property EP k) as [[backing setter]|] eqn:E.
  - intros <-. right. by exists setter.
  - by left.
Qed.

(** X4. Hyperparameters the mapping does not mention keep the values of
    [EP.__init__]: an [EP] instance constructed from [params], a mapping
    without the key [__dict__], reads
    [bout_size] 0.1 when [params] names neither [bout_size] nor
    [_bout_size], [clip_ratio] 0.05 and [algorithm] "EP" likewise; and
    [params] itself is kept, when it is a non-empty dict that names
    neither [params] nor [_params], while a falsy [params] leaves the
    empty dict of [Optimizer.__init__]. *)
Theorem EP_new_defaults (params : PyVal) (self : Obj) :
  VStr "__dict__" ∉ keys params →
  EP_new params = Ok self →
  (VStr "bout_size" ∉ keys params → VStr "_bout_size" ∉ keys params →
     reads self "bout_size" (VFloat 0.1))
  ∧ (VStr "clip_ratio" ∉ keys params → VStr "_clip_ratio" ∉ keys params →
     reads self "clip_ratio" (VFloat 0.05))
  ∧ (VStr "algorithm" ∉ keys params → VStr "_algorithm" ∉ keys params →
     reads self "algorithm" (VStr "EP"))
  ∧ (truthy params = true →
     VStr "params" ∉ keys params → VStr "_params" ∉ keys params →
     reads self "params" params)
  ∧ (truthy params = false → reads self "params" (VDict []))
  ∧ reads self "built" (VBool true).
Proof.
  intros _ Hnew. rewrite EP_new_build in Hnew.
  assert (∀ name backing v0,
            name ∉ interpreter_attributes →
            slot EP name = backing →
            (∀ k, slot EP k = backing → k = name ∨ k = backing) →
            backing ≠ "_params" → backing ≠ "_built" →
            dict EP_defaults !! backing = Some v0 →
            VStr name ∉ keys params → VStr backing ∉ keys params →
            reads self name v0) as Hkeep.
  { intros name backing v0 Hord Hslot Hcases Hp Hb Hv0 Hn Hbk.
    destruct (build_keeps_entry backing params EP_defaults self)
      as [Hcls Hd]; try done.
    - intros k Hk E. destruct (Hcases k E) as [->| ->]; done.
    - apply getattr_slot; [done|].
      rewrite Hcls. simpl cls. rewrite Hslot. congruence. }
  split_and!.
  - apply (Hkeep "bout_size" "_bout_size"); try done.
    { apply (bool_decide_unpack _). by vm_compute. }
    intros k. unfold slot, property, ep_property, optimizer_property.
    case_name; intros; simplify_eq; auto.
  - apply (Hkeep "clip_ratio" "_clip_ratio"); try done.
    { apply (bool_decide_unpack _). by vm_compute. }
    intros k. unfold slot, property, ep_property, optimizer_property.
    case_name; intros; simplify_eq; auto.
  - apply (Hkeep "algorithm" "_algorithm"); try done.
    { apply (bool_decide_unpack _). by vm_compute. }
    intros k. unfold slot, property, ep_property, optimizer_property.
    case_name; intros; simplify_eq; auto.
  - intros Ht Hn Hbk. unfold build in Hnew. rewrite Ht in Hnew.
    rewrite setattr_params in Hnew. unfold set_params in Hnew.
    destruct params as [| | | | | |d| |]; try done. simpl in Hnew, Hn, Hbk.
    unfold mbind, result_bind in Hnew.
    destruct (foldM _ _ _) as [self1|] eqn:Hloop; [|done].
    apply build_tail_inv in Hnew. subst self.
    apply foldM_setattr_spec in Hloop as (Hc & Hframe & _). simpl in Hc.
    apply getattr_slot.
    { apply (bool_decide_unpack _). by vm_compute. }
    simpl. rewrite Hc. simpl.
    rewrite lookup_insert_ne by done. rewrite Hframe.
    + simpl. by rewrite lookup_insert_eq.
    + simpl. intros k Hk.
      unfold slot, property, ep_property, optimizer_property.
      case_name; try done. by intros ->.
  - intros Hf. rewrite build_falsy in Hnew by done.
    apply build_tail_inv in Hnew. by subst self.
  - unfold build in Hnew. unfold mbind, result_bind in Hnew.
    destruct (if truthy params then _ else _) as [self1|]; [|done].
    apply build_tail_inv in Hnew. subst self.
    apply getattr_built. simpl. by rewrite lookup_insert_eq.
Qed.

(** Witness for X4: [EP({"clip_ratio": 0.5})] keeps the bout size 0.1. *)
Lemma EP_new_defaults_witness :
  ∃ self,
    EP_new (VDict [(VStr "clip_ratio", VFloat 0.5)]) = Ok self
    ∧ reads self "bout_size" (VFloat 0.1)
    ∧ reads self "params" (VDict [(VStr "clip_ratio", VFloat 0.5)]).
Proof.
  eexists. split; [reflexivity|].
  destruct (EP_new_defaults (VDict [(VStr "clip_ratio", VFloat 0.5)]) _
              ltac:(not_key) eq_refl)
    as (Hb & _ & _ & Hp & _).
  split.
  - apply Hb; not_key.
  - apply Hp; [reflexivity|..]; not_key.
Defined.

(** *** [build] as a sequence of bindings *)

Lemma assign_union (l : list (string * PyVal)) :
  ∀ m, assign m l = list_to_map (rev l) ∪ m.
Proof.
  unfold assign. induction l as [|[k v] l IH]; intros m; simpl.
  - by rewrite (left_id_L ∅ (∪)).
  - rewrite IH, list_to_map_app. simpl.
    rewrite insert_empty, insert_union_singleton_l.
    by rewrite (assoc_L (∪)).
Qed.

Lemma assign_idemp (l : list (string * PyVal)) (m : gmap string PyVal) :
  assign (assign m l) l = assign m l.
Proof.
  rewrite !assign_union. rewrite (assoc_L (∪)). by rewrite (idemp_L (∪)).
Qed.

Lemma assign_app (l k : list (string * PyVal)) (m : gmap string PyVal) :
  assign m (l ++ k) = assign (assign m l) k.
Proof. unfold assign. apply foldl_app. Qed.

Lemma foldM_setattr_assign (d : list (PyVal * PyVal)) :
  ∀ self self',
    foldM setattr_item self d = Ok self' →
    self' = mkObj (cls self) (assign (dict self) (assignments (cls self) d)).
Proof.
  induction d as [|[k v] d IH]; intros self self' Hrun; simpl in Hrun.
  - inversion Hrun; subst. by destruct self'.
  - destruct (setattr_item self (k, v)) as [self1|] eqn:H0; [|done].
    unfold setattr_item, setattr in H0; simpl in H0.
    destruct k as [| | | |name| | | |]; try done.
    apply setattr_name_store in H0. subst self1.
    by rewrite (IH _ _ Hrun).
Qed.

Lemma getattr_algorithm_None (self : Obj) :
  dict self !! "_algorithm" = None →
  getattr self "algorithm" = Raise (PyAttributeError "_algorithm").
Proof. intros E. unfold getattr. destruct (cls self); simpl; by rewrite E. Qed.

Lemma build_tail_initialised (self self' : Obj) :
  build_tail self = Ok self' → initialised self'.
Proof.
  intros Hb. pose proof (build_tail_inv _ _ Hb) as ->.
  unfold build_tail in Hb. rewrite setattr_built in Hb. simpl in Hb.
  unfold mbind, result_bind in Hb. unfold initialised.
  destruct (dict (store "_built" (VBool true) self) !! "_algorithm") eqn:E;
    [by eexists|].
  by rewrite (getattr_algorithm_None _ E) in Hb.
Qed.

(** What [build] writes: the bindings [build_assignments], in order. *)
Lemma build_assign (params : PyVal) (self self' : Obj) :
  build params self = Ok self' →
  self' = mkObj (cls self)
            (assign (dict self) (build_assignments (cls self) params)).
Proof.
  intros Hbuild. unfold build, build_assignments in *.
  destruct (truthy params) eqn:Ht.
  - rewrite setattr_params in Hbuild. unfold set_params in Hbuild.
    destruct params as [| | | | | |d| |]; try done. simpl in Hbuild.
    unfold mbind, result_bind in Hbuild.
    destruct (foldM _ _ _) as [self1|] eqn:Hloop; [|done].
    apply build_tail_inv in Hbuild. subst self'.
    apply foldM_setattr_assign in Hloop. subst self1.
    simpl. rewrite assign_app. reflexivity.
  - simpl in Hbuild. apply build_tail_inv in Hbuild. by subst self'.
Qed.

(** X5. [build] is idempotent: when [build(params)] returns on an
    instance, for [params] without the key [__dict__], calling it again
    with the same [params] returns and changes nothing. *)
Theorem build_idempotent (params : PyVal) (self self' : Obj) :
  VStr "__dict__" ∉ keys params →
  build params self = Ok self' → build params self' = Ok self'.
Proof.
  intros _ Hbuild.
  assert (initialised self') as Hinit.
  { unfold build in Hbuild. unfold mbind, result_bind in Hbuild.
    destruct (if truthy params then _ else _) as [self1|]; [|done].
    by apply build_tail_initialised in Hbuild. }
  pose proof (build_assign _ _ _ Hbuild) as Hself'.
  assert (cls self' = cls self) as Hcls by (by subst self').
  assert (∃ self'', build params self' = Ok self'') as [self'' Hagain].
  { destruct (truthy params) eqn:Ht.
    - destruct params as [| | | | | |d| |];
        try (unfold build in Hbuild; rewrite Ht, setattr_params in Hbuild;
             done).
      destruct d as [|kv d]; [done|].
      rewrite build_truthy_dict in * by done.
      unfold mbind, result_bind in Hbuild.
      destruct (foldM setattr_item _ _) as [self1|] eqn:Hloop in Hbuild; [|done].
      destruct (proj2 (foldM_setattr_accepted (kv :: d)
                        (store "_params" (VDict (kv :: d)) self')))
        as [self2 Hloop2].
      { simpl cls. rewrite Hcls.
        apply (proj1 (foldM_setattr_accepted (kv :: d)
                        (store "_params" (VDict (kv :: d)) self))).
        by exists self1. }
      rewrite Hloop2. simpl. unfold mbind, result_bind.
      rewrite build_tail_ok; [by eexists|].
      eapply foldM_setattr_dom; [exact Hloop2|].
      destruct Hinit as [a Ha]. exists a. simpl. by rewrite lookup_insert_ne.
    - rewrite build_falsy by done. rewrite build_tail_ok by done. by eexists. }
  pose proof (build_assign _ _ _ Hagain) as E. rewrite Hagain, E.
  clear Hagain E Hinit Hcls Hbuild. subst self'. simpl.
  do 2 f_equal. apply assign_idemp.
Qed.

(** Witness for X5: [build({"bout_size": 0.3})] on an [EP] instance. *)
Lemma build_idempotent_witness :
  ∃ self',
    build (VDict [(VStr "bout_size", VFloat 0.3)]) EP_defaults = Ok self'
    ∧ build (VDict [(VStr "bout_size", VFloat 0.3)]) self' = Ok self'.
Proof.
  eexists. split; [reflexivity|].
  apply (build_idempotent _ EP_defaults); [not_key|reflexivity].
Defined.

End PyMore.

(** ** Evaluation *)

Section EvaluationMore.
Context `{Random} `{Environment}.
Import PyFacts.

(** X6. What [Optimizer.evaluate] leaves alone: the lists, the random
    generator, the contents of every array that existed, every agent
    that is neither in the population nor the best agent, and, of the
    agents of the population, everything but the fitness (position,
    bounds, timestamp). *)
Theorem evaluate_frame (space : Space) (function : ndarray → Q) (w : World)
    (population : list loc) (b : Agent) :
  list_objs w !! agents space = Some population →
  agent_objs w !! best_agent space = Some b →
  best_agent space ∉ population →
  (∀ agent, agent ∈ population → is_Some (value_at w agent)) →
  ∃ w',
    evaluate space function w = Ok (tt, w')
    ∧ list_objs w' = list_objs w
    ∧ gen w' = gen w
    ∧ (∀ l x, arrays w !! l = Some x → arrays w' !! l = Some x)
    ∧ (∀ agent, agent ≠ best_agent space → agent ∉ population →
         agent_objs w' !! agent = agent_objs w !! agent)
    ∧ (∀ agent a, agent ∈ population → agent_objs w !! agent = Some a →
         ∃ a', agent_objs w' !! agent = Some a'
               ∧ position a' = position a ∧ lb a' = lb a ∧ ub a' = ub a
               ∧ ts a' = ts a
               ∧ n_variables a' = n_variables a
               ∧ n_dimensions a' = n_dimensions a).
Proof.
  intros Hlist Hb Hbest Hvalid.
  destruct (evaluate_loop function (best_agent space) population w b)
    as (w' & b' & Hrun & Hb' & Hsub & Hlists & Hgen & Hframe & Hfits & _);
    try done.
  exists w'. split_and!; try done.
  - unfold evaluate. by rewrite (bind_get_list _ _ _ population).
  - intros l x Hx. by eapply lookup_weaken.
  - intros agent a Hin Ha.
    destruct (Hfits agent Hin) as (a0 & x & Ha0 & Hx & Ha').
    simplify_eq. eexists. split; [exact Ha'|]. by destruct a.
Qed.

(** The loop of [evaluate] over agents whose fitness is already that of
    their position and not below the best: nothing changes. *)
Lemma evaluate_loop_stable (function : ndarray → Q) (best : loc)
    (l : list loc) (w : World) (b : Agent) :
  agent_objs w !! best = Some b →
  best ∉ l →
  (∀ agent, agent ∈ l →
     ∃ a x, agent_objs w !! agent = Some a
            ∧ arrays w !! position a = Some x
            ∧ fit a = function x
            ∧ (fit b <= function x)%Q) →
  forS (evaluate_agent function best) l w = Ok (tt, w).
Proof.
  intros Hb. induction l as [|agent l IH]; intros Hbest Hvalid; [done|].
  apply not_elem_of_cons in Hbest as [Hne Hbest].
  destruct (Hvalid agent) as (a & x & Ha & Hx & Hfit & Hle); [left|].
  rewrite forS_cons.
  erewrite bind_Ok; last first.
  { rewrite (evaluate_agent_step function best agent w a b x) by done.
    apply Qltb_ge in Hle. rewrite Hle. rewrite <- Hfit.
    replace (with_fit (fit a) a) with a by (by destruct a).
    rewrite insert_id by done. by destruct w. }
  apply IH; [done|]. intros agent' Hin. apply Hvalid. by right.
Qed.

(** X7. Evaluating twice is evaluating once: after [evaluate] has
    returned, a second call on the same space with the same function
    returns and changes nothing, neither a fitness, nor the best agent,
    nor the clock. *)
Theorem evaluate_twice (space : Space) (function : ndarray → Q) (w : World)
    (population : list loc) (b : Agent) :
  list_objs w !! agents space = Some population →
  agent_objs w !! best_agent space = Some b →
  best_agent space ∉ population →
  (∀ agent, agent ∈ population → is_Some (value_at w agent)) →
  ∃ w',
    evaluate space function w = Ok (tt, w')
    ∧ evaluate space function w' = Ok (tt, w').
Proof.
  intros Hlist Hb Hbest Hvalid.
  destruct (evaluate_loop function (best_agent space) population w b)
    as (w' & b' & Hrun & Hb' & Hsub & Hlists & Hgen & Hframe & Hfits & _
        & Hmin & _); try done.
  exists w'. split.
  - unfold evaluate. by rewrite (bind_get_list _ _ _ population).
  - unfold evaluate.
    rewrite (bind_get_list _ _ _ population) by (by rewrite Hlists).
    apply (evaluate_loop_stable function (best_agent space) population w' b');
      try done.
    intros agent Hin. destruct (Hfits agent Hin) as (a & x & Ha & Hx & Ha').
    exists (with_fit (function x) a), x. split_and!; try done.
    + fields. by eapply lookup_weaken.
    + apply (Hmin agent x Hin). apply value_at_Some. by exists a.
Qed.

(** X8. The best agent must not be one of the agents evaluated: when
    [evaluate] meets the best agent itself in the population, it
    overwrites the recorded fitness with the fitness of the recorded
    position, whether lower or higher, and changes nothing else. *)
Theorem evaluate_agent_aliased (function : ndarray → Q) (best : loc)
    (w : World) (b : Agent) (x : ndarray) :
  agent_objs w !! best = Some b →
  arrays w !! position b = Some x →
  evaluate_agent function best best w
  = Ok (tt, mkWorld (arrays w) (<[best := with_fit (function x) b]> (agent_objs w))
              (list_objs w) (gen w) (ticks w)).
Proof.
  intros Hb Hx. unfold evaluate_agent.
  rewrite (bind_get_agent _ _ _ b) by done.
  rewrite (bind_get_array _ _ _ x) by done.
  rewrite bind_set_agent.
  rewrite (bind_get_agent _ _ _ (with_fit (function x) b))
    by (fields; by rewrite lookup_insert_eq).
  rewrite (bind_get_agent _ _ _ (with_fit (function x) b))
    by (fields; by rewrite lookup_insert_eq).
  fields.
  assert (Qltb (function x) (function x) = false) as ->
    by (apply Qltb_ge, Qle_refl).
  done.
Qed.

End EvaluationMore.

(** Witness for X6: [Example.world]. *)
Lemma evaluate_frame_witness :
  ∃ w',
    @evaluate Example.counter Example.environment Example.space Example.sphere
      Example.world = Ok (tt, w')
    ∧ list_objs w' = list_objs Example.world
    ∧ gen w' = gen Example.world.
Proof.
  destruct (@evaluate_frame Example.counter Example.environment Example.space
              Example.sphere Example.world [1%positive; 2%positive]
              (Example.agent_at 3 100%Q))
    as (w' & Hrun & Hlists & Hgen & _).
  - reflexivity.
  - reflexivity.
  - exact ExampleFacts.world_best_apart.
  - exact ExampleFacts.world_population_valid.
  - exists w'. by split_and!.
Defined.

(** Witness for X7: [Example.world]. *)
Lemma evaluate_twice_witness :
  ∃ w',
    @evaluate Example.counter Example.environment Example.space Example.sphere
      Example.world = Ok (tt, w')
    ∧ @evaluate Example.counter Example.environment Example.space
        Example.sphere w' = Ok (tt, w').
Proof.
  apply (@evaluate_twice Example.counter Example.environment Example.space
           Example.sphere Example.world [1%positive; 2%positive]
           (Example.agent_at 3 100%Q)).
  - reflexivity.
  - reflexivity.
  - exact ExampleFacts.world_best_apart.
  - exact ExampleFacts.world_population_valid.
Defined.

(** Witness for X8: the best agent of [Example.world], on record with
    the fitness 100 at the position (0, 0), evaluated as if it were a
    member: its fitness becomes 0. *)
Lemma evaluate_agent_aliased_witness :
  ∃ w',
    @evaluate_agent Example.counter Example.environment Example.sphere
      3%positive 3%positive Example.world = Ok (tt, w')
    ∧ fitness_at w' 3%positive = Some 0%Q.
Proof.
  eexists. split.
  - apply (@evaluate_agent_aliased Example.counter Example.environment
             Example.sphere 3%positive Example.world
             (Example.agent_at 3 100%Q) [[0%Q]; [0%Q]]); reflexivity.
  - reflexivity.
Defined.

(** ** The strategies of EP *)

Section StrategyMore.
Context `{Random} `{Environment}.
Hypothesis Hshape : gaussian_shape.

(** The clipping loop, row by row. *)
Lemma clip_strategy_loop_rows (self : Hyper) (bounds : list (Q * Q)) :
  ∀ (j : nat) (ns : ndarray) (w : World),
    (j + length bounds ≤ length ns)%nat →
    ∃ ns',
      foldS (clip_strategy_row self) j ns bounds w = Ok (ns', w)
      ∧ ∀ i, ns' !! i
             = (fun row : list Q =>
                  if decide (j ≤ i)%nat then
                    match bounds !! (i - j)%nat with
                    | Some b =>
                        (fun v => np_clip b.1 b.2 v * clip_ratio self)%Q <$> row
                    | None => row
                    end
                  else row) <$> ns !! i.
Proof.
  induction bounds as [|b bounds IH]; intros j ns w Hlen; cbn [foldS length] in *.
  - exists ns. split; [done|]. intros i.
    destruct (ns !! i) as [row|]; simpl; [|done].
    case_decide; by rewrite ?lookup_nil.
  - destruct (lookup_lt_is_Some_2 ns j) as [row Hrow]; [lia|].
    erewrite bind_Ok; last first.
    { unfold clip_strategy_row. rewrite Hrow. reflexivity. }
    destruct (IH (S j)
                (<[j := (fun v => np_clip b.1 b.2 v * clip_ratio self)%Q <$> row]> ns) w)
      as (ns' & Hrun & Hrows); [rewrite length_insert; lia|].
    exists ns'. split; [done|]. intros i. rewrite Hrows.
    destruct (decide (i = j)) as [->|Hne].
    + rewrite list_lookup_insert_eq by (by eapply lookup_lt_Some).
      rewrite Hrow. simpl. rewrite decide_False by lia.
      rewrite decide_True by lia. by rewrite Nat.sub_diag.
    + rewrite list_lookup_insert_ne by done.
      destruct (ns !! i) as [row'|]; simpl; [|done]. f_equal.
      destruct (decide (S j ≤ i)%nat).
      * rewrite decide_True by lia.
        by replace (i - j)%nat with (S (i - S j)) by lia.
      * by rewrite decide_False by lia.
Qed.

Lemma clip_strategy_loop_spec (self : Hyper) (bounds : list (Q * Q))
    (ns : ndarray) (w : World) :
  (length bounds ≤ length ns)%nat →
  foldS (clip_strategy_row self) 0 ns bounds w
  = Ok (clip_strategy self bounds ns, w).
Proof.
  intros Hlen.
  destruct (clip_strategy_loop_rows self bounds 0 ns w) as (ns' & Hrun & Hrows);
    [lia|].
  rewrite Hrun. do 2 f_equal. apply list_eq. intros i.
  rewrite Hrows. unfold clip_strategy. rewrite list_lookup_imap.
  destruct (ns !! i); [|done]. cbn [fmap option_fmap option_map].
  f_equal. by rewrite Nat.sub_0_r.
Qed.

(** The clipping loop stops at the first pair of bounds without a row. *)
Lemma clip_strategy_loop_raises (self : Hyper) (bounds : list (Q * Q)) :
  ∀ (j : nat) (ns : ndarray) (w : World),
    (j ≤ length ns)%nat →
    (length ns < j + length bounds)%nat →
    foldS (clip_strategy_row self) j ns bounds w = Raise PyIndexError.
Proof.
  induction bounds as [|b bounds IH]; intros j ns w Hj Hlen;
    cbn [foldS length] in *; [lia|].
  destruct (ns !! j) as [row|] eqn:Hrow.
  - erewrite bind_Ok; last first.
    { unfold clip_strategy_row. rewrite Hrow. reflexivity. }
    apply lookup_lt_Some in Hrow.
    apply IH; rewrite length_insert; lia.
  - unfold mbind, M_bind, clip_strategy_row. by rewrite Hrow.
Qed.

Lemma entry_zip_with (f : Q → Q → Q) (x y : ndarray) (j k : nat) (v r : Q) :
  entry x j k = Some v → entry y j k = Some r →
  entry (zip_with (zip_with f) x y) j k = Some (f v r).
Proof.
  unfold entry. intros Hv Hr. rewrite lookup_zip_with.
  destruct (x !! j) as [rx|]; [|done]. destruct (y !! j) as [ry|]; [|done].
  simpl in *. by rewrite lookup_zip_with, Hv, Hr.
Qed.

Lemma entry_map_array (f : Q → Q) (x : ndarray) (j k : nat) (v : Q) :
  entry x j k = Some v → entry (map_array f x) j k = Some (f v).
Proof.
  unfold entry, map_array. intros Hv. rewrite list_lookup_fmap.
  destruct (x !! j) as [rx|]; [|done]. simpl in *.
  by rewrite list_lookup_fmap, Hv.
Qed.

Lemma entry_same_shape (x y : ndarray) (j k : nat) (v : Q) :
  length <$> x = length <$> y →
  entry x j k = Some v → is_Some (entry y j k).
Proof.
  unfold entry. intros Hs Hv.
  destruct (x !! j) as [rx|] eqn:Hx; [|done]. simpl in Hv.
  assert ((length <$> y) !! j = Some (length rx)) as Hy
    by (by rewrite <- Hs, list_lookup_fmap, Hx).
  rewrite list_lookup_fmap in Hy.
  destruct (y !! j) as [ry|]; [|done]. simpl in *.
  apply lookup_lt_is_Some_2. apply lookup_lt_Some in Hv.
  injection Hy as Hy. lia.
Qed.

Lemma entry_clip_strategy (self : Hyper) (bounds : list (Q * Q))
    (x : ndarray) (j k : nat) (v : Q) :
  entry x j k = Some v →
  entry (clip_strategy self bounds x) j k
  = Some (match bounds !! j with
          | Some b => (np_clip b.1 b.2 v * clip_ratio self)%Q
          | None => v
          end).
Proof.
  unfold entry, clip_strategy. intros Hv. rewrite list_lookup_imap.
  destruct (x !! j) as [rx|]; [|done]. simpl in *.
  destruct (bounds !! j) as [b|]; [|done].
  by rewrite list_lookup_fmap, Hv.
Qed.

(** [_update_strategy], element by element. *)
Lemma update_strategy_entries (self : Hyper) (strategy : ndarray)
    (lower_bound upper_bound : list Q) (w : World) :
  rectangular strategy →
  (length (zip lower_bound upper_bound) ≤ length strategy)%nat →
  let draws :=
    generate_gaussian_random_array (length strategy)
      (length (hd [] strategy)) (gen w) in
  ∃ new_strategy,
    _update_strategy self strategy lower_bound upper_bound w
    = Ok (new_strategy, with_gen draws.2 w)
    ∧ length <$> new_strategy = length <$> strategy
    ∧ ∀ j k v, entry strategy j k = Some v →
        ∃ r, entry draws.1 j k = Some r
             ∧ entry new_strategy j k
               = Some (match zip lower_bound upper_bound !! j with
                       | Some b =>
                           (np_clip b.1 b.2 (perturbed v r) * clip_ratio self)%Q
                       | None => perturbed v r
                       end).
Proof.
  intros Hrect Hlen draws. unfold _update_strategy. rewrite bind_draw.
  fold draws.
  assert (length <$> draws.1 = length <$> strategy) as Hr1.
  { unfold draws. rewrite Hshape. by rewrite Hrect. }
  erewrite bind_lift_Ok; last first.
  { apply mul_Ok, same_shape_spec. by rewrite shape_map_array. }
  set (noise := zip_with _ draws.1 _).
  assert (length <$> noise = length <$> strategy) as Hnoise.
  { unfold noise. rewrite shape_zip_with; [done|]. by rewrite shape_map_array. }
  erewrite bind_lift_Ok; last first.
  { apply add_Ok, same_shape_spec. by rewrite Hnoise. }
  set (sum := zip_with _ strategy noise).
  assert (length <$> sum = length <$> strategy) as Hsum
    by (unfold sum; by apply shape_zip_with).
  rewrite clip_strategy_loop_spec by (by rewrite (shape_length _ _ Hsum)).
  eexists. split; [reflexivity|]. split.
  - rewrite <- Hsum. unfold clip_strategy. apply list_eq. intros j.
    rewrite !list_lookup_fmap, list_lookup_imap.
    destruct (sum !! j) as [row|]; [|done]. simpl.
    destruct (zip lower_bound upper_bound !! j); simpl; by rewrite ?length_fmap.
  - intros j k v Hv.
    destruct (entry_same_shape strategy draws.1 j k v) as [r Hr]; [done|done|].
    exists r. split; [done|].
    apply entry_clip_strategy. unfold sum, perturbed.
    apply entry_zip_with; [done|]. unfold noise.
    apply entry_zip_with; [done|].
    by apply (entry_map_array (fun v0 => np_sqrt (Qabs v0))).
Qed.

(** X9. [EP._update_strategy] on a rectangular strategy with a row for
    every pair of bounds: it returns a strategy of the same shape, takes
    one array of Gaussian draws from the generator and leaves the store
    as it was; element by element the result is
    [v + r × sqrt(|v|)] for the draw [r] of that element, and for a row
    that has bounds, that value clipped to the bounds and multiplied by
    [clip_ratio]. *)
Theorem update_strategy_spec (self : Hyper) (strategy : ndarray)
    (lower_bound upper_bound : list Q) (w : World) :
  rectangular strategy →
  (length (zip lower_bound upper_bound) ≤ length strategy)%nat →
  let draws :=
    generate_gaussian_random_array (length strategy)
      (length (hd [] strategy)) (gen w) in
  ∃ new_strategy,
    _update_strategy self strategy lower_bound upper_bound w
    = Ok (new_strategy, with_gen draws.2 w)
    ∧ length <$> new_strategy = length <$> strategy
    ∧ ∀ j k v, entry strategy j k = Some v →
        ∃ r, entry draws.1 j k = Some r
             ∧ entry new_strategy j k
               = Some (match zip lower_bound upper_bound !! j with
                       | Some b =>
                           (np_clip b.1 b.2 (perturbed v r) * clip_ratio self)%Q
                       | None => perturbed v r
                       end).
Proof.
  intros Hrect Hlen. by apply update_strategy_entries.
Qed.

Lemma np_clip_between (l u v : Q) :
  (l <= u)%Q → (l <= np_clip l u v ∧ np_clip l u v <= u)%Q.
Proof.
  intros Hlu. unfold np_clip. split.
  - apply Q.min_glb; [apply Q.le_max_r|done].
  - apply Q.le_min_r.
Qed.

(** X10. The clipping of [_update_strategy] bounds the new strategy:
    with a non-negative [clip_ratio], every element of a row whose
    bounds are [l ≤ u] lies between [l × clip_ratio] and
    [u × clip_ratio]. *)
Theorem update_strategy_bounded (self : Hyper) (strategy : ndarray)
    (lower_bound upper_bound : list Q) (w w' : World) (new_strategy : ndarray)
    (j k : nat) (l u v' : Q) :
  rectangular strategy →
  (length (zip lower_bound upper_bound) ≤ length strategy)%nat →
  (0 <= clip_ratio self)%Q →
  _update_strategy self strategy lower_bound upper_bound w
  = Ok (new_strategy, w') →
  lower_bound !! j = Some l →
  upper_bound !! j = Some u →
  (l <= u)%Q →
  entry new_strategy j k = Some v' →
  (l * clip_ratio self <= v' ∧ v' <= u * clip_ratio self)%Q.
Proof.
  intros Hrect Hlen Hcr Hrun Hl Hu Hlu Hv'.
  destruct (update_strategy_entries self strategy lower_bound upper_bound w
              Hrect Hlen) as (ns & Hrun' & Hs & Hentries).
  rewrite Hrun in Hrun'. injection Hrun' as -> _.
  assert (is_Some (entry strategy j k)) as [v Hv].
  { eapply entry_same_shape; [|exact Hv']. done. }
  destruct (Hentries j k v Hv) as (r & _ & Hnew).
  rewrite Hv' in Hnew. injection Hnew as ->.
  assert (zip lower_bound upper_bound !! j = Some (l, u)) as ->.
  { rewrite lookup_zip_with. by rewrite Hl, Hu. }
  simpl. destruct (np_clip_between l u (perturbed v r) Hlu) as [H1 H2].
  split; by apply Qmult_le_compat_r.
Qed.

(** X11. [_update_strategy] raises [IndexError] when the bounds are more
    than the rows of the strategy: the clipping loop writes a row for
    every pair of bounds. *)
Theorem update_strategy_index_error (self : Hyper) (strategy : ndarray)
    (lower_bound upper_bound : list Q) (w : World) :
  rectangular strategy →
  (length strategy < length (zip lower_bound upper_bound))%nat →
  _update_strategy self strategy lower_bound upper_bound w
  = Raise PyIndexError.
Proof.
  intros Hrect Hlen. unfold _update_strategy. rewrite bind_draw.
  set (draws := generate_gaussian_random_array _ _ _).
  assert (length <$> draws.1 = length <$> strategy) as Hr1.
  { unfold draws. rewrite Hshape. by rewrite Hrect. }
  erewrite bind_lift_Ok; last first.
  { apply mul_Ok, same_shape_spec. by rewrite shape_map_array. }
  set (noise := zip_with _ draws.1 _).
  assert (length <$> noise = length <$> strategy) as Hnoise.
  { unfold noise. rewrite shape_zip_with; [done|]. by rewrite shape_map_array. }
  erewrite bind_lift_Ok; last first.
  { apply add_Ok, same_shape_spec. by rewrite Hnoise. }
  set (sum := zip_with _ strategy noise).
  assert (length sum = length strategy) as Hsum
    by (apply shape_length; unfold sum; by apply shape_zip_with).
  apply clip_strategy_loop_raises; lia.
Qed.

End StrategyMore.

(** Witness for X9: the strategy (1, 1) with the bounds of agent 1. *)
Lemma update_strategy_spec_witness :
  ∃ new_strategy w',
    @_update_strategy Example.counter Example.environment Example.hyper
      [[1%Q]; [1%Q]] [-10%Q; -10%Q] [10%Q; 10%Q] Example.world
    = Ok (new_strategy, w')
    ∧ length <$> new_strategy = [1; 1]%nat.
Proof.
  destruct (@update_strategy_spec Example.counter Example.environment
              ExampleFacts.counter_gaussian_shape Example.hyper
              [[1%Q]; [1%Q]] [-10%Q; -10%Q] [10%Q; 10%Q] Example.world)
    as (ns & Hrun & Hs & _).
  - reflexivity.
  - simpl. lia.
  - eexists ns, _. split; [exact Hrun|exact Hs].
Defined.

(** Witness for X10: the first element of the same update lies between
    -10 × 0.05 and 10 × 0.05. *)
Lemma update_strategy_bounded_witness :
  ∃ new_strategy w' v',
    @_update_strategy Example.counter Example.environment Example.hyper
      [[1%Q]; [1%Q]] [-10%Q; -10%Q] [10%Q; 10%Q] Example.world
    = Ok (new_strategy, w')
    ∧ entry new_strategy 0 0 = Some v'
    ∧ (-10 * 0.05 <= v' ∧ v' <= 10 * 0.05)%Q.
Proof.
  eexists _, _, _.
  split; [vm_compute; reflexivity|].
  split; [vm_compute; reflexivity|].
  eapply (@update_strategy_bounded Example.counter Example.environment
            ExampleFacts.counter_gaussian_shape Example.hyper
            [[1%Q]; [1%Q]] [-10%Q; -10%Q] [10%Q; 10%Q] Example.world
            _ _ 0 0 (-10)%Q 10%Q).
  - reflexivity.
  - simpl. lia.
  - by vm_compute.
  - vm_compute. reflexivity.
  - reflexivity.
  - reflexivity.
  - by vm_compute.
  - reflexivity.
Defined.

(** Witness for X11: a strategy of one row for an agent of two bounded
    variables. *)
Lemma update_strategy_index_error_witness :
  @_update_strategy Example.counter Example.environment Example.hyper
    [[1%Q]] [-10%Q; -10%Q] [10%Q; 10%Q] Example.world
  = Raise PyIndexError.
Proof.
  apply (@update_strategy_index_error Example.counter Example.environment
           ExampleFacts.counter_gaussian_shape).
  - reflexivity.
  - simpl. lia.
Defined.

(** ** The update of EP *)

Section UpdateMore.
Context `{Random} `{Environment}.
Hypothesis Hshape : gaussian_shape.
Hypothesis Hrange : integer_in_range.

Lemma shape_mutated (p : Agent) (x s : ndarray) (r1 : Q) :
  same_shape x s = true → length <$> mutated p x s r1 = length <$> x.
Proof.
  intros Hs. unfold mutated. rewrite shape_clip_rows, shape_zip_with; [done|].
  unfold scale. rewrite shape_map_array. by apply same_shape_spec.
Qed.

(** One parent of the first loop of [update], with the world it leaves. *)
Lemma reproduce_one_full (self : Hyper) (function : ndarray → Q) (i : nat)
    (children : list loc) (strategy : list ndarray) (agent : loc) (w : World)
    (p : Agent) (x s : ndarray) :
  agent_objs w !! agent = Some p →
  arrays w !! position p = Some x →
  strategy !! i = Some s →
  same_shape x s = true →
  rectangular s →
  (length (zip (lb p) (ub p)) ≤ length s)%nat →
  let a := fresh (dom (agent_objs w)) in
  let copy := fresh (dom (arrays w)) in
  let x' := mutated p x s (generate_gaussian_random_number (gen w)).1 in
  ∃ s' g,
    reproduce_one self function i (children, strategy) agent w
    = Ok ((children ++ [a], <[i := s']> strategy),
          mkWorld (<[copy := x']> (arrays w))
            (<[a := with_fit (function x') (with_position copy p)]>
               (agent_objs w))
            (list_objs w) g (ticks w))
    ∧ length <$> s' = length <$> s.
Proof.
  intros Hp Hx Hs Hsame Hrect Hbounds a copy x'. unfold reproduce_one.
  erewrite bind_lift_Ok by (by apply py_index_nat).
  erewrite bind_Ok by (by apply (mutate_parent_step function agent s w p x)).
  erewrite bind_lift_Ok by (by apply py_index_nat).
  assert (agent ≠ fresh (dom (agent_objs w))) as Hagent.
  { intros E. pose proof (fresh_agent w) as Hf. rewrite <- E in Hf. congruence. }
  erewrite bind_get_agent by (fields; by rewrite lookup_insert_ne).
  match goal with
  | |- context [(_update_strategy self s (lb p) (ub p) ≫= _) ?w1] =>
      destruct (update_strategy_step Hshape self s (lb p) (ub p) w1 Hrect Hbounds)
        as (s' & Hupd & Hs')
  end.
  erewrite bind_Ok by exact Hupd.
  exists s'. eexists. split; [reflexivity|done].
Qed.

(** The first loop of [update], with everything it establishes. *)
Lemma reproduce_loop_full (self : Hyper) (function : ndarray → Q)
    (rest : list loc) :
  ∀ (i : nat) (children : list loc) (strategy : list ndarray) (w : World),
    (∀ k agent, rest !! k = Some agent →
       ∃ p x s,
         agent_objs w !! agent = Some p
         ∧ arrays w !! position p = Some x
         ∧ strategy !! (i + k)%nat = Some s
         ∧ same_shape x s = true
         ∧ rectangular s
         ∧ (length (zip (lb p) (ub p)) ≤ length s)%nat) →
    ∃ new strategy' w',
      foldS (reproduce_one self function) i (children, strategy) rest w
      = Ok ((children ++ new, strategy'), w')
      ∧ agent_objs w ⊆ agent_objs w'
      ∧ arrays w ⊆ arrays w'
      ∧ list_objs w' = list_objs w
      ∧ ticks w' = ticks w
      ∧ NoDup new
      ∧ Forall2 (child_of function w w') rest new
      ∧ Forall2 (fun s s' : ndarray => length <$> s' = length <$> s)
          strategy strategy'.
Proof.
  induction rest as [|agent rest IH]; intros i children strategy w Hok.
  - exists [], strategy, w. rewrite app_nil_r.
    split_and!;
      first [done | by constructor
            | apply Forall_Forall2_diag; by apply Forall_true].
  - destruct (Hok 0%nat agent) as (p & x & s & Hp & Hx & Hs & Hsame & Hrect & Hb);
      [done|]. rewrite Nat.add_0_r in Hs.
    destruct (reproduce_one_full self function i children strategy agent w p x s)
      as (s' & g & Hstep & Hs'); try done.
    set (a := fresh (dom (agent_objs w))) in *.
    set (copy := fresh (dom (arrays w))) in *.
    set (x' := mutated p x s _) in *.
    set (c := with_fit (function x') (with_position copy p)) in *.
    set (w1 := mkWorld _ _ _ _ _) in Hstep.
    assert (agent_objs w ⊆ agent_objs w1) as Hsub1
      by (apply insert_subseteq, fresh_agent).
    assert (arrays w ⊆ arrays w1) as Hsuba1
      by (apply insert_subseteq, fresh_array).
    destruct (IH (S i) (children ++ [a]) (<[i := s']> strategy) w1)
      as (new & strategy' & w' & Hrun & Hsub2 & Hsuba2 & Hlists & Hticks
          & Hnodup & Hkids & Hstrat).
    { intros k agent' Hk.
      destruct (Hok (S k) agent') as (p' & x0 & s0 & Hp' & Hx' & Hs0 & Hrest);
        [done|].
      exists p', x0, s0. split_and!; try tauto.
      - by eapply lookup_weaken.
      - by eapply lookup_weaken.
      - rewrite list_lookup_insert_ne by lia.
        by replace (S i + k)%nat with (i + S k)%nat by lia. }
    exists (a :: new), strategy', w'. split_and!.
    + cbn [foldS]. erewrite bind_Ok by exact Hstep.
      rewrite Hrun. by rewrite <- app_assoc.
    + by trans (agent_objs w1).
    + by trans (arrays w1).
    + by rewrite Hlists.
    + by rewrite Hticks.
    + constructor; [|done]. intros Hin.
      destruct (proj1 (list_elem_of_lookup new a) Hin) as [k Hk].
      destruct (Forall2_lookup_r _ _ _ _ _ Hkids Hk) as (parent & _ & Hfresh & _).
      apply Hfresh. apply elem_of_dom. exists c. apply lookup_insert_eq.
    + constructor.
      * split; [apply is_fresh|].
        exists p, x, c, x'. split_and!; try done.
        -- eapply lookup_weaken; [|exact Hsub2]. apply lookup_insert_eq.
        -- eapply lookup_weaken; [|exact Hsuba2]. apply lookup_insert_eq.
        -- apply is_fresh.
        -- by apply shape_mutated.
      * apply Forall2_same_length_lookup_2; [by eapply Forall2_length|].
        intros k parent child Hparent Hchild.
        destruct (Forall2_lookup_lr _ _ _ _ _ _ Hkids Hparent Hchild)
          as [Hfresh (p0 & x0 & c0 & x0' & Hp0 & Hx0 & Hc0 & Hx0' & Hnew
                      & Hlb & Hub & Hsh & Hfit)].
        destruct (Hok (S k) parent) as (p' & x1 & _ & Hp' & Hx1 & _); [done|].
        assert (p0 = p') as ->.
        { pose proof (lookup_weaken _ _ _ _ Hp' Hsub1). congruence. }
        assert (x0 = x1) as ->.
        { pose proof (lookup_weaken _ _ _ _ Hx1 Hsuba1). congruence. }
        split.
        -- intros Hd. apply Hfresh. apply elem_of_dom.
           apply elem_of_dom in Hd as [z Hz]. exists z. by eapply lookup_weaken.
        -- exists p', x1, c0, x0'. split_and!; try done.
           intros Hd. apply Hnew. apply elem_of_dom.
           apply elem_of_dom in Hd as [z Hz]. exists z. by eapply lookup_weaken.
    + apply Forall2_same_length_lookup_2.
      * apply Forall2_length in Hstrat. by rewrite length_insert in Hstrat.
      * intros k s0 s1 Hs0 Hs1.
        destruct (decide (k = i)) as [->|Hne].
        -- assert (<[i := s']> strategy !! i = Some s') as Hm
             by (apply list_lookup_insert_eq; by eapply lookup_lt_Some).
           pose proof (Forall2_lookup_lr _ _ _ _ _ _ Hstrat Hm Hs1) as Hsh.
           simpl in Hsh. simplify_eq. congruence.
        -- assert (<[i := s']> strategy !! k = Some s0) as Hm
             by (by rewrite list_lookup_insert_ne).
           apply (Forall2_lookup_lr _ _ _ _ _ _ Hstrat Hm Hs1).
Qed.

(** The whole of [update], with everything it establishes. *)
Lemma update_full (self : Hyper) (agents : loc) (n_agents : Z)
    (function : ndarray → Q) (strategy : list ndarray) (w : World)
    (parents : list loc) :
  list_objs w !! agents = Some parents →
  strategy_ok w parents strategy →
  ∃ (children : list loc) (strategy' : list ndarray) (fits : list Q)
    (g1 : rng) (next : loc) (w' : World),
    let pool := parents ++ children in
    let n_individuals := py_int (py_mul n_agents (bout_size self)) in
    let wins := (tournament_wins (Z.to_nat n_individuals) fits fits g1).1 in
    update self agents n_agents function strategy w = Ok ((next, strategy'), w')
    ∧ length fits = length pool
    ∧ (next ∉ dom (list_objs w))
    ∧ list_objs w' = <[next := select wins pool n_agents]>
                       (<[agents := pool]> (list_objs w))
    ∧ agent_objs w ⊆ agent_objs w'
    ∧ arrays w ⊆ arrays w'
    ∧ ticks w' = ticks w
    ∧ NoDup children
    ∧ Forall2 (child_of function w w') parents children
    ∧ Forall2 (fun s s' : ndarray => length <$> s' = length <$> s)
        strategy strategy'.
Proof.
  intros Hlist Hok. unfold update.
  rewrite (bind_get_list _ _ _ parents) by done.
  destruct (reproduce_loop_full self function parents 0 [] strategy w)
    as (children & strategy' & w1 & Hrep & Hsub & Hsuba & Hlists & Hticks
        & Hnodup & Hkids & Hstrat).
  { intros k agent Hk. by apply Hok. }
  unfold reproduce. erewrite bind_Ok by exact Hrep. simpl.
  rewrite (bind_get_list _ _ _ parents) by (by rewrite Hlists).
  rewrite bind_set_list.
  erewrite bind_get_list by (fields; by rewrite lookup_insert_eq).
  assert (Forall (fun l => is_Some (agent_objs w1 !! l)) (parents ++ children))
    as Hobjs.
  { apply Forall_app. split.
    - apply Forall_forall. intros agent Hin.
      apply list_elem_of_lookup in Hin as [i Hi].
      destruct (Hok i agent Hi) as (p & _ & _ & Hp & _).
      exists p. by eapply lookup_weaken.
    - apply Forall_forall. intros child Hin.
      apply list_elem_of_lookup in Hin as [k Hk].
      destruct (Forall2_lookup_r _ _ _ _ _ Hkids Hk)
        as (parent & _ & _ & (p & x & c & x' & _ & _ & Hc & _)).
      by exists c. }
  assert (∃ fits, Forall2 (fun l q => fit <$> agent_objs w1 !! l = Some q)
                    (parents ++ children) fits) as [fits Hfits].
  { induction Hobjs as [|l ls [a Ha] _ [fits IH]].
    - by exists [].
    - exists (fit a :: fits). constructor; [by rewrite Ha|done]. }
  erewrite bind_Ok; last first.
  { apply (tournament_step Hrange (parents ++ children) fits (agent_objs w1));
      done. }
  erewrite bind_get_list by (fields; by rewrite lookup_insert_eq).
  rewrite bind_new_list. fields.
  exists children, strategy', fits, (gen w1). eexists _, _.
  split; [reflexivity|]. fields.
  split_and!; try done.
  - symmetry. by eapply Forall2_length.
  - rewrite Hlists.
    pose proof (is_fresh (dom (<[agents := parents ++ children]> (list_objs w))))
      as Hf.
    set (l := fresh _) in *. clearbody l.
    intros Hin. apply Hf. rewrite dom_insert_L.
    apply elem_of_union. by right.
  - by rewrite Hlists.
Qed.





Lemma tournament_wins_0 (fits members : list Q) (g : rng) :
  tournament_wins 0 fits members g = (replicate (length members) 0%nat, g).
Proof.
  induction members as [|q members IH]; [done|].
  simpl. by rewrite IH.
Qed.

Lemma sorted_desc_zero {A} (l : list (nat * A)) :
  Forall (fun y => y.1 = 0%nat) l → sorted_desc l = l.
Proof.
  induction 1 as [|x l Hx Hl IH]; [done|].
  simpl. rewrite IH. destruct Hl as [|y l Hy Hl]; [done|].
  simpl. by rewrite Hx, Hy.
Qed.

Lemma py_int_below_one (q : Q) : (q < 1)%Q → Z.to_nat (py_int q) = 0%nat.
Proof.
  destruct q as [num den]. unfold Qlt, py_int. simpl. intros Hq.
  destruct (Z.lt_ge_cases num 0) as [Hneg|Hpos].
  - assert (num ÷ Z.pos den ≤ 0)%Z; [|lia].
    apply Z.quot_le_upper_bound; lia.
  - rewrite Z.quot_small by lia. done.
Qed.

(** X14. Without bouts there is no selection: when the product
    [n_agents × bout_size], as the interpreter computes it, is below 1,
    [int] makes the number of opponents 0, every win count stays 0, the
    stable sort keeps the pool in its order, and [EP.update], given
    [n_agents] parents, returns exactly these parents, in their order;
    the children are dropped. *)
Theorem update_without_bouts (self : Hyper) (agents : loc) (n_agents : Z)
    (function : ndarray → Q) (strategy : list ndarray) (w : World)
    (parents : list loc) :
  list_objs w !! agents = Some parents →
  strategy_ok w parents strategy →
  Z.of_nat (length parents) = n_agents →
  (py_mul n_agents (bout_size self) < 1)%Q →
  ∃ (next : loc) (strategy' : list ndarray) (w' : World),
    update self agents n_agents function strategy w = Ok ((next, strategy'), w')
    ∧ list_objs w' !! next = Some parents.
Proof.
  intros Hlist Hok Hn Hsmall.
  destruct (update_full self agents n_agents function strategy w parents Hlist Hok)
    as (children & strategy' & fits & g1 & next & w' & Hrun & Hfits & Hnext
        & Hlists & _).
  exists next, strategy', w'. split; [exact Hrun|].
  rewrite Hlists, lookup_insert_eq. f_equal.
  rewrite (py_int_below_one _ Hsmall), tournament_wins_0. simpl.
  unfold select. rewrite sorted_desc_zero; last first.
  { apply Forall_forall. intros [c l] Hin.
    apply elem_of_zip_l in Hin. simpl in *.
    by apply elem_of_replicate in Hin as [-> _]. }
  rewrite snd_zip by (rewrite length_replicate; lia).
  unfold slice_to. destruct (n_agents <? 0)%Z eqn:E;
    [apply Z.ltb_lt in E; lia|].
  rewrite <- Hn, Nat2Z.id. apply take_app_length.
Qed.




Lemma foldS_app {A B} (body : nat → B → A → M B) (xs ys : list A) :
  ∀ (i : nat) (acc : B) (w : World),
    foldS body i acc (xs ++ ys) w
    = (foldS body i acc xs
       ≫= fun acc' => foldS body (i + length xs) acc' ys) w.
Proof.
  induction xs as [|x xs IH]; intros i acc w; simpl.
  - by rewrite Nat.add_0_r.
  - unfold mbind, M_bind.
    destruct (body i acc x w) as [[acc1 w1]|]; [|done].
    rewrite IH. unfold mbind, M_bind.
    by replace (S i + length xs)%nat with (i + S (length xs))%nat by lia.
Qed.

(** X17. A strategy with fewer arrays than the population has agents
    stops [EP.update]: the parents that have a strategy are mutated, and
    [strategy[i]] for the first parent without one raises [IndexError].
    Nothing is returned, and the tournament is not reached. *)
Theorem update_short_strategy (self : Hyper) (agents : loc) (n_agents : Z)
    (function : ndarray → Q) (strategy : list ndarray) (w : World)
    (parents : list loc) :
  list_objs w !! agents = Some parents →
  strategy_ok w (take (length strategy) parents) strategy →
  (length strategy < length parents)%nat →
  update self agents n_agents function strategy w = Raise PyIndexError.
Proof.
  intros Hlist Hok Hshort. unfold update.
  rewrite (bind_get_list _ _ _ parents) by done.
  unfold reproduce.
  rewrite <- (take_drop (length strategy) parents) at 1.
  destruct (drop (length strategy) parents) as [|agent rest] eqn:Hdrop.
  { apply (f_equal length) in Hdrop. rewrite length_drop in Hdrop.
    simpl in Hdrop. lia. }
  unfold mbind at 1, M_bind at 1. rewrite foldS_app.
  destruct (reproduce_loop_full self function (take (length strategy) parents)
              0 [] strategy w) as (new & strategy' & w' & Hloop & _ & _ & _ & _
                                   & _ & _ & Hstrat).
  { intros k a Hk. apply (Hok k a Hk). }
  rewrite (bind_Ok _ _ _ _ _ Hloop). simpl.
  rewrite length_take_le by lia.
  unfold reproduce_one, mbind at 1, M_bind at 1, mbind at 1, M_bind at 1.
  assert (py_index strategy' (Z.of_nat (length strategy)) = Raise PyIndexError)
    as ->; [|done].
  unfold py_index.
  destruct (Z.of_nat (length strategy) <? 0)%Z eqn:E;
    [apply Z.ltb_lt in E; lia|].
  rewrite E, Nat2Z.id.
  assert (strategy' !! length strategy = None) as ->; [|done].
  apply lookup_ge_None. apply Forall2_length in Hstrat. lia.
Qed.

Lemma count_wins_le (fits : list Q) (q : Q) (opponents : list Z) :
  (count_wins fits q opponents ≤ length opponents)%nat.
Proof. unfold count_wins. apply List.filter_length_le. Qed.

Lemma count_wins_worst (fits : list Q) (q : Q) (opponents : list Z) :
  Forall (fun q' => (q' <= q)%Q) fits → count_wins fits q opponents = 0%nat.
Proof.
  intros Hworst. induction opponents as [|o os IH]; [done|].
  rewrite count_wins_cons, IH. unfold beats.
  destruct (fits !! Z.to_nat o) as [q'|] eqn:E; [|done].
  assert (q' <= q)%Q as Hle
    by (apply (proj1 (Forall_lookup _ _) Hworst _ _ E)).
  unfold Qltb. apply Qle_bool_iff in Hle. by rewrite Hle.
Qed.

(** X18. The tournament of [EP.update] (ep.py 179-192) on a pool of
    agents of the store: it returns one count of wins for every member;
    a count is at most the number of bouts [n_individuals]; a member
    whose fitness no member of the pool exceeds wins no bout, since a
    win asks for a strictly lower fitness; and the tournament changes
    nothing but the state of the generator. *)
Theorem tournament_counts (n_individuals : Z) (pool : list loc)
    (fits : list Q) (w : World) :
  Forall2 (fun l q => fit <$> agent_objs w !! l = Some q) pool fits →
  ∃ (wins : list nat) (g : rng),
    tournament n_individuals pool w = Ok (wins, with_gen g w)
    ∧ length wins = length pool
    ∧ Forall (fun c => (c ≤ Z.to_nat n_individuals)%nat) wins
    ∧ (∀ i q, fits !! i = Some q → Forall (fun q' => (q' <= q)%Q) fits →
         wins !! i = Some 0%nat).
Proof.
  intros Hfits.
  rewrite (tournament_step Hrange pool fits (agent_objs w) Hfits
             n_individuals w eq_refl).
  eexists _, _. split; [reflexivity|].
  assert (∀ i q, fits !! i = Some q →
            ∃ opponents,
              length opponents = Z.to_nat n_individuals
              ∧ (tournament_wins (Z.to_nat n_individuals) fits fits (gen w)).1 !! i
                = Some (count_wins fits q opponents)) as Hwins.
  { intros i q Hq.
    destruct (tournament_wins_lookup Hrange (Z.to_nat n_individuals) fits fits)
      with (g := gen w) (i := i) (q := q) as (os & Hlen & _ & Hw); try done.
    - apply lookup_lt_Some in Hq. lia.
    - by exists os. }
  split_and!.
  - rewrite length_tournament_wins. symmetry. by eapply Forall2_length.
  - apply Forall_lookup. intros i c Hc.
    destruct (lookup_lt_is_Some_2 fits i) as [q Hq].
    { apply lookup_lt_Some in Hc. by rewrite length_tournament_wins in Hc. }
    destruct (Hwins i q Hq) as (os & Hlen & Hw).
    rewrite Hw in Hc. injection Hc as <-. rewrite <- Hlen. apply count_wins_le.
  - intros i q Hq Hworst. destruct (Hwins i q Hq) as (os & _ & Hw).
    by rewrite Hw, count_wins_worst.
Qed.

End UpdateMore.

(** ** The initial strategies of [EP.run] *)

Section InitMore.
Context `{Random} `{Environment}.
Hypothesis Hsize : uniform_size.

Lemma foldS_any_index {A B} (body : B → A → M B) (xs : list A) (i j : nat) :
  ∀ (acc : B) (w : World),
    foldS (fun _ acc x => body acc x) i acc xs w
    = foldS (fun _ acc x => body acc x) j acc xs w.
Proof.
  revert i j. induction xs as [|x xs IH]; intros i j acc w; [done|].
  simpl. unfold mbind, M_bind. destruct (body acc x w) as [[acc1 w1]|]; [|done].
  apply IH.
Qed.

(** One row of one strategy. *)
Lemma init_strategy_row_step (P : Q → Prop) (space : Space) (i j : nat)
    (strategy : list ndarray) (bounds : Q * Q) (w : World)
    (population : list loc) (agent : loc) (a : Agent) (s : ndarray) :
  list_objs w !! agents space = Some population →
  population !! i = Some agent →
  agent_objs w !! agent = Some a →
  n_dimensions a = space_n_dimensions space ∨ n_dimensions a = 1%nat →
  strategy !! i = Some s →
  (j < length s)%nat →
  (∀ n g, Forall P ((fun v => 0.05 * v)%Q
                      <$> (generate_uniform_random_number 0
                             (bounds.2 - bounds.1) n g).1)) →
  ∃ (row : list Q) (g : rng),
    init_strategy_row space i j strategy bounds w
    = Ok (<[i := <[j := row]> s]> strategy, with_gen g w)
    ∧ length row = space_n_dimensions space
    ∧ Forall P row.
Proof.
  intros Hlist Hagent Ha Hdim Hs Hj HP. unfold init_strategy_row.
  rewrite (bind_get_list _ _ _ population) by done.
  erewrite bind_lift_Ok by (by apply py_index_nat).
  rewrite (bind_get_agent _ _ _ a) by done.
  rewrite bind_draw.
  erewrite bind_lift_Ok by (by apply py_index_nat).
  destruct (lookup_lt_is_Some_2 s j Hj) as [old ->].
  set (u := (generate_uniform_random_number 0 (bounds.2 - bounds.1)
               (n_dimensions a) (gen w))).
  assert (length ((fun v => 0.05 * v)%Q <$> u.1) = n_dimensions a) as Hlen
    by (rewrite length_fmap; apply Hsize).
  pose proof (HP (n_dimensions a) (gen w)) as Hrow. fold u in Hrow.
  case_bool_decide as Hd.
  - eexists _, _. split; [reflexivity|]. by split.
  - destruct Hdim as [Hdim|Hdim]; [congruence|].
    rewrite Hdim in Hlen.
    destruct ((fun v => 0.05 * v)%Q <$> u.1) as [|v [|v' row]];
      simpl in Hlen; try lia.
    eexists _, _. split; [reflexivity|]. split.
    + by rewrite length_replicate.
    + apply Forall_replicate. by apply Forall_inv in Hrow.
Qed.

(** The rows of one strategy. *)
Lemma init_strategy_rows (P : Q → Prop) (space : Space) (i : nat)
    (population : list loc) (agent : loc) (a : Agent)
    (bounds : list (Q * Q)) :
  population !! i = Some agent →
  n_dimensions a = space_n_dimensions space ∨ n_dimensions a = 1%nat →
  Forall (fun b => ∀ n g,
            Forall P ((fun v => 0.05 * v)%Q
                        <$> (generate_uniform_random_number 0 (b.2 - b.1) n g).1))
    bounds →
  ∀ (j : nat) (strategy : list ndarray) (w : World),
    list_objs w !! agents space = Some population →
    agent_objs w !! agent = Some a →
    (i < length strategy)%nat →
    (j + length bounds ≤ space_n_variables space)%nat →
    uniform_strategy (space_n_variables space) (space_n_dimensions space)
      strategy →
    all_entries P strategy →
    ∃ (strategy' : list ndarray) (g : rng),
      foldS (init_strategy_row space i) j strategy bounds w
      = Ok (strategy', with_gen g w)
      ∧ length strategy' = length strategy
      ∧ uniform_strategy (space_n_variables space) (space_n_dimensions space)
          strategy'
      ∧ all_entries P strategy'.
Proof.
  intros Hagent Hdim HP.
  induction HP as [|b bounds Hb HP IH];
    intros j strategy w Hlist Ha Hi Hj Hshape HPs.
  - exists strategy, (gen w). by destruct w.
  - destruct (lookup_lt_is_Some_2 strategy i Hi) as [s Hs].
    assert (length <$> s
            = replicate (space_n_variables space) (space_n_dimensions space))
      as Hsh by (apply (proj1 (Forall_lookup _ _) Hshape i s Hs)).
    assert (length s = space_n_variables space) as Hn
      by (by rewrite <- (length_fmap length s), Hsh, length_replicate).
    destruct (init_strategy_row_step P space i j strategy b w population agent
                a s) as (row & g & Hstep & Hlen & Hrow); try done.
    { simpl in Hj. lia. }
    cbn [foldS]. rewrite (bind_Ok _ _ _ _ _ Hstep).
    destruct (IH (S j) (<[i := <[j := row]> s]> strategy) (with_gen g w))
      as (strategy' & g' & Hloop & Hlen' & Hshape' & HPs'); try done.
    + by rewrite length_insert.
    + simpl in Hj. lia.
    + apply Forall_insert; [done|].
      rewrite list_fmap_insert, Hsh, Hlen. apply insert_replicate.
    + apply Forall_insert; [done|]. apply Forall_insert; [|done].
      apply (proj1 (Forall_lookup _ _) HPs i s Hs).
    + exists strategy', g'. split; [exact Hloop|].
      rewrite length_insert in Hlen'. by split_and!.
Qed.

(** The strategies of the agents [i], [i + 1], ... *)
Lemma init_strategy_loop (P : Q → Prop) (space : Space)
    (population : list loc) (count : nat) :
  (length (zip (space_lb space) (space_ub space))
   ≤ space_n_variables space)%nat →
  Forall (fun b => ∀ n g,
            Forall P ((fun v => 0.05 * v)%Q
                        <$> (generate_uniform_random_number 0 (b.2 - b.1) n g).1))
    (zip (space_lb space) (space_ub space)) →
  ∀ (i : nat) (strategy : list ndarray) (w : World),
    list_objs w !! agents space = Some population →
    (∀ k agent, population !! k = Some agent →
       ∃ a, agent_objs w !! agent = Some a
            ∧ (n_dimensions a = space_n_dimensions space
               ∨ n_dimensions a = 1%nat)) →
    (i + count ≤ length population)%nat →
    (i + count ≤ length strategy)%nat →
    uniform_strategy (space_n_variables space) (space_n_dimensions space)
      strategy →
    all_entries P strategy →
    ∃ (strategy' : list ndarray) (g : rng),
      foldS (fun _ strategy i =>
               foldS (init_strategy_row space i) 0 strategy
                 (zip (space_lb space) (space_ub space)))
        0 strategy (seq i count) w
      = Ok (strategy', with_gen g w)
      ∧ length strategy' = length strategy
      ∧ uniform_strategy (space_n_variables space) (space_n_dimensions space)
          strategy'
      ∧ all_entries P strategy'.
Proof.
  intros Hbounds HP. induction count as [|count IH];
    intros i strategy w Hlist Hpop Hi Hi' Hshape HPs.
  - exists strategy, (gen w). by destruct w.
  - destruct (lookup_lt_is_Some_2 population i) as [agent Hagent]; [lia|].
    destruct (Hpop i agent Hagent) as (a & Ha & Hdim).
    destruct (init_strategy_rows P space i population agent a
                (zip (space_lb space) (space_ub space)) Hagent Hdim HP
                0 strategy w)
      as (strategy1 & g1 & Hrows & Hlen1 & Hshape1 & HPs1); try done; [lia|].
    cbn [seq foldS]. rewrite (bind_Ok _ _ _ _ _ Hrows).
    rewrite (foldS_any_index _ _ 1 0).
    destruct (IH (S i) strategy1 (with_gen g1 w))
      as (strategy' & g' & Hloop & Hlen' & Hshape' & HPs'); try done; try lia.
    exists strategy', g'. split; [exact Hloop|]. split_and!; try done. lia.
Qed.

(** The first loop of [run] returns on a space that is in order. *)
Lemma init_strategy_returns (space : Space) (w : World) :
  space_ok w space →
  ∃ (strategy : list ndarray) (g : rng),
    init_strategy space w = Ok (strategy, with_gen g w).
Proof.
  intros (Hn & Hbounds & population & Hlist & Hlen & Hpop).
  unfold init_strategy.
  destruct (init_strategy_loop (fun _ => True) space population
              (Z.to_nat (n_agents space)) Hbounds) with
    (i := 0%nat) (w := w)
    (strategy := replicate (Z.to_nat (n_agents space))
                   (replicate (space_n_variables space)
                      (replicate (space_n_dimensions space) 0%Q)))
    as (strategy & g & Hrun & _); try done.
  - apply Forall_forall. intros b _ n g. apply Forall_forall. done.
  - rewrite length_replicate. lia.
  - apply Forall_replicate. by rewrite fmap_replicate, length_replicate.
  - unfold all_entries. apply Forall_forall. intros s _.
    apply Forall_forall. intros r _. apply Forall_forall. done.
  - by exists strategy, g.
Qed.

(** X19. The initial strategies of [EP.run] (ep.py 214-223), on a
    space with at least [n_agents] agents, each of the dimensions of the
    space or of one dimension, and no more bounds than variables, with a
    uniform generator that returns as many numbers as asked for: the
    loops return; there is one strategy for every agent, of [n_variables]
    rows of [n_dimensions] elements; nothing but the state of the
    generator has changed; and when the generator draws between its
    bounds and no lower bound of the space exceeds its upper bound, no
    element of a strategy is negative. *)
Theorem init_strategy_spec (space : Space) (w : World) :
  space_ok w space →
  ∃ (strategy : list ndarray) (g : rng),
    init_strategy space w = Ok (strategy, with_gen g w)
    ∧ length strategy = Z.to_nat (n_agents space)
    ∧ uniform_strategy (space_n_variables space) (space_n_dimensions space)
        strategy
    ∧ (uniform_in_range →
       (∀ j l u, space_lb space !! j = Some l →
                 space_ub space !! j = Some u → (l <= u)%Q) →
       all_entries (fun v => (0 <= v)%Q) strategy).
Proof.
  intros (Hn & Hbounds & population & Hlist & Hlen & Hpop).
  unfold init_strategy.
  set (zeros := replicate (Z.to_nat (n_agents space))
                  (replicate (space_n_variables space)
                     (replicate (space_n_dimensions space) 0%Q))).
  assert (uniform_strategy (space_n_variables space) (space_n_dimensions space)
            zeros) as Hzeros.
  { apply Forall_replicate. by rewrite fmap_replicate, length_replicate. }
  assert (length zeros = Z.to_nat (n_agents space)) as Hlz
    by apply length_replicate.
  destruct (init_strategy_loop (fun _ => True) space population
              (Z.to_nat (n_agents space)) Hbounds) with
    (i := 0%nat) (strategy := zeros) (w := w)
    as (strategy & g & Hrun & Hlen' & Hshape & _); try done; try lia.
  { apply Forall_forall. intros b _ n g. apply Forall_forall. done. }
  { unfold all_entries. apply Forall_forall. intros s _.
    apply Forall_forall. intros r _. apply Forall_forall. done. }
  exists strategy, g. split; [exact Hrun|]. split_and!; try done; [lia|].
  intros Huniform Hle.
  destruct (init_strategy_loop (fun v => (0 <= v)%Q) space population
              (Z.to_nat (n_agents space)) Hbounds) with
    (i := 0%nat) (strategy := zeros) (w := w)
    as (strategy2 & g2 & Hrun2 & _ & _ & Hpos); try done; try lia.
  - apply Forall_forall. intros [lo hi] Hin n g'. simpl.
    assert (lo <= hi)%Q as Hb.
    { apply list_elem_of_lookup in Hin as [k Hk].
      apply lookup_zip_with_Some in Hk as (l & u & E & Hl & Hu).
      injection E as <- <-. by apply (Hle k). }
    assert (0 <= hi - lo)%Q as Hd.
    { unfold Qminus. rewrite <- (Qplus_opp_r lo).
      apply Qplus_le_l. exact Hb. }
    pose proof (Huniform 0%Q (hi - lo)%Q n g' Hd) as Hu.
    apply Forall_fmap. eapply Forall_impl; [exact Hu|].
    intros v [Hv _]. simpl. apply Qmult_le_0_compat; [done|exact Hv].
  - unfold all_entries, zeros. apply Forall_replicate, Forall_replicate,
      Forall_replicate. apply Qle_refl.
  - rewrite Hrun in Hrun2. by injection Hrun2 as <- _.
Qed.

(** X20. A space that announces more agents than it holds stops
    [EP.run] in its first loop: with at least one bounded variable,
    [space.agents[i]] for the first missing agent raises [IndexError],
    after the strategies of the agents that are there have been
    initialised. *)
Theorem init_strategy_short_population (space : Space) (w : World)
    (population : list loc) :
  list_objs w !! agents space = Some population →
  (length population < Z.to_nat (n_agents space))%nat →
  (0 < length (zip (space_lb space) (space_ub space))
   ≤ space_n_variables space)%nat →
  (∀ k agent, population !! k = Some agent →
     ∃ a, agent_objs w !! agent = Some a
          ∧ (n_dimensions a = space_n_dimensions space
             ∨ n_dimensions a = 1%nat)) →
  init_strategy space w = Raise PyIndexError.
Proof.
  intros Hlist Hshort [Hsome Hbounds] Hpop. unfold init_strategy.
  set (zeros := replicate (Z.to_nat (n_agents space))
                  (replicate (space_n_variables space)
                     (replicate (space_n_dimensions space) 0%Q))).
  assert (Z.to_nat (n_agents space)
          = (length population
             + S (Z.to_nat (n_agents space) - S (length population)))%nat)
    as Hsplit by lia.
  rewrite Hsplit, seq_app, foldS_app.
  destruct (init_strategy_loop (fun _ => True) space population
              (length population) Hbounds) with
    (i := 0%nat) (strategy := zeros) (w := w)
    as (strategy & g & Hrun & _); try done.
  { apply Forall_forall. intros b _ n g. apply Forall_forall. done. }
  { unfold zeros. rewrite length_replicate. lia. }
  { apply Forall_replicate. by rewrite fmap_replicate, length_replicate. }
  { unfold all_entries. apply Forall_forall. intros s _.
    apply Forall_forall. intros r _. apply Forall_forall. done. }
  rewrite (bind_Ok _ _ _ _ _ Hrun). cbn [seq foldS].
  destruct (zip (space_lb space) (space_ub space)) as [|b bounds];
    [simpl in Hsome; lia|].
  cbn [foldS].
  assert (init_strategy_row space (0 + length population) 0 strategy b
            (with_gen g w) = Raise PyIndexError) as Hraise.
  { unfold init_strategy_row.
    rewrite (bind_get_list _ _ _ population) by done.
    unfold py_index.
    destruct (Z.of_nat (0 + length population) <? 0)%Z eqn:E;
      [apply Z.ltb_lt in E; lia|].
    rewrite E, Nat2Z.id.
    assert (population !! (0 + length population)%nat = None) as ->; [|done].
    apply lookup_ge_None. lia. }
  unfold mbind, M_bind. by rewrite Hraise.
Qed.

(** X21. [EP.run] returns no History, whatever the instance dictionary
    holds, as long as it holds plain data (as after every construction
    from a mapping of such values): the call raises for every such
    instance, space and function. On a space whose strategies can be
    initialised, the exception is the [AttributeError] of the lookup of
    [self._evaluate] when the instance dictionary does not bind this
    name, and otherwise the [TypeError] of calling the value bound to
    it, which is no function. *)
Theorem run_never_returns (self : Py.Obj) (space : Space)
    (function : ndarray → Q) (store_best_only : bool) (w : World) :
  (∃ e, run self space function store_best_only w = Raise e)
  ∧ (space_ok w space →
     match Py.dict self !! "_evaluate" with
     | None =>
         run self space function store_best_only w
         = Raise (PyAttributeError "_evaluate")
     | Some _ =>
         run self space function store_best_only w
         = Raise (PyTypeError "object is not callable")
     end).
Proof.
  assert (∀ strategy w1,
            init_strategy space w = Ok (strategy, w1) →
            match Py.dict self !! "_evaluate" with
            | None =>
                run self space function store_best_only w
                = Raise (PyAttributeError "_evaluate")
            | Some _ =>
                run self space function store_best_only w
                = Raise (PyTypeError "object is not callable")
            end) as Hcases.
  { intros strategy w1 Hinit. unfold run.
    rewrite (bind_Ok _ _ _ _ _ Hinit).
    unfold Py.getattr.
    assert (Py.property (Py.cls self) "_evaluate" = None) as ->
      by (by destruct (Py.cls self)).
    rewrite bool_decide_eq_false_2
      by (apply (bool_decide_unpack _); by vm_compute).
    destruct (Py.dict self !! "_evaluate") as [v|]; [done|].
    rewrite bool_decide_eq_false_2; [done|].
    destruct (Py.cls self); apply (bool_decide_unpack _); by vm_compute. }
  split.
  - destruct (init_strategy space w) as [[strategy w1]|e] eqn:Hinit.
    + specialize (Hcases strategy w1 eq_refl).
      destruct (Py.dict self !! "_evaluate"); by eexists.
    + exists e. unfold run, mbind, M_bind. by rewrite Hinit.
  - intros Hspace.
    destruct (init_strategy_returns space w Hspace)
      as (strategy & g & Hinit).
    by apply (Hcases strategy (with_gen g w)).
Qed.

End InitMore.

(** ** The example, once more *)

Module ExampleMore.
Import Example.

Lemma counter_uniform_size : @uniform_size counter.
Proof. intros low high n g. simpl. apply length_replicate. Qed.



Lemma world_short_strategy_ok :
  @strategy_ok counter world (take 1 [1%positive; 2%positive]) [[[1%Q]; [1%Q]]].
Proof.
  intros i agent Hi. destruct i as [|i]; simpl in Hi; simplify_eq.
  exists (agent_at 1 25%Q), [[3%Q]; [4%Q]], [[1%Q]; [1%Q]].
  split_and!; first [reflexivity | simpl; lia].
Qed.

Lemma world_dimensions (k : nat) (agent : loc) :
  [1%positive; 2%positive] !! k = Some agent →
  ∃ a, @agent_objs counter world !! agent = Some a
       ∧ (n_dimensions a = 1%nat ∨ n_dimensions a = 1%nat).
Proof.
  intros Hk. destruct k as [|[|k]]; simpl in Hk; simplify_eq.
  - exists (agent_at 1 25%Q). by split; [|left].
  - exists (agent_at 2 5%Q). by split; [|left].
Qed.

Lemma world_space_ok : @space_ok counter world space.
Proof.
  split; [done|]. split; [simpl; lia|].
  exists [1%positive; 2%positive]. split; [reflexivity|].
  split; [simpl; lia|]. apply world_dimensions.
Qed.

End ExampleMore.



(** Witness for X14: two agents and the bout size 0.1, in an
    environment where the product is 0.2. *)
Lemma update_without_bouts_witness :
  ∃ next strategy' w',
    @update Example.counter Example.environment (mkHyper (1 # 10) (1 # 20))
      1%positive 2 Example.sphere Example.strategy Example.world
    = Ok ((next, strategy'), w')
    ∧ list_objs w' !! next = Some [1%positive; 2%positive].
Proof.
  apply (@update_without_bouts Example.counter Example.environment
           ExampleFacts.counter_gaussian_shape
           ExampleFacts.counter_integer_in_range
           (mkHyper (1 # 10) (1 # 20)) 1%positive 2%Z Example.sphere
           Example.strategy Example.world [1%positive; 2%positive]).
  - reflexivity.
  - exact ExampleFacts.world_strategy_ok.
  - reflexivity.
  - reflexivity.
Defined.



(** Witness for X17: one strategy for the two agents of
    [Example.world]. *)
Lemma update_short_strategy_witness :
  @update Example.counter Example.environment Example.hyper 1%positive 2
    Example.sphere [[[1%Q]; [1%Q]]] Example.world
  = Raise PyIndexError.
Proof.
  apply (@update_short_strategy Example.counter Example.environment
           ExampleFacts.counter_gaussian_shape
           Example.hyper 1%positive 2%Z Example.sphere [[[1%Q]; [1%Q]]]
           Example.world [1%positive; 2%positive]).
  - reflexivity.
  - exact ExampleMore.world_short_strategy_ok.
  - simpl. lia.
Defined.

(** Witness for X18: the two agents of [Example.world], of
    fitness 25 and 5, in three bouts each: the first wins none. *)
Lemma tournament_counts_witness :
  ∃ wins g,
    @tournament Example.counter 3 [1%positive; 2%positive] Example.world
    = Ok (wins, with_gen g Example.world)
    ∧ length wins = 2%nat
    ∧ Forall (fun c => (c ≤ 3)%nat) wins
    ∧ wins !! 0%nat = Some 0%nat.
Proof.
  destruct (@tournament_counts Example.counter
              ExampleFacts.counter_integer_in_range 3%Z
              [1%positive; 2%positive] [25%Q; 5%Q] Example.world)
    as (wins & g & Hrun & Hlen & Hle & Hworst).
  - by repeat constructor.
  - exists wins, g. split_and!; [assumption..|].
    apply (Hworst 0%nat 25%Q); [reflexivity|].
    by repeat constructor.
Defined.

(** Witness for X19: [Example.space] in [Example.world]. *)
Lemma init_strategy_spec_witness :
  ∃ strategy g,
    @init_strategy Example.counter Example.space Example.world
    = Ok (strategy, with_gen g Example.world)
    ∧ length strategy = 2%nat
    ∧ uniform_strategy 2 1 strategy.
Proof.
  destruct (@init_strategy_spec Example.counter
              ExampleMore.counter_uniform_size Example.space Example.world)
    as (strategy & g & Hrun & Hlen & Hshape & _).
  - exact ExampleMore.world_space_ok.
  - exists strategy, g. by split_and!.
Defined.

(** Witness for X20: a space of three agents over the list of two of
    [Example.world]. *)
Lemma init_strategy_short_population_witness :
  @init_strategy Example.counter
    (mkSpace 3 2 1 10 1 3 [-10%Q; -10%Q] [10%Q; 10%Q]) Example.world
  = Raise PyIndexError.
Proof.
  apply (@init_strategy_short_population Example.counter
           ExampleMore.counter_uniform_size
           (mkSpace 3 2 1 10 1 3 [-10%Q; -10%Q] [10%Q; 10%Q]) Example.world
           [1%positive; 2%positive]).
  - reflexivity.
  - simpl. lia.
  - simpl. lia.
  - exact ExampleMore.world_dimensions.
Defined.

(** Witness for X21: an [EP] instance whose dictionary binds [_evaluate]
    to 5, on [Example.space]. *)
Lemma run_never_returns_witness :
  @run Example.counter (Py.store "_evaluate" (Py.VInt 5) Py.EP_defaults)
    Example.space Example.sphere true Example.world
  = Raise (PyTypeError "object is not callable").
Proof.
  destruct (@run_never_returns Example.counter
              ExampleMore.counter_uniform_size
              (Py.store "_evaluate" (Py.VInt 5) Py.EP_defaults)
              Example.space Example.sphere true Example.world) as [_ Hrun].
  apply Hrun. exact ExampleMore.world_space_ok.
Defined.
